(** * fan2go: the control-plane backend, embedded in Rocq

    A shallow embedding of [internal/backend.go] (both revisions kept in the
    sources), of the sysfs probe of package [util] and of the fans of the
    [detect] command, with the parts of their collaborators that they rely
    on: the [rolling] point windows, Go's [float64], [regexp] and [strings],
    and the file system as the probe reads it.  Data is modelled as the
    code has it:
    - Go [int]            : [Z] (no arithmetic of the backend leaves the
                            64-bit range: counters stay below 257);
    - Go [float64]        : Rocq's primitive binary64 floats;
    - Go [map[int]T]      : [gmap Z T]; a pointer to a map is an [option];
    - Go [string]         : [string];
    - panics and ui.Fatal : the [result] type. *)

From Stdlib Require Import ZArith Floats Ascii String.
From stdpp Require Import gmap strings list sorting.

Local Open Scope Z_scope.

(** ** Outcomes of a Go call *)

Inductive panic : Type :=
  | NilDereference          (* invalid memory address or nil pointer dereference *)
  | IndexOutOfRange         (* index out of range [i] with length n *)
  | SliceBoundsOutOfRange   (* slice bounds out of range *)
  | MakeSliceLenOutOfRange. (* makeslice: len out of range *)

Inductive result (A : Type) : Type :=
  | Ok (a : A)          (* the call returns *)
  | Panic (p : panic)   (* the goroutine panics *)
  | Fatal (msg : string). (* ui.Fatal: the message is logged and the process exits *)

Arguments Ok {A} a.
Arguments Panic {A} p.
Arguments Fatal {A} msg.

#[global] Instance result_ret : MRet result := @Ok.
#[global] Instance result_bind : MBind result := λ A B f r,
  match r with
  | Ok a => f a
  | Panic p => Panic p
  | Fatal msg => Fatal msg
  end.

(** [for i := lo; i < lo + n; i++ { s = body i s }], stopping at the first
    panic or fatal error. *)
Fixpoint for_range {S : Type} (lo : Z) (n : nat) (body : Z → S → result S) (s : S)
  : result S :=
  match n with
  | O => Ok s
  | Datatypes.S n' => s' ← body lo s; for_range (lo + 1) n' body s'
  end.

(** ** Go's float64 *)

Module Float64.

(** [float64(i)] for an [int] [i]: the nearest binary64 value. *)
Definition of_int (z : Z) : float := SF2Prim (binary_normalize prec emax z 0 false).

(** [int(f)] for a [float64] [f]: truncation toward zero.  For NaN, the
    infinities and values outside the 64-bit range Go leaves the result to
    the implementation; amd64 yields the "integer indefinite" value. *)
Definition to_int (f : float) : Z :=
  let indefinite := - 2 ^ 63 in
  match Prim2SF f with
  | S754_zero _ => 0
  | S754_finite s m e =>
      let v := if 0 <=? e then Z.pos m * 2 ^ e else Z.pos m / 2 ^ (- e) in
      let z := if s then - v else v in
      if (- 2 ^ 63 <=? z) && (z <? 2 ^ 63) then z else indefinite
  | _ => indefinite
  end.

End Float64.

(** ** github.com/asecurityteam/rolling: point windows

    A [Window] is a slice of buckets; under the point policy every bucket
    holds exactly one value, so the window is a list of values.
    [NewPointPolicy(NewWindow(n))] allocates [n] buckets, each holding 0. *)

Module rolling.

Record PointPolicy : Type := {
  windowSize : Z;
  window : list float;
  offset : Z
}.

(** [NewPointPolicy(NewWindow(buckets))]; [make] panics on a negative length. *)
Definition NewPointPolicy (buckets : Z) : result PointPolicy :=
  if buckets <? 0 then Panic MakeSliceLenOutOfRange
  else Ok {| windowSize := buckets;
             window := replicate (Z.to_nat buckets) 0%float;
             offset := 0 |}.

(** [w.window[w.offset][0] = value; w.offset = (w.offset + 1) % w.windowSize] *)
Definition Append (value : float) (w : PointPolicy) : result PointPolicy :=
  if bool_decide (0 ≤ offset w ∧ (Z.to_nat (offset w) < length (window w))%nat) then
    Ok {| windowSize := windowSize w;
          window := <[Z.to_nat (offset w) := value]> (window w);
          offset := (offset w + 1) `rem` windowSize w |}
  else Panic IndexOutOfRange.

(** [rolling.Avg]: sum and count over every point of every bucket, then
    [result / count] (NaN for a window without buckets). *)
Definition Avg (w : list float) : float :=
  let '(result, count) :=
    fold_left (λ '(result, count) p, ((result + p)%float, (count + 1)%float))
              w (0%float, 0%float) in
  (result / count)%float.

(** [w.Reduce(f)] *)
Definition Reduce (f : list float → float) (w : PointPolicy) : float := f (window w).

End rolling.

(** ** package util *)

Module util.

(** Modelled from the spec: [util.Avg] is not among the sources.  The spec
    speaks of "the averages" of the defined PWMs (§4.9): the arithmetic mean
    of the persisted values, summed left to right. *)
Definition Avg (values : list float) : float :=
  (fold_left (λ sum v, (sum + v)%float) values 0%float
     / Float64.of_int (Z.of_nat (length values)))%float.

(** Modelled from the spec: [util.Ratio] is not among the sources.  The spec
    calls the fill a linear interpolation (§4.9), with the same shape as the
    step curve of §4.6: the position of [target] between [rangeMin] and
    [rangeMax]. *)
Definition Ratio (target rangeMin rangeMax : float) : float :=
  ((target - rangeMin) / (rangeMax - rangeMin))%float.

End util.

(** ** package configuration

    The declarations of the configuration package are not among the sources;
    the records list the fields the backend reads. *)

Module configuration.

Inductive DeviceType : Type :=
  | TypeHwMon                  (* FanTypeHwMon, SensorTypeHwMon *)
  | TypeFile                   (* FanTypeFile, SensorTypeFile *)
  | TypeOther (name : string).

(** The [Params] of a fan or sensor entry, as [json.Unmarshal] of their
    marshalled form into [HwMonFanParams] / [HwMonSensor] sees them. *)
Inductive Params : Type :=
  | HwMonParams (Platform : string) (Index : Z)
  | MalformedParams.           (* json.Unmarshal returns an error *)

Record FanConfig : Type := {
  FanConfig_Id : string;
  FanConfig_Type : DeviceType;
  FanConfig_Params : Params
}.

Record SensorConfig : Type := {
  SensorConfig_Id : string;
  SensorConfig_Type : DeviceType;
  SensorConfig_Params : Params
}.

(** [configuration.CurrentConfig] *)
Record Configuration : Type := {
  RpmRollingWindowSize : Z;
  Fans : list FanConfig;
  Sensors : list SensorConfig
}.

End configuration.

(** ** package fans: the hwmon fan object

    [fans.HwMonFan] is declared outside the sources; the fields are those of
    the struct literal in [createFans] and of the accessors the backend calls
    ([SetStartPwm], [SetConfig], [GetOriginalPwmEnabled], ...), which are
    plain getters and setters of the field they name. *)

Module fans.

Record HwMonFan : Type := {
  Name : string;
  Label : string;
  Index : Z;
  PwmOutput : string;
  RpmInput : string;
  RpmMovingAvg : float;
  MinPwm : Z;
  StartPwm : Z;
  MaxPwm : Z;
  (** [*map[int]*rolling.PointPolicy]; [None] is the nil pointer *)
  FanCurveData : option (gmap Z rolling.PointPolicy);
  LastSetPwm : Z;
  OriginalPwmEnabled : Z;
  (** [*configuration.FanConfig]; [None] is nil *)
  Config : option configuration.FanConfig
}.

Definition SetRpmAvg (v : float) (f : HwMonFan) : HwMonFan :=
  {| Name := Name f; Label := Label f; Index := Index f;
     PwmOutput := PwmOutput f; RpmInput := RpmInput f;
     RpmMovingAvg := v;
     MinPwm := MinPwm f; StartPwm := StartPwm f; MaxPwm := MaxPwm f;
     FanCurveData := FanCurveData f; LastSetPwm := LastSetPwm f;
     OriginalPwmEnabled := OriginalPwmEnabled f; Config := Config f |}.

Definition SetMinPwm (v : Z) (f : HwMonFan) : HwMonFan :=
  {| Name := Name f; Label := Label f; Index := Index f;
     PwmOutput := PwmOutput f; RpmInput := RpmInput f;
     RpmMovingAvg := RpmMovingAvg f;
     MinPwm := v; StartPwm := StartPwm f; MaxPwm := MaxPwm f;
     FanCurveData := FanCurveData f; LastSetPwm := LastSetPwm f;
     OriginalPwmEnabled := OriginalPwmEnabled f; Config := Config f |}.

Definition SetStartPwm (v : Z) (f : HwMonFan) : HwMonFan :=
  {| Name := Name f; Label := Label f; Index := Index f;
     PwmOutput := PwmOutput f; RpmInput := RpmInput f;
     RpmMovingAvg := RpmMovingAvg f;
     MinPwm := MinPwm f; StartPwm := v; MaxPwm := MaxPwm f;
     FanCurveData := FanCurveData f; LastSetPwm := LastSetPwm f;
     OriginalPwmEnabled := OriginalPwmEnabled f; Config := Config f |}.

Definition SetMaxPwm (v : Z) (f : HwMonFan) : HwMonFan :=
  {| Name := Name f; Label := Label f; Index := Index f;
     PwmOutput := PwmOutput f; RpmInput := RpmInput f;
     RpmMovingAvg := RpmMovingAvg f;
     MinPwm := MinPwm f; StartPwm := StartPwm f; MaxPwm := v;
     FanCurveData := FanCurveData f; LastSetPwm := LastSetPwm f;
     OriginalPwmEnabled := OriginalPwmEnabled f; Config := Config f |}.

Definition SetConfig (c : configuration.FanConfig) (f : HwMonFan) : HwMonFan :=
  {| Name := Name f; Label := Label f; Index := Index f;
     PwmOutput := PwmOutput f; RpmInput := RpmInput f;
     RpmMovingAvg := RpmMovingAvg f;
     MinPwm := MinPwm f; StartPwm := StartPwm f; MaxPwm := MaxPwm f;
     FanCurveData := FanCurveData f; LastSetPwm := LastSetPwm f;
     OriginalPwmEnabled := OriginalPwmEnabled f; Config := Some c |}.

Definition SetOriginalPwmEnabled (v : Z) (f : HwMonFan) : HwMonFan :=
  {| Name := Name f; Label := Label f; Index := Index f;
     PwmOutput := PwmOutput f; RpmInput := RpmInput f;
     RpmMovingAvg := RpmMovingAvg f;
     MinPwm := MinPwm f; StartPwm := StartPwm f; MaxPwm := MaxPwm f;
     FanCurveData := FanCurveData f; LastSetPwm := LastSetPwm f;
     OriginalPwmEnabled := v; Config := Config f |}.

(** The map behind [GetFanCurveData()] is updated in place: the pointer
    stays, its target changes. *)
Definition with_curve_data (m : gmap Z rolling.PointPolicy) (f : HwMonFan) : HwMonFan :=
  {| Name := Name f; Label := Label f; Index := Index f;
     PwmOutput := PwmOutput f; RpmInput := RpmInput f;
     RpmMovingAvg := RpmMovingAvg f;
     MinPwm := MinPwm f; StartPwm := StartPwm f; MaxPwm := MaxPwm f;
     FanCurveData := Some m; LastSetPwm := LastSetPwm f;
     OriginalPwmEnabled := OriginalPwmEnabled f; Config := Config f |}.

End fans.

(** ** Go's regexp, for the patterns of the backend

    A pattern is a sequence of nodes: a literal byte, one byte of a class, or
    a greedy star over a class.  Matching follows Go's leftmost-first rule:
    the leftmost start, and at that start the first match in the order a
    backtracking search with greedy stars finds it. *)

Module regexp.

Inductive node : Type :=
  | Lit (c : ascii)
  | Class (cls : ascii → bool)
  | Star (cls : ascii → bool).

Definition Regexp : Type := list node.

(** [.]: any byte but the newline *)
Definition dot (c : ascii) : bool := negb (Ascii.eqb c "010"%char).

(** [[^/]] *)
Definition not_slash (c : ascii) : bool := negb (Ascii.eqb c "/"%char).

Definition literal (s : string) : Regexp := Lit <$> list_ascii_of_string s.

(** The match of [re] that starts at the head of [s], if any. *)
Fixpoint match_here (re : Regexp) (s : list ascii) : option (list ascii) :=
  match re with
  | [] => Some []
  | Lit c :: re' =>
      match s with
      | c' :: s' => if Ascii.eqb c c' then cons c' <$> match_here re' s' else None
      | [] => None
      end
  | Class cls :: re' =>
      match s with
      | c' :: s' => if cls c' then cons c' <$> match_here re' s' else None
      | [] => None
      end
  | Star cls :: re' =>
      (fix star (s : list ascii) : option (list ascii) :=
         match s with
         | c' :: s' =>
             if cls c' then
               match star s' with
               | Some m => Some (c' :: m)
               | None => match_here re' s
               end
             else match_here re' s
         | [] => match_here re' s
         end) s
  end.

Fixpoint find (re : Regexp) (s : list ascii) : option (list ascii) :=
  match match_here re s with
  | Some m => Some m
  | None =>
      match s with
      | [] => None
      | _ :: s' => find re s'
      end
  end.

(** [re.FindString(s)]: the text of the leftmost match, or the empty
    string when there is none. *)
Definition FindString (re : Regexp) (s : string) : string :=
  string_of_list_ascii (default [] (find re (list_ascii_of_string s))).

(** [\d] and [\w] *)
Definition digit (c : ascii) : bool :=
  let n := Z.of_nat (nat_of_ascii c) in (48 <=? n) && (n <=? 57).

Definition word (c : ascii) : bool :=
  let n := Z.of_nat (nat_of_ascii c) in
  digit c || ((65 <=? n) && (n <=? 90)) || ((97 <=? n) && (n <=? 122)) || (n =? 95).

(** The leftmost match, with the text that follows it. *)
Fixpoint find_split (re : Regexp) (s : list ascii) : option (list ascii * list ascii) :=
  match match_here re s with
  | Some m => Some (m, drop (length m) s)
  | None =>
      match s with
      | [] => None
      | _ :: s' => find_split re s'
      end
  end.

(** The successive matches of a pattern that matches no empty text (as the
    patterns of the backend): each match is searched in what follows the
    match before it.  A text of [n] bytes holds at most [n] such matches. *)
Fixpoint find_all (fuel : nat) (re : Regexp) (s : list ascii) : list (list ascii) :=
  match fuel with
  | O => []
  | S fuel' =>
      match find_split re s with
      | Some (c :: m, rest) => (c :: m) :: find_all fuel' re rest
      | _ => []
      end
  end.

(** [re.FindAllString(s, -1)] *)
Definition FindAllString (re : Regexp) (s : string) : list string :=
  string_of_list_ascii <$> find_all (String.length s) re (list_ascii_of_string s).

End regexp.

(** ** package internal, first revision of backend.go *)

Module backend.

Import configuration fans.

Definition MaxPwmValue : Z := 255.
Definition MinPwmValue : Z := 0.
Definition InitialLastSetPwm : Z := -10.

Inductive error : Type :=
  | ErrInvalid                 (* os.ErrInvalid *)
  | ErrOther (msg : string).

(** [rolling.NewPointPolicy(rolling.NewWindow(size))] *)
Definition createRollingWindow (size : Z) : result rolling.PointPolicy :=
  rolling.NewPointPolicy size.

(** [window.Reduce(rolling.Avg)] *)
Definition getWindowAvg (w : rolling.PointPolicy) : float :=
  rolling.Reduce rolling.Avg w.

(** *** GetPwmBoundaries *)

(** The keys of the map, collected in iteration order and sorted by
    [sort.Ints]. *)
Definition sorted_keys (m : gmap Z rolling.PointPolicy) : list Z :=
  merge_sort Z.le ((map_to_list m).*1).

(** [avgRpm := int(getWindowAvg(window))] *)
Definition avgRpm (w : rolling.PointPolicy) : Z := Float64.to_int (getWindowAvg w).

(** One round of [for _, pwm := range keys], on the loop's variables
    [(maxRpm, maxPwm, startPwm)].  Every key comes from the map, so the
    lookup finds its window. *)
Definition boundaries_step (m : gmap Z rolling.PointPolicy)
    (st : Z * Z * Z) (pwm : Z) : Z * Z * Z :=
  let '(maxRpm, maxPwm, startPwm) := st in
  match m !! pwm with
  | None => st
  | Some w =>
      let avg := avgRpm w in
      let '(maxRpm, maxPwm) :=
        if maxRpm <? avg then (avg, pwm) else (maxRpm, maxPwm) in
      let startPwm :=
        if (0 <? avg) && (pwm <? startPwm) then pwm else startPwm in
      (maxRpm, maxPwm, startPwm)
  end.

(** [GetPwmBoundaries(fan)] returns [(startPwm, maxPwm)].  The length of
    [keys] is taken from [*pwmRpmMap] before the guard tests the pointer. *)
Definition GetPwmBoundaries (fan : HwMonFan) : result (Z * Z) :=
  match FanCurveData fan with
  | None => Panic NilDereference          (* len( *pwmRpmMap ) *)
  | Some m =>
      let keys := sorted_keys m in
      if (Z.of_nat (length keys) <=? 0) then Ok (0, 255)
      else
        let '(_, maxPwm, startPwm) :=
          fold_left (boundaries_step m) keys (0, 255, 255) in
        Ok (startPwm, maxPwm)
  end.

(** *** AttachFanCurveData *)

Definition limit : Z := 255.

(** The variables that live across the rounds of the outer loop. *)
Record attach_vars : Type := {
  lastValueIdx : Z;
  lastValueAvg : float;
  nextValueIdx : Z;
  nextValueAvg : float
}.

(** [for j := i; j <= limit; j++]: every key found overwrites
    [nextValueIdx] and [nextValueAvg]; the loop has no [break]. *)
Definition find_next (curveData : gmap Z (list float)) (i : Z)
    (next : Z * float) : Z * float :=
  fold_left
    (λ (nx : Z * float) (j : Z),
       match curveData !! j with
       | Some pointValues => (j, util.Avg pointValues)
       | None => nx
       end)
    (seqZ i (limit - i + 1)) next.

(** The first part of a round: the variables after it, and the
    [pointValues] the window of PWM [i] is filled from. *)
Definition choose_values (curveData : gmap Z (list float)) (i : Z)
    (v : attach_vars) : attach_vars * list float :=
  let found := curveData !! i in
  let pointValues := default [] found in
  if bool_decide (is_Some found) && (0 <? Z.of_nat (length pointValues)) then
    ({| lastValueIdx := i; lastValueAvg := util.Avg pointValues;
        nextValueIdx := nextValueIdx v; nextValueAvg := nextValueAvg v |},
     pointValues)
  else
    (* a missing key reads as the nil slice; whether a stored empty slice is
       nil does not matter, the value is reassigned below *)
    let pointValues :=
      if bool_decide (found = None) then [lastValueAvg v] else pointValues in
    let '(nextIdx, nextAvg) := find_next curveData i (i, nextValueAvg v) in
    if nextIdx =? i then
      (* copy(pointValues, valuesCopy) copies the empty valuesCopy into
         pointValues, then pointValues becomes valuesCopy *)
      let valuesCopy : list float := [] in
      ({| lastValueIdx := lastValueIdx v; lastValueAvg := lastValueAvg v;
          nextValueIdx := nextIdx; nextValueAvg := nextAvg |},
       valuesCopy)
    else
      let ratio := util.Ratio (Float64.of_int i)
                              (Float64.of_int (lastValueIdx v))
                              (Float64.of_int nextIdx) in
      let interpolation :=
        (lastValueAvg v + ratio * (nextAvg - lastValueAvg v))%float in
      ({| lastValueIdx := lastValueIdx v; lastValueAvg := lastValueAvg v;
          nextValueIdx := nextIdx; nextValueAvg := nextAvg |},
       [interpolation]).

(** One round of [for k := 0; k < RpmRollingWindowSize; k++], on
    [(currentAvg, window)]. *)
Definition fill_round (pointValues : list float) (k : Z)
    (st : float * rolling.PointPolicy) : result (float * rolling.PointPolicy) :=
  let '(currentAvg, w) := st in
  let rpm :=
    if k <? Z.of_nat (length pointValues)
    then default 0%float (pointValues !! Z.to_nat k)
    else currentAvg in
  let currentAvg :=
    if k =? 0 then rpm else ((currentAvg + rpm) / 2)%float in
  w' ← rolling.Append rpm w;
  Ok (currentAvg, w').

Definition fill_window (size : Z) (pointValues : list float)
    (w : rolling.PointPolicy) : result (float * rolling.PointPolicy) :=
  for_range 0 (Z.to_nat size) (fill_round pointValues) (0%float, w).

(** One round of [for i := 0; i <= limit; i++], on the variables and the
    fan. *)
Definition attach_round (cfg : Configuration) (curveData : gmap Z (list float))
    (i : Z) (st : attach_vars * HwMonFan) : result (attach_vars * HwMonFan) :=
  let '(v, fan) := st in
  fanCurveMovingWindow ← createRollingWindow (RpmRollingWindowSize cfg);
  let '(v, pointValues) := choose_values curveData i v in
  '(_, filled) ← fill_window (RpmRollingWindowSize cfg) pointValues fanCurveMovingWindow;
  match FanCurveData fan with
  | None => Panic NilDereference          (* ( *data )[i] = ... *)
  | Some data => Ok (v, with_curve_data (<[i := filled]> data) fan)
  end.

(** [AttachFanCurveData(curveData, fan)]: the returned error and the fan as
    the call leaves it. *)
Definition AttachFanCurveData (cfg : Configuration)
    (curveData : option (gmap Z (list float))) (fan : HwMonFan)
  : result (option error * HwMonFan) :=
  match curveData with
  | Some cd =>
      if decide (cd = ∅) then
        match Config fan with
        | None => Panic NilDereference    (* fan.GetConfig().Id *)
        | Some _ => Ok (Some ErrInvalid, fan)
        end
      else
        '(_, fan) ← for_range 0 (Z.to_nat (limit + 1)) (attach_round cfg cd)
                      ({| lastValueIdx := 0; lastValueAvg := 0%float;
                          nextValueIdx := 0; nextValueAvg := 0%float |}, fan);
        '(startPwm, maxPwm) ← GetPwmBoundaries fan;
        Ok (None, SetMinPwm startPwm (SetMaxPwm maxPwm (SetStartPwm startPwm fan)))
  | None =>
      match Config fan with
      | None => Panic NilDereference
      | Some _ => Ok (Some ErrInvalid, fan)
      end
  end.

(** *** The objects shared between tasks

    [FanMap] and [SensorMap] hold pointers: the fan a controller lists, the
    fan of [FanMap] and the fan a fan controller works on are one object.
    Objects live in a store, and lists and maps hold their addresses. *)

Record HwmonSensor : Type := {
  Sensor_Name : string;
  Sensor_Label : string;
  Sensor_Index : Z;
  Sensor_Input : string;
  Sensor_Config : option SensorConfig;
  Sensor_MovingAvg : float
}.

Definition Sensor_SetConfig (sensorConfig : SensorConfig) (sensor : HwmonSensor)
  : HwmonSensor :=
  {| Sensor_Name := Sensor_Name sensor; Sensor_Label := Sensor_Label sensor;
     Sensor_Index := Sensor_Index sensor; Sensor_Input := Sensor_Input sensor;
     Sensor_Config := Some sensorConfig;
     Sensor_MovingAvg := Sensor_MovingAvg sensor |}.

Definition Sensor_SetMovingAvg (value : float) (sensor : HwmonSensor) : HwmonSensor :=
  {| Sensor_Name := Sensor_Name sensor; Sensor_Label := Sensor_Label sensor;
     Sensor_Index := Sensor_Index sensor; Sensor_Input := Sensor_Input sensor;
     Sensor_Config := Sensor_Config sensor;
     Sensor_MovingAvg := value |}.

Record HwMonController : Type := {
  Controller_Name : string;
  DType : string;
  Modalias : string;
  Platform : string;
  Path : string;
  Controller_Fans : list nat;       (* []Fan, by address *)
  Controller_Sensors : list nat     (* []Sensor, by address *)
}.

Record Globals : Type := {
  fan_store : gmap nat HwMonFan;
  sensor_store : gmap nat HwmonSensor;
  FanMap : gmap string nat;
  SensorMap : gmap string nat
}.

Definition with_fan (a : nat) (f : HwMonFan) (g : Globals) : Globals :=
  {| fan_store := <[a := f]> (fan_store g); sensor_store := sensor_store g;
     FanMap := FanMap g; SensorMap := SensorMap g |}.

Definition with_sensor (a : nat) (s : HwmonSensor) (g : Globals) : Globals :=
  {| fan_store := fan_store g; sensor_store := <[a := s]> (sensor_store g);
     FanMap := FanMap g; SensorMap := SensorMap g |}.

Definition with_FanMap (id : string) (a : nat) (g : Globals) : Globals :=
  {| fan_store := fan_store g; sensor_store := sensor_store g;
     FanMap := <[id := a]> (FanMap g); SensorMap := SensorMap g |}.

Definition with_SensorMap (id : string) (a : nat) (g : Globals) : Globals :=
  {| fan_store := fan_store g; sensor_store := sensor_store g;
     FanMap := FanMap g; SensorMap := <[id := a]> (SensorMap g) |}.

(** [for _, x := range l { s = body x s }] *)
Fixpoint for_each {A S : Type} (body : A → S → result S) (l : list A) (s : S)
  : result S :=
  match l with
  | [] => Ok s
  | x :: l' => s' ← body x s; for_each body l' s'
  end.

(** *** measureRpm and rpmMonitor *)

Section sampling.

Variable cfg : Configuration.
(** [updateSimpleMovingAvg(oldAvg, n, newValue)], declared outside the
    sources. *)
Variable updateSimpleMovingAvg : float → Z → float → float.

(** [measureRpm(fanId)]; [pwm] and [rpm] are what [fan.GetPwm()] and
    [fan.GetRpm()] read from sysfs during the call. *)
Definition measureRpm (fanId : string) (pwm rpm : Z) (g : Globals) : result Globals :=
  match FanMap g !! fanId ≫= λ a, (λ f, (a, f)) <$> fan_store g !! a with
  | None => Panic NilDereference        (* fan.GetPwm() on the nil Fan *)
  | Some (a, fan) =>
      match Config fan with
      | None => Panic NilDereference    (* fan.GetConfig().Id *)
      | Some _ =>
          let updatedRpmAvg :=
            updateSimpleMovingAvg (RpmMovingAvg fan) (RpmRollingWindowSize cfg)
                                  (Float64.of_int rpm) in
          let fan := SetRpmAvg updatedRpmAvg fan in
          match FanCurveData fan with
          | None => Panic NilDereference   (* ( *pwmRpmMap )[pwm] *)
          | Some pwmRpmMap =>
              '(pwmRpmMap, pointWindow) ←
                match pwmRpmMap !! pwm with
                | Some pointWindow => Ok (pwmRpmMap, pointWindow)
                | None =>
                    pointWindow ← createRollingWindow (RpmRollingWindowSize cfg);
                    Ok (<[pwm := pointWindow]> pwmRpmMap, pointWindow)
                end;
              pointWindow ← rolling.Append (Float64.of_int rpm) pointWindow;
              Ok (with_fan a (with_curve_data (<[pwm := pointWindow]> pwmRpmMap) fan) g)
          end
      end
  end.

(** What the [select] of a monitor loop receives. *)
Inductive monitor_event : Type :=
  | CtxDone                    (* <-ctx.Done() *)
  | Tick (pwm rpm : Z).        (* <-tick, with the sysfs values at that time *)

(** [rpmMonitor(ctx, fanId, tick)] on the events it receives: the state
    when it returns, or when it waits for the next event. *)
Fixpoint rpmMonitor (fanId : string) (events : list monitor_event) (g : Globals)
  : result Globals :=
  match events with
  | [] => Ok g
  | CtxDone :: _ => Ok g
  | Tick pwm rpm :: events' =>
      g' ← measureRpm fanId pwm rpm g;
      rpmMonitor fanId events' g'
  end.

End sampling.

(** *** Binding configuration entries to devices *)

Section binding.

Variable cfg : Configuration.

(** [findFanConfig(controller, fan)]: the first hwmon entry with the
    controller's platform and the fan's index. *)
Fixpoint findFanConfig_in (entries : list FanConfig)
    (controller : HwMonController) (fan : HwMonFan) : result (option FanConfig) :=
  match entries with
  | [] => Ok None
  | fanConfig :: entries' =>
      match FanConfig_Type fanConfig with
      | TypeHwMon =>
          match FanConfig_Params fanConfig with
          | MalformedParams =>
              Fatal "Couldn't unmarshal fan parameter configuration: %v"
          | HwMonParams platform index =>
              if bool_decide (Platform controller = platform)
                 && bool_decide (Index fan = index)
              then Ok (Some fanConfig)
              else findFanConfig_in entries' controller fan
          end
      | _ => findFanConfig_in entries' controller fan
      end
  end.

Definition findFanConfig := findFanConfig_in (Fans cfg).

Fixpoint findSensorConfig_in (entries : list SensorConfig)
    (controller : HwMonController) (sensor : HwmonSensor)
  : result (option SensorConfig) :=
  match entries with
  | [] => Ok None
  | sensorConfig :: entries' =>
      match SensorConfig_Type sensorConfig with
      | TypeHwMon =>
          match SensorConfig_Params sensorConfig with
          | MalformedParams =>
              Fatal "Couldn't unmarshal sensor parameter configuration: %v"
          | HwMonParams platform index =>
              if bool_decide (Platform controller = platform)
                 && bool_decide (Sensor_Index sensor = index)
              then Ok (Some sensorConfig)
              else findSensorConfig_in entries' controller sensor
          end
      | _ => findSensorConfig_in entries' controller sensor
      end
  end.

Definition findSensorConfig := findSensorConfig_in (Sensors cfg).

(** [sensor.GetValue()] reads the input file of the sensor; [None] is a
    read error. *)
Variable GetValue : HwmonSensor → option float.

Definition map_fan (controller : HwMonController) (a : nat) (g : Globals)
  : result Globals :=
  match fan_store g !! a with
  | None => Panic NilDereference
  | Some fan =>
      fanConfig ← findFanConfig controller fan;
      match fanConfig with
      | Some fanConfig =>
          Ok (with_FanMap (FanConfig_Id fanConfig) a
                (with_fan a (SetConfig fanConfig fan) g))
      | None => Ok g
      end
  end.

Definition map_sensor (controller : HwMonController) (a : nat) (g : Globals)
  : result Globals :=
  match sensor_store g !! a with
  | None => Panic NilDereference
  | Some sensor =>
      sensorConfig ← findSensorConfig controller sensor;
      match sensorConfig with
      | None => Ok g                      (* continue *)
      | Some sensorConfig =>
          (* sensor.SetConfig(sensorConfig) *)
          let sensor := Sensor_SetConfig sensorConfig sensor in
          (* SensorMap[sensorConfig.Id] = sensor *)
          let g := with_SensorMap (SensorConfig_Id sensorConfig) a
                     (with_sensor a sensor g) in
          (* currentValue, err := sensor.GetValue() *)
          match GetValue sensor with
          | None => Fatal "Error reading sensor %s: %v"
          | Some currentValue =>
              (* sensor.SetMovingAvg(currentValue) *)
              Ok (with_sensor a (Sensor_SetMovingAvg currentValue sensor) g)
          end
      end
  end.

(** [MapConfigToControllers(controllers)] *)
Definition MapConfigToControllers (controllers : list HwMonController)
    (g : Globals) : result Globals :=
  for_each
    (λ controller g,
       g' ← for_each (map_fan controller) (Controller_Fans controller) g;
       for_each (map_sensor controller) (Controller_Sensors controller) g')
    controllers g.

(** The tasks [Run] adds to its group. *)
Inductive task : Type :=
  | SensorMonitorTask (sensor : nat)
  | RpmMonitorTask (fanId : string)
  | FanControllerTask (fanId : string) (fan : nat)
  | SignalTask.

Definition configured_sensors (g : Globals) (controllers : list HwMonController)
  : list nat :=
  filter (λ a, is_Some (sensor_store g !! a ≫= Sensor_Config))
         (controllers ≫= Controller_Sensors).

Definition configured_fans (g : Globals) (controllers : list HwMonController)
  : list (string * nat) :=
  omap (λ a, fan ← fan_store g !! a;
             c ← Config fan;
             Some (FanConfig_Id c, a))
       (controllers ≫= Controller_Fans).

(** [Run()] up to [g.Run()]: the process owner is checked, the discovered
    controllers are bound to the configuration, and the task group is
    filled.  [owner] is what [getProcessOwner()] returns and
    [controllers] what [FindControllers()] found (its error is always nil).
    The curves built by [NewSpeedCurve] and the persistence handle play no
    part in what follows and are left out. *)
Definition Run (owner : string) (controllers : list HwMonController)
    (g : Globals) : result (Globals * list task) :=
  if negb (bool_decide (owner = "root"))
  then Fatal "Fan control requires root permissions to be able to modify fan speeds, please run fan2go as root"
  else
    g ← MapConfigToControllers controllers g;
    let sensorTasks := SensorMonitorTask <$> configured_sensors g controllers in
    let fanTasks :=
      configured_fans g controllers ≫=
        λ '(fanId, a), [RpmMonitorTask fanId; FanControllerTask fanId a] in
    let count := Z.of_nat (length (configured_fans g controllers)) in
    if count =? 0 then Fatal "No valid fan configurations, exiting."
    else Ok (g, sensorTasks ++ fanTasks ++ [SignalTask]).

End binding.

(** *** Device discovery *)

(** The opening brace of the pattern below. *)
Definition brace : ascii := "{"%char.

(** [regexp.MustCompile(".*/platform/{}/.*")]: the braces hold no
    repetition count, so Go's parser reads them as literal bytes. *)
Definition platformRegex : regexp.Regexp :=
  [regexp.Star regexp.dot] ++ regexp.literal "/platform/{}/" ++ [regexp.Star regexp.dot].

Definition findPlatform (devicePath : string) : string :=
  regexp.FindString platformRegex devicePath.

(** The platform [FindControllers] gives a controller:
    [platform := findPlatform(devicePath);
     if len(platform) <= 0 { platform = identifier }]. *)
Definition controller_platform (devicePath identifier : string) : string :=
  let platform := findPlatform devicePath in
  if Z.of_nat (String.length platform) <=? 0 then identifier else platform.

(** [_, file := filepath.Split(path)]: what follows the last slash. *)
Fixpoint Split_file_from (path file : string) : string :=
  match path with
  | EmptyString => file
  | String c path' =>
      if Ascii.eqb c "/"%char then Split_file_from path' EmptyString
      else Split_file_from path' (file +:+ String c EmptyString)
  end.

Definition Split_file (path : string) : string := Split_file_from path EmptyString.

Fixpoint last_byte (s : string) : option ascii :=
  match s with
  | EmptyString => None
  | String c EmptyString => Some c
  | String _ s' => last_byte s'
  end.

(** [strconv.Atoi] on a string of one byte: a decimal digit, or an error. *)
Definition Atoi (c : ascii) : option Z :=
  let n := Z.of_nat (nat_of_ascii c) in
  if (48 <=? n) && (n <=? 57) then Some (n - 48) else None.

Section discovery.

(** The sysfs probe: [util.FindFilesMatching], [util.GetLabel] and the
    read of [pwmN_enable] behind [fan.GetPwmEnabled()] ([None]: the read
    fails). *)
Variable FindFilesMatching : string → string → list string.
Variable GetLabel : string → string → string.
Variable GetPwmEnabled : HwMonFan → option Z.

(** [for idx, output := range outputs] *)
Fixpoint createFans_loop (devicePath : string) (inputs : list string)
    (idx : nat) (outputs : list string) (fanList : list HwMonFan)
  : result (list HwMonFan) :=
  match outputs with
  | [] => Ok fanList
  | output :: outputs' =>
      let file := Split_file output in
      let label := GetLabel devicePath output in
      match last_byte file with
      | None => Panic SliceBoundsOutOfRange       (* file[len(file)-1:] *)
      | Some digit =>
          match Atoi digit with
          | None => Fatal "%v"
          | Some index =>
              match inputs !! idx with
              | None => Panic IndexOutOfRange     (* inputs[idx] *)
              | Some rpmInput =>
                  let fan :=
                    {| Name := file; Label := label; Index := index;
                       PwmOutput := output; RpmInput := rpmInput;
                       RpmMovingAvg := 0%float;
                       MinPwm := MinPwmValue; StartPwm := 0;
                       MaxPwm := MaxPwmValue;
                       FanCurveData := Some ∅;
                       LastSetPwm := InitialLastSetPwm;
                       OriginalPwmEnabled := 0; Config := None |} in
                  match GetPwmEnabled fan with
                  | None =>
                      (* the argument fan.GetConfig().Id of ui.Fatal is
                         evaluated before the call *)
                      match Config fan with
                      | None => Panic NilDereference
                      | Some _ => Fatal "Cannot read pwm_enable value of %s"
                      end
                  | Some pwmEnabled =>
                      createFans_loop devicePath inputs (S idx) outputs'
                        (fanList ++ [SetOriginalPwmEnabled pwmEnabled fan])
                  end
              end
          end
      end
  end.

(** [createFans(devicePath)] *)
Definition createFans (devicePath : string) : result (list HwMonFan) :=
  let inputs := FindFilesMatching devicePath "^fan[1-9]_input$" in
  let outputs := FindFilesMatching devicePath "^pwm[1-9]$" in
  createFans_loop devicePath inputs 0 outputs [].

End discovery.

(** *** Restoring a fan when its controller ends

    The interrupt function [Run] registers with the fan controller of a
    configured fan.  [fan.SetPwmEnabled] and [setPwm] are declared outside
    the sources: the function is a tree of the calls it makes, each
    answered by the error the call returns. *)

Inductive ui_level : Type := UiError | UiInfo | UiWarning.

Inductive action : Type :=
  | SetPwmEnabled (value : Z)     (* fan.SetPwmEnabled(value) *)
  | SetPwm (pwm : Z)              (* setPwm(fan, pwm) *)
  | Ui (level : ui_level).        (* ui.Error, ui.Info, ui.Warning *)

Inductive proc : Type :=
  | Return
  | Call (a : action) (k : option error → proc).

Definition restore_max : proc :=
  Call (SetPwm MaxPwmValue) (λ err,
    match err with
    | Some _ => Call (Ui UiWarning) (λ _, Return)
    | None => Return
    end).

(** [func(err error) { ... }] of the fan controller actor *)
Definition restore (fan : HwMonFan) (err : option error) : proc :=
  let rest :=
    Call (Ui UiInfo) (λ _,
      if negb (OriginalPwmEnabled fan =? 1) then
        Call (SetPwmEnabled (OriginalPwmEnabled fan)) (λ err,
          match err with
          | None => Return
          | Some _ => restore_max
          end)
      else restore_max) in
  match err with
  | Some _ => Call (Ui UiError) (λ _, rest)
  | None => rest
  end.

(** The calls a procedure makes, in order, when the device answers each
    call with the error [answer] gives ([None] is the nil error). *)
Fixpoint calls (answer : action → option error) (p : proc) : list action :=
  match p with
  | Return => []
  | Call a k => a :: calls answer (k (answer a))
  end.

Definition is_device_call (a : action) : bool :=
  match a with
  | Ui _ => false
  | _ => true
  end.

(** The writes to the fan among the calls. *)
Definition device_calls (answer : action → option error) (p : proc) : list action :=
  filter (λ a, is_device_call a = true) (calls answer p).

(** *** Interrupting the task group

    [run.Group] is github.com/oklog/run, outside the sources.  [g.Run()]
    starts every actor, waits for the first of them to return, and then
    calls the interrupt function of every actor, in the order of the
    [g.Add] calls, each with the error that first actor returned.  The
    functions below are the interrupt functions [Run] registers; the fan of
    a fan controller is the object behind the pointer its closure holds,
    read when the function is called.  [answer a] gives the errors the
    device of the fan at address [a] returns. *)

Definition interrupt (answer : nat → action → option error) (g : Globals)
    (err : option error) (t : task) : result (list (nat * action)) :=
  match t with
  | SensorMonitorTask _ => Fatal "Error monitoring sensor: %v"
  | RpmMonitorTask _ => Ok []                     (* nothing to do here *)
  | FanControllerTask _ a =>
      match fan_store g !! a with
      | None => Panic NilDereference
      | Some fan => Ok (pair a <$> calls (answer a) (restore fan err))
      end
  | SignalTask => Ok []                           (* cancel(); close(sig) *)
  end.

(** [for _, a := range g.actors { a.interrupt(err) }]: the calls made on
    the fans, each with the address of its fan, up to the end of the loop
    or to the interrupt function that ends the process. *)
Fixpoint interrupt_all (answer : nat → action → option error) (g : Globals)
    (err : option error) (tasks : list task) : list (nat * action) * result unit :=
  match tasks with
  | [] => ([], Ok tt)
  | t :: tasks' =>
      match interrupt answer g err t with
      | Ok made =>
          let '(later, outcome) := interrupt_all answer g err tasks' in
          (made ++ later, outcome)
      | Panic p => ([], Panic p)
      | Fatal msg => ([], Fatal msg)
      end
  end.

End backend.

(** ** Go's strings package, for the calls of the sources *)

Module gostrings.

(** The white space [strings.TrimSpace] removes, in text without multi-byte
    characters (sysfs attributes and paths): tab, line feed, vertical tab,
    form feed, carriage return and space. *)
Definition is_space (c : ascii) : bool :=
  let n := Z.of_nat (nat_of_ascii c) in ((9 <=? n) && (n <=? 13)) || (n =? 32).

Fixpoint trim_left (s : string) : string :=
  match s with
  | EmptyString => EmptyString
  | String c s' => if is_space c then trim_left s' else s
  end.

Fixpoint trim_right (s : string) : string :=
  match s with
  | EmptyString => EmptyString
  | String c s' =>
      match trim_right s' with
      | EmptyString => if is_space c then EmptyString else String c EmptyString
      | rest => String c rest
      end
  end.

(** [strings.TrimSpace(s)] *)
Definition TrimSpace (s : string) : string := trim_right (trim_left s).

(** [strings.HasSuffix(s, suffix)]:
    [len(s) >= len(suffix) && s[len(s)-len(suffix):] == suffix] *)
Definition HasSuffix (s suffix : string) : bool :=
  let l := list_ascii_of_string s in
  let x := list_ascii_of_string suffix in
  bool_decide (length x ≤ length l)%nat
  && bool_decide (drop (length l - length x) l = x).

(** [strings.TrimSuffix(s, suffix)] *)
Definition TrimSuffix (s suffix : string) : string :=
  if HasSuffix s suffix then
    let l := list_ascii_of_string s in
    let x := list_ascii_of_string suffix in
    string_of_list_ascii (take (length l - length x) l)
  else s.

(** [strings.Contains(s, substr)] *)
Fixpoint Contains (s substr : string) : bool :=
  String.prefix substr s
  || match s with
     | EmptyString => false
     | String _ s' => Contains s' substr
     end.

End gostrings.

(** ** package util: the sysfs probe

    [ioutil.ReadFile] is the file system as the probe reads it: the bytes
    the call returns for a path, none when the file cannot be read; every
    caller drops the error.  [os.Stat] tells whether a path can be
    examined, and [FindFilesMatching] is declared outside the sources. *)

Module sysfs.

Section probe.

Variable ReadFile : string → string.
Variable Stat : string → bool.
Variable FindFilesMatching : string → string → list string.

(** [GetDeviceName(devicePath)] *)
Definition GetDeviceName (devicePath : string) : string :=
  let namePath := devicePath +:+ "/name" in
  let name := ReadFile namePath in
  let name :=
    if Z.of_nat (String.length name) <=? 0 then backend.Split_file devicePath
    else name in
  gostrings.TrimSpace name.

(** [GetLabel(devicePath, input)] *)
Definition GetLabel (devicePath input : string) : string :=
  let labelPath :=
    gostrings.TrimSuffix (devicePath +:+ "/" +:+ input) "input" +:+ "label" in
  let label := ReadFile labelPath in
  let label :=
    if Z.of_nat (String.length label) <=? 0 then backend.Split_file devicePath
    else label in
  gostrings.TrimSpace label.

(** [GetDeviceModalias(devicePath)] *)
Definition GetDeviceModalias (devicePath : string) : string :=
  gostrings.TrimSpace (ReadFile (devicePath +:+ "/device/modalias")).

(** [GetDeviceType(devicePath)] *)
Definition GetDeviceType (devicePath : string) : string :=
  gostrings.TrimSpace (ReadFile (devicePath +:+ "/device/type")).

(** [FindI2cDevicePaths()] *)
Definition FindI2cDevicePaths : list string :=
  let basePath := "/sys/bus/i2c/devices" in
  if Stat basePath then FindFilesMatching basePath ".+-.+" else [].

(** [FindHwmonDevicePaths()] *)
Definition FindHwmonDevicePaths : list string :=
  let basePath := "/sys/class/hwmon" in
  if Stat basePath then FindFilesMatching basePath "hwmon.*" else [].

End probe.

End sysfs.

(** ** package internal, first revision of backend.go: device discovery *)

Module discovery.

Import configuration fans backend.

(** [regexp.MustCompile("\\w+:\\w{2}:\\w{2}\\.\\d")] *)
Definition pciDeviceRegex : regexp.Regexp :=
  [regexp.Class regexp.word; regexp.Star regexp.word; regexp.Lit ":"%char;
   regexp.Class regexp.word; regexp.Class regexp.word; regexp.Lit ":"%char;
   regexp.Class regexp.word; regexp.Class regexp.word; regexp.Lit "."%char;
   regexp.Class regexp.digit].

Section identity.

(** [util.CreateShortPciIdentifier], declared outside the sources. *)
Variable CreateShortPciIdentifier : string → string.

(** [computeIdentifier(devicePath, deviceName)]; the named result [name]
    starts as the empty string. *)
Definition computeIdentifier (devicePath deviceName : string) : string :=
  let name := EmptyString in
  let name := if Z.of_nat (String.length name) <=? 0 then deviceName else name in
  let name :=
    if Z.of_nat (String.length name) <=? 0 then Split_file devicePath else name in
  if gostrings.Contains devicePath "/pci" then
    let matches := regexp.FindAllString pciDeviceRegex devicePath in
    match last matches with
    | Some lastMatch =>                    (* len(matches) > 0 *)
        let pciIdentifier := CreateShortPciIdentifier lastMatch in
        name +:+ "-" +:+ pciIdentifier     (* fmt.Sprintf("%s-%s", ...) *)
    | None => name
    end
  else name.

End identity.

Section sensors.

Variable FindFilesMatching : string → string → list string.
Variable GetLabel : string → string → string.

(** [for _, input := range inputs] *)
Fixpoint createSensors_loop (devicePath : string) (inputs : list string)
    (sensors : list HwmonSensor) : result (list HwmonSensor) :=
  match inputs with
  | [] => Ok sensors
  | input :: inputs' =>
      let file := Split_file input in
      let label := GetLabel devicePath file in
      match String.get 4 file with
      | None => Panic IndexOutOfRange               (* file[4] *)
      | Some digit =>
          match Atoi digit with
          | None => Fatal "%v"
          | Some index =>
              createSensors_loop devicePath inputs'
                (sensors ++ [{| Sensor_Name := file; Sensor_Label := label;
                                Sensor_Index := index; Sensor_Input := input;
                                Sensor_Config := None;
                                Sensor_MovingAvg := 0%float |}])
          end
      end
  end.

(** [createSensors(devicePath)] *)
Definition createSensors (devicePath : string) : result (list HwmonSensor) :=
  let inputs := FindFilesMatching devicePath "^temp[1-9]_input$" in
  createSensors_loop devicePath inputs [].

End sensors.

Section controllers.

Variable ReadFile : string → string.
Variable Stat : string → bool.
Variable FindFilesMatching : string → string → list string.
Variable GetPwmEnabled : HwMonFan → option Z.
Variable CreateShortPciIdentifier : string → string.

(** The objects behind the pointers a controller lists: each fan and sensor
    built for a device is a new object, stored at an address no other
    object has. *)
Definition store_fan (st : list nat * Globals) (fan : HwMonFan) : list nat * Globals :=
  let '(addresses, g) := st in
  let a := fresh (dom (fan_store g)) in
  (addresses ++ [a], with_fan a fan g).

Definition store_sensor (st : list nat * Globals) (sensor : HwmonSensor)
  : list nat * Globals :=
  let '(addresses, g) := st in
  let a := fresh (dom (sensor_store g)) in
  (addresses ++ [a], with_sensor a sensor g).

(** One round of [for _, devicePath := range allDevices]. *)
Definition FindControllers_device (devicePath : string)
    (st : list HwMonController * Globals) : result (list HwMonController * Globals) :=
  let '(controllers, g) := st in
  let deviceName := sysfs.GetDeviceName ReadFile devicePath in
  let identifier := computeIdentifier CreateShortPciIdentifier devicePath deviceName in
  let dType := sysfs.GetDeviceType ReadFile devicePath in
  let modalias := sysfs.GetDeviceModalias ReadFile devicePath in
  let platform := controller_platform devicePath identifier in
  fanList ← createFans FindFilesMatching (sysfs.GetLabel ReadFile) GetPwmEnabled devicePath;
  sensorList ← createSensors FindFilesMatching (sysfs.GetLabel ReadFile) devicePath;
  if (Z.of_nat (length fanList) <=? 0) && (Z.of_nat (length sensorList) <=? 0)
  then Ok (controllers, g)                            (* continue *)
  else
    let '(fanAddresses, g) := fold_left store_fan fanList ([], g) in
    let '(sensorAddresses, g) := fold_left store_sensor sensorList ([], g) in
    Ok (controllers ++
          [{| Controller_Name := identifier; DType := dType; Modalias := modalias;
              Platform := platform; Path := devicePath;
              Controller_Fans := fanAddresses;
              Controller_Sensors := sensorAddresses |}], g).

(** [FindControllers()]: the controllers, and the objects they list; the
    error it returns is always nil. *)
Definition FindControllers (g : Globals) : result (list HwMonController * Globals) :=
  let hwmonDevices := sysfs.FindHwmonDevicePaths Stat FindFilesMatching in
  let i2cDevices := sysfs.FindI2cDevicePaths Stat FindFilesMatching in
  let allDevices := hwmonDevices ++ i2cDevices in
  for_each FindControllers_device allDevices ([], g).

End controllers.

End discovery.

(** ** package internal, second revision of backend.go

    The revision moves fans, sensors and controllers to packages of their
    own.  Of its functions, [rpmMonitor] differs from the first revision in
    what a tick does; [findPlatform] is unchanged. *)

Module backend_rev2.

Import backend.

(** [rpmMonitor(ctx, fanId, tick)]: the tick branch holds a comment only
    ([// TODO: //measureRpm(fanId)]). *)
Fixpoint rpmMonitor (fanId : string) (events : list monitor_event) (g : Globals)
  : result Globals :=
  match events with
  | [] => Ok g
  | CtxDone :: _ => Ok g
  | Tick _ _ :: events' => rpmMonitor fanId events' g
  end.

Definition findPlatform (devicePath : string) : string :=
  regexp.FindString
    ([regexp.Star regexp.dot] ++ regexp.literal "/platform/{}/" ++ [regexp.Star regexp.dot])
    devicePath.

End backend_rev2.

(** ** package internal, second revision of backend.go: discovery and objects

    The second revision keeps the file lists of a device in its controller
    and builds fans and sensors from the configuration.  The controller
    struct of package [hwmon] and the configuration structs are declared
    outside the sources; the records below have the fields the source
    reads and writes.  [sensors.NewSensor], [sensor.GetValue],
    [sensor.SetMovingAvg], [curves.NewSpeedCurve] and [fans.NewFan] are
    declared outside the sources as well: a constructor gives an object or
    an error. *)

Module hwmon.

Record HwMonController : Type := {
  Name : string;
  DType : string;
  Modalias : string;
  Platform : string;
  Path : string;
  TempInputs : list string;
  PwmInputs : list string;
  FanInputs : list string
}.

End hwmon.

Module objects.

Import backend.

Section discovery.

Variable ReadFile : string → string.
Variable Stat : string → bool.
Variable FindFilesMatching : string → string → list string.
Variable CreateShortPciIdentifier : string → string.
Variables FanInputRegex PwmRegex TempInputRegex : string.

(** One round of [for _, devicePath := range allDevices];
    [computeIdentifier] has the text of the first revision. *)
Definition FindControllers_device (controllers : list hwmon.HwMonController)
    (devicePath : string) : list hwmon.HwMonController :=
  let deviceName := sysfs.GetDeviceName ReadFile devicePath in
  let identifier :=
    discovery.computeIdentifier CreateShortPciIdentifier devicePath deviceName in
  let dType := sysfs.GetDeviceType ReadFile devicePath in
  let modalias := sysfs.GetDeviceModalias ReadFile devicePath in
  let platform := backend_rev2.findPlatform devicePath in
  let platform :=
    if Z.of_nat (String.length platform) <=? 0 then identifier else platform in
  let fanInputs := FindFilesMatching devicePath FanInputRegex in
  let pwmInputs := FindFilesMatching devicePath PwmRegex in
  let tempInputs := FindFilesMatching devicePath TempInputRegex in
  if (Z.of_nat (length fanInputs) <=? 0) && (Z.of_nat (length pwmInputs) <=? 0)
     && (Z.of_nat (length tempInputs) <=? 0)
  then controllers                                      (* continue *)
  else
    controllers ++
      [{| hwmon.Name := identifier; hwmon.DType := dType;
          hwmon.Modalias := modalias; hwmon.Platform := platform;
          hwmon.Path := devicePath; hwmon.TempInputs := tempInputs;
          hwmon.PwmInputs := pwmInputs; hwmon.FanInputs := fanInputs |}].

(** [FindControllers()]; the error it returns is always nil. *)
Definition FindControllers : list hwmon.HwMonController :=
  let hwmonDevices := sysfs.FindHwmonDevicePaths Stat FindFilesMatching in
  let i2cDevices := sysfs.FindI2cDevicePaths Stat FindFilesMatching in
  let allDevices := hwmonDevices ++ i2cDevices in
  fold_left FindControllers_device allDevices [].

End discovery.

(** [config.HwMon], behind a pointer in the fan entry. *)
Record HwMonFanConfig : Type := {
  HwMon_Platform : string;
  HwMon_Index : Z;
  HwMon_PwmOutput : string;
  HwMon_RpmInput : string
}.

Record FanConfig : Type := {
  FanConfig_ID : string;
  FanConfig_HwMon : option HwMonFanConfig
}.

(** [s[i]] for an [int] index. *)
Definition slice_at {A : Type} (s : list A) (i : Z) : option A :=
  if i <? 0 then None else s !! Z.to_nat i.

(** [for _, c := range controllers { if c.Platform == config.HwMon.Platform
    { ...; break } }]: the hwmon part of the entry as the loop leaves it. *)
Fixpoint resolve (controllers : list hwmon.HwMonController) (hw : HwMonFanConfig)
  : result HwMonFanConfig :=
  match controllers with
  | [] => Ok hw
  | c :: controllers' =>
      if String.eqb (hwmon.Platform c) (HwMon_Platform hw) then
        match slice_at (hwmon.PwmInputs c) (HwMon_Index hw) with
        | None => Panic IndexOutOfRange           (* c.PwmInputs[config.HwMon.Index] *)
        | Some pwmOutput =>
            match slice_at (hwmon.FanInputs c) (HwMon_Index hw) with
            | None => Panic IndexOutOfRange       (* c.FanInputs[config.HwMon.Index] *)
            | Some rpmInput =>
                Ok {| HwMon_Platform := HwMon_Platform hw;
                      HwMon_Index := HwMon_Index hw;
                      HwMon_PwmOutput := pwmOutput;
                      HwMon_RpmInput := rpmInput |}        (* break *)
            end
        end
      else resolve controllers' hw
  end.

(** The tasks [Run] adds to its group.  The sensor monitor and the fan
    controller are built in the round that adds them, from the sensor and
    the fan of that round.  The RPM monitor is a closure over the loop
    variable [fanId], which it reads only when the group runs; which id it
    then sees depends on the Go version (one variable per round since
    Go 1.22, one for the whole loop before), and [rpmMonitor] of this
    revision does not use it: the task carries no id. *)
Inductive task (Sensor Fan : Type) : Type :=
  | SensorMonitorTask (sensor : Sensor)
  | RpmMonitorTask
  | FanControllerTask (fan : Fan)
  | SignalTask.

Arguments SensorMonitorTask {Sensor Fan} sensor.
Arguments RpmMonitorTask {Sensor Fan}.
Arguments FanControllerTask {Sensor Fan} fan.
Arguments SignalTask {Sensor Fan}.

Definition is_sensor_monitor {Sensor Fan : Type} (t : task Sensor Fan) : bool :=
  match t with
  | SensorMonitorTask _ => true
  | _ => false
  end.

Definition is_rpm_monitor {Sensor Fan : Type} (t : task Sensor Fan) : bool :=
  match t with
  | RpmMonitorTask => true
  | _ => false
  end.

Definition is_fan_controller {Sensor Fan : Type} (t : task Sensor Fan) : bool :=
  match t with
  | FanControllerTask _ => true
  | _ => false
  end.

Section initialization.

Variables SensorConfig CurveConfig Sensor SpeedCurve Fan : Type.
Variable SensorConfig_ID : SensorConfig → string.
Variable CurveConfig_ID : CurveConfig → string.
Variable NewSensor : SensorConfig → list hwmon.HwMonController → option Sensor.
Variable GetValue : Sensor → option float.
Variable SetMovingAvg : float → Sensor → Sensor.
Variable NewSpeedCurve : CurveConfig → option SpeedCurve.
Variable NewFan : FanConfig → option Fan.

(** [configuration.CurrentConfig], as far as [InitializeObjects] reads it. *)
Record Configuration : Type := {
  Sensors : list SensorConfig;
  Curves : list CurveConfig;
  Fans : list FanConfig
}.

(** [sensors.SensorMap], [curves.SpeedCurveMap] and [fans.FanMap] *)
Record Maps : Type := {
  SensorMap : gmap string Sensor;
  SpeedCurveMap : gmap string SpeedCurve;
  FanMap : gmap string Fan
}.

(** One round of [for _, config := range configuration.CurrentConfig.Sensors] *)
Definition init_sensor (controllers : list hwmon.HwMonController)
    (config : SensorConfig) (m : Maps) : result Maps :=
  match NewSensor config controllers with
  | None => Fatal "Unable to process curve configuration: %s"
  | Some sensor =>
      match GetValue sensor with
      | None => Fatal "Error reading sensor %s: %v"
      | Some currentValue =>
          Ok {| SensorMap :=
                  <[SensorConfig_ID config := SetMovingAvg currentValue sensor]>
                    (SensorMap m);
                SpeedCurveMap := SpeedCurveMap m; FanMap := FanMap m |}
      end
  end.

(** One round of [for _, config := range configuration.CurrentConfig.Curves] *)
Definition init_curve (config : CurveConfig) (m : Maps) : result Maps :=
  match NewSpeedCurve config with
  | None => Fatal "Unable to process curve configuration: %s"
  | Some curve =>
      Ok {| SensorMap := SensorMap m;
            SpeedCurveMap := <[CurveConfig_ID config := curve]> (SpeedCurveMap m);
            FanMap := FanMap m |}
  end.

(** The entry [fans.NewFan] is given: its hwmon part after the search
    through the controllers. *)
Definition resolved (controllers : list hwmon.HwMonController) (config : FanConfig)
  : result FanConfig :=
  match FanConfig_HwMon config with
  | None => Ok config
  | Some hw =>
      hw' ← resolve controllers hw;
      Ok {| FanConfig_ID := FanConfig_ID config; FanConfig_HwMon := Some hw' |}
  end.

(** One round of [for _, config := range configuration.CurrentConfig.Fans] *)
Definition init_fan (controllers : list hwmon.HwMonController)
    (config : FanConfig) (m : Maps) : result Maps :=
  config' ← resolved controllers config;
  match NewFan config' with
  | None => Fatal "Unable to process fan configuration: %s"
  | Some fan =>
      Ok {| SensorMap := SensorMap m; SpeedCurveMap := SpeedCurveMap m;
            FanMap := <[FanConfig_ID config' := fan]> (FanMap m) |}
  end.

(** [InitializeObjects()], with [controllers] what [FindControllers()]
    found. *)
Definition InitializeObjects (cfg : Configuration)
    (controllers : list hwmon.HwMonController) (m : Maps) : result Maps :=
  m ← for_each (init_sensor controllers) (Sensors cfg) m;
  m ← for_each init_curve (Curves cfg) m;
  for_each (init_fan controllers) (Fans cfg) m.

(** [Run()] up to [g.Run()].  Go fixes no order for the range over a map;
    the model takes the entries in the order of [map_to_list]. *)
Definition Run (owner : string) (cfg : Configuration)
    (controllers : list hwmon.HwMonController) (m : Maps)
  : result (Maps * list (task Sensor Fan)) :=
  if negb (bool_decide (owner = "root"))
  then Fatal "Fan control requires root permissions to be able to modify fan speeds, please run fan2go as root"
  else
    m ← InitializeObjects cfg controllers m;
    let sensorTasks := (λ entry, SensorMonitorTask entry.2) <$> map_to_list (SensorMap m) in
    let fanTasks :=
      map_to_list (FanMap m) ≫=
        λ '(fanId, fan), [RpmMonitorTask; FanControllerTask fan] in
    if Z.of_nat (size (FanMap m)) =? 0
    then Fatal "No valid fan configurations, exiting."
    else Ok (m, sensorTasks ++ fanTasks ++ [SignalTask]).

End initialization.

Arguments Sensors {SensorConfig CurveConfig} c.
Arguments Curves {SensorConfig CurveConfig} c.
Arguments Fans {SensorConfig CurveConfig} c.
Arguments SensorMap {Sensor SpeedCurve Fan} m.
Arguments SpeedCurveMap {Sensor SpeedCurve Fan} m.
Arguments FanMap {Sensor SpeedCurve Fan} m.
Arguments init_sensor {SensorConfig Sensor SpeedCurve Fan}.
Arguments init_curve {CurveConfig Sensor SpeedCurve Fan}.
Arguments init_fan {Sensor SpeedCurve Fan}.
Arguments InitializeObjects {SensorConfig CurveConfig Sensor SpeedCurve Fan}.
Arguments Run {SensorConfig CurveConfig Sensor SpeedCurve Fan}.

End objects.

(** ** package cmd: the fans and sensors of the [detect] command

    The command builds its own fan and sensor objects for the path of each
    controller.  The fan struct is the one of package [fans] in the second
    revision; the record below has the fields the source sets.  The
    constants [fans.MinPwmValue], [fans.MaxPwmValue],
    [fans.InitialLastSetPwm] and the patterns [hwmon.FanInputRegex],
    [hwmon.PwmRegex] and [hwmon.TempInputRegex] are declared outside the
    sources. *)

Module detect.

Import backend.

(** [regexp.MustCompile("\\d+")] *)
Definition numbersRegex : regexp.Regexp :=
  [regexp.Class regexp.digit; regexp.Star regexp.digit].

(** The value of a text of decimal digits, read from the left. *)
Fixpoint digits_value (acc : Z) (s : list ascii) : option Z :=
  match s with
  | [] => Some acc
  | c :: s' =>
      match Atoi c with
      | None => None
      | Some d => digits_value (10 * acc + d) s'
      end
  end.

(** [strconv.Atoi] on what [numbersRegex.FindString] returns, a run of
    decimal digits or the empty text: the value, or an error for the empty
    text and for a value beyond the 64 bits of [int]. *)
Definition Atoi_digits (s : string) : option Z :=
  match list_ascii_of_string s with
  | [] => None
  | l =>
      match digits_value 0 l with
      | Some n => if n <=? 9223372036854775807 then Some n else None
      | None => None
      end
  end.

(** One of the two loops that fill [rpmInputs] and [pwmOutputs]:
    [for _, path := range paths { ...; m[index] = path }], where a file name
    without a number is passed over ([continue]). *)
Definition index_path (m : gmap Z string) (path : string) : gmap Z string :=
  let fileName := Split_file path in
  match Atoi_digits (regexp.FindString numbersRegex fileName) with
  | None => m
  | Some index => <[index := path]> m
  end.

Definition index_paths (paths : list string) : gmap Z string :=
  fold_left index_path paths ∅.

Record HwMonFan : Type := {
  Label : string;
  Index : Z;
  PwmOutput : string;
  RpmInput : string;
  RpmMovingAvg : float;
  MinPwm : Z;
  MaxPwm : Z;
  FanCurveData : option (gmap Z rolling.PointPolicy);
  LastSetPwm : Z;
  OriginalPwmEnabled : Z
}.

Definition SetOriginalPwmEnabled (pwmEnabled : Z) (fan : HwMonFan) : HwMonFan :=
  {| Label := Label fan; Index := Index fan; PwmOutput := PwmOutput fan;
     RpmInput := RpmInput fan; RpmMovingAvg := RpmMovingAvg fan;
     MinPwm := MinPwm fan; MaxPwm := MaxPwm fan;
     FanCurveData := FanCurveData fan; LastSetPwm := LastSetPwm fan;
     OriginalPwmEnabled := pwmEnabled |}.

Section probe.

Variable FindFilesMatching : string → string → list string.
Variable GetLabel : string → string → string.
Variable GetPwmEnabled : HwMonFan → option Z.
Variables FanInputRegex PwmRegex : string.
Variables MinPwmValue MaxPwmValue InitialLastSetPwm : Z.

(** [for idx, output := range pwmOutputs]; [outputs] holds the entries of
    the map in the order the loop meets them. *)
Fixpoint createFans_loop (devicePath : string) (rpmInputs : gmap Z string)
    (outputs : list (Z * string)) (fanList : list HwMonFan)
  : result (list HwMonFan) :=
  match outputs with
  | [] => Ok fanList
  | (idx, output) :: outputs' =>
      let inputFile := Split_file output in
      let input := default EmptyString (rpmInputs !! idx) in  (* input, _ := rpmInputs[idx] *)
      let label := GetLabel devicePath inputFile in
      let fan :=
        {| Label := label; Index := idx; PwmOutput := output; RpmInput := input;
           RpmMovingAvg := 0%float;
           MinPwm := MinPwmValue; MaxPwm := MaxPwmValue;
           FanCurveData := Some ∅; LastSetPwm := InitialLastSetPwm;
           OriginalPwmEnabled := 0 |} in
      match GetPwmEnabled fan with
      | None => Fatal "Cannot read pwm_enable value of %s"
      | Some pwmEnabled =>
          createFans_loop devicePath rpmInputs outputs'
            (fanList ++ [SetOriginalPwmEnabled pwmEnabled fan])
      end
  end.

(** [createFans(devicePath)].  Go fixes no order for the range over a map;
    the model takes the entries in the order of [map_to_list]. *)
Definition createFans (devicePath : string) : result (list HwMonFan) :=
  let rpmInputs := index_paths (FindFilesMatching devicePath FanInputRegex) in
  let pwmOutputs := index_paths (FindFilesMatching devicePath PwmRegex) in
  createFans_loop devicePath rpmInputs (map_to_list pwmOutputs) [].

End probe.

End detect.

(** ** Notions for the properties

    The sentences of the specification as they are worded (§ numbers refer to
    it), next to the descriptions of what the code computes. *)

Module spec.

Import backend.

(** §4.2: "[platform(path)] is the result of matching
    [.*/platform/[^/]+/.*] against the path". *)
Definition platformRegex : regexp.Regexp :=
  [regexp.Star regexp.dot] ++ regexp.literal "/platform/"
    ++ [regexp.Class regexp.not_slash; regexp.Star regexp.not_slash]
    ++ regexp.literal "/" ++ [regexp.Star regexp.dot].

Definition platform (path : string) : string :=
  regexp.FindString platformRegex path.


(** A file name as the pattern [^pwm[1-9]$] admits it ends in a decimal
    digit. *)
Definition ends_in_digit (output : string) : Prop :=
  ∃ digit, last_byte (Split_file output) = Some digit ∧ is_Some (Atoi digit).

(** §4.3: a hwmon entry matches a fan of a controller when the platform of
    the controller and the index of the fan are those of the entry. *)
Definition fan_entry_matches (controller : HwMonController) (index : Z)
    (fanConfig : configuration.FanConfig) : Prop :=
  configuration.FanConfig_Type fanConfig = configuration.TypeHwMon ∧
  configuration.FanConfig_Params fanConfig
    = configuration.HwMonParams (Platform controller) index.

Definition sensor_entry_matches (controller : HwMonController) (index : Z)
    (sensorConfig : configuration.SensorConfig) : Prop :=
  configuration.SensorConfig_Type sensorConfig = configuration.TypeHwMon ∧
  configuration.SensorConfig_Params sensorConfig
    = configuration.HwMonParams (Platform controller) index.

(** The entry matches some discovered fan (sensor). *)
Definition fan_entry_bound (g : Globals) (controllers : list HwMonController)
    (fanConfig : configuration.FanConfig) : Prop :=
  ∃ controller a fan,
    controller ∈ controllers ∧ a ∈ Controller_Fans controller ∧
    fan_store g !! a = Some fan ∧
    fan_entry_matches controller (fans.Index fan) fanConfig.

Definition sensor_entry_bound (g : Globals) (controllers : list HwMonController)
    (sensorConfig : configuration.SensorConfig) : Prop :=
  ∃ controller a sensor,
    controller ∈ controllers ∧ a ∈ Controller_Sensors controller ∧
    sensor_store g !! a = Some sensor ∧
    sensor_entry_matches controller (Sensor_Index sensor) sensorConfig.

(** §4.3: "Fan and sensor configs that do not match any controller are a
    fatal configuration error." *)
Definition unmatched_entry_is_fatal (cfg : configuration.Configuration)
    (GetValue : HwmonSensor → option float)
    (controllers : list HwMonController) (g : Globals) : Prop :=
  (∃ fanConfig, fanConfig ∈ configuration.Fans cfg ∧
      configuration.FanConfig_Type fanConfig = configuration.TypeHwMon ∧
      ¬ fan_entry_bound g controllers fanConfig) ∨
  (∃ sensorConfig, sensorConfig ∈ configuration.Sensors cfg ∧
      configuration.SensorConfig_Type sensorConfig = configuration.TypeHwMon ∧
      ¬ sensor_entry_bound g controllers sensorConfig) →
  ∃ msg, Run cfg GetValue "root" controllers g = Fatal msg.

(** What the binder needs for a run without panics and without the fatal
    errors of malformed parameters and unreadable sensors: every address a
    controller lists holds an object, every hwmon entry has parameters that
    unmarshal, every sensor can be read, and no fan is configured yet. *)
Record binder_input (cfg : configuration.Configuration)
    (GetValue : HwmonSensor → option float)
    (controllers : list HwMonController) (g : Globals) : Prop := {
  fans_stored : ∀ controller a,
    controller ∈ controllers → a ∈ Controller_Fans controller →
    is_Some (fan_store g !! a);
  sensors_stored : ∀ controller a,
    controller ∈ controllers → a ∈ Controller_Sensors controller →
    is_Some (sensor_store g !! a);
  fan_params_unmarshal : ∀ fanConfig,
    fanConfig ∈ configuration.Fans cfg →
    configuration.FanConfig_Params fanConfig ≠ configuration.MalformedParams;
  sensor_params_unmarshal : ∀ sensorConfig,
    sensorConfig ∈ configuration.Sensors cfg →
    configuration.SensorConfig_Params sensorConfig ≠ configuration.MalformedParams;
  sensors_readable : ∀ sensor, is_Some (GetValue sensor);
  fans_unconfigured : ∀ a fan, fan_store g !! a = Some fan → fans.Config fan = None
}.

(** *** PWM boundaries *)

(** §4.8, as worded: "[max_pwm] ← the PWM in [K] with the greatest
    [avg(w)] (ties: smallest PWM)"; "[start_pwm] ← the smallest PWM in [K]
    with [avg(w) > 0].  If no such PWM exists, [start_pwm = 0]"; "If [K]
    is empty, [start_pwm = 0], [max_pwm = 255]".  The averages are the
    float64 window means. *)
Definition avg_positive (w : rolling.PointPolicy) : Prop :=
  (0 <? getWindowAvg w)%float = true.

Definition greatest_avg_key (m : gmap Z rolling.PointPolicy) (p : Z) : Prop :=
  ∃ w, m !! p = Some w ∧
    ∀ k w', m !! k = Some w' →
      (getWindowAvg w' <=? getWindowAvg w)%float = true ∧
      ((getWindowAvg w' =? getWindowAvg w)%float = true → p ≤ k).

Definition smallest_positive_key (m : gmap Z rolling.PointPolicy) (s : Z) : Prop :=
  ∃ w, m !! s = Some w ∧ avg_positive w ∧
    ∀ k w', m !! k = Some w' → avg_positive w' → s ≤ k.

Definition boundaries_as_worded (fan : fans.HwMonFan) : Prop :=
  ∀ m, fans.FanCurveData fan = Some m →
    ∃ startPwm maxPwm,
      GetPwmBoundaries fan = Ok (startPwm, maxPwm) ∧
      (m = ∅ → startPwm = 0 ∧ maxPwm = 255) ∧
      (m ≠ ∅ →
         greatest_avg_key m maxPwm ∧
         ((∃ k w, m !! k = Some w ∧ avg_positive w) → smallest_positive_key m startPwm) ∧
         ((∀ k w, m !! k = Some w → ¬ avg_positive w) → startPwm = 0)).

(** What the loop of [GetPwmBoundaries] derives, on the averages truncated
    to integers ([avgRpm]): [maxPwm] is the smallest key among those with
    the greatest truncated average when that average is positive, and stays
    255 otherwise; [startPwm] is the smallest key with a positive truncated
    average when that key is below 255, and stays 255 otherwise. *)
Definition derived_max_pwm (m : gmap Z rolling.PointPolicy) (p : Z) : Prop :=
  (∃ w, m !! p = Some w ∧ 0 < avgRpm w ∧
     ∀ k w', m !! k = Some w' →
       avgRpm w' ≤ avgRpm w ∧ (avgRpm w' = avgRpm w → p ≤ k))
  ∨ (p = 255 ∧ ∀ k w, m !! k = Some w → avgRpm w ≤ 0).

Definition derived_start_pwm (m : gmap Z rolling.PointPolicy) (s : Z) : Prop :=
  (s < 255 ∧ ∃ w, m !! s = Some w ∧ 0 < avgRpm w ∧
     ∀ k w', m !! k = Some w' → 0 < avgRpm w' → s ≤ k)
  ∨ (s = 255 ∧ ∀ k w, m !! k = Some w → 0 < avgRpm w → 255 ≤ k).

(** *** Curve data loading *)

(** The values the rounds [k], [k + 1], ... of the fill loop append, with
    [n] rounds to go: the given values while there are any, then the
    running average. *)
Fixpoint fill_values (n : nat) (k : Z) (currentAvg : float)
    (pointValues : list float) : list float :=
  match n with
  | O => []
  | S n' =>
      let rpm :=
        if k <? Z.of_nat (length pointValues)
        then default 0%float (pointValues !! Z.to_nat k)
        else currentAvg in
      let currentAvg :=
        if k =? 0 then rpm else ((currentAvg + rpm) / 2)%float in
      rpm :: fill_values n' (k + 1) currentAvg pointValues
  end.

(** The content of a window of [size] buckets filled from [pointValues]. *)
Definition window_values (size : Z) (pointValues : list float) : list float :=
  fill_values (Z.to_nat size) 0 0%float pointValues.

(** The running average of the fill loop after the given values: the first
    value, then, value by value, the mean of the average so far and the
    value. *)
Definition running_average (pointValues : list float) : float :=
  match pointValues with
  | [] => 0%float
  | value :: values => fold_left (λ avg rpm, ((avg + rpm) / 2)%float) values value
  end.

(** The [n] buckets that follow the given values: the running average,
    then, bucket by bucket, the mean of the average with itself (the same
    number, unless doubling it overflows). *)
Fixpoint padding (n : nat) (currentAvg : float) : list float :=
  match n with
  | O => []
  | S n' => currentAvg :: padding n' ((currentAvg + currentAvg) / 2)%float
  end.

(** The average the persisted data defines for PWM [j]: the key is there
    and its list is not empty. *)
Definition defined_avg (curveData : gmap Z (list float)) (j : Z) : option float :=
  match curveData !! j with
  | Some (v :: vs) => Some (util.Avg (v :: vs))
  | _ => None
  end.

(** The nearest defined PWM among [i - 1], [i - 2], ..., [i - n], and the
    nearest among [i + 1], ..., [i + n], each with its average. *)
Fixpoint nearest_lower (curveData : gmap Z (list float)) (i : Z) (n : nat)
  : option (Z * float) :=
  match n with
  | O => None
  | S n' =>
      match defined_avg curveData (i - 1) with
      | Some avg => Some (i - 1, avg)
      | None => nearest_lower curveData (i - 1) n'
      end
  end.

Fixpoint nearest_higher (curveData : gmap Z (list float)) (i : Z) (n : nat)
  : option (Z * float) :=
  match n with
  | O => None
  | S n' =>
      match defined_avg curveData (i + 1) with
      | Some avg => Some (i + 1, avg)
      | None => nearest_higher curveData (i + 1) n'
      end
  end.

Definition interpolate (i : Z) (low high : Z * float) : float :=
  (low.2 + util.Ratio (Float64.of_int i) (Float64.of_int low.1)
                      (Float64.of_int high.1) * (high.2 - low.2))%float.

(** §4.9, as worded: "missing PWMs are filled by linear interpolation on
    the averages of the nearest lower and higher defined PWMs.  Below the
    lowest defined PWM, the lowest average is repeated; above the highest,
    the highest average is repeated." *)
Definition worded_fill (curveData : gmap Z (list float)) (i : Z) : option float :=
  match nearest_lower curveData i (Z.to_nat i),
        nearest_higher curveData i (Z.to_nat (limit - i)) with
  | Some low, Some high => Some (interpolate i low high)
  | None, Some high => Some high.2
  | Some low, None => Some low.2
  | None, None => None
  end.

Definition fill_as_worded (cfg : configuration.Configuration)
    (curveData : gmap Z (list float)) (fan : fans.HwMonFan) : Prop :=
  ∀ fan' data',
    AttachFanCurveData cfg (Some curveData) fan = Ok (None, fan') →
    fans.FanCurveData fan' = Some data' →
    ∀ i, 0 ≤ i ≤ limit → defined_avg curveData i = None →
      ∃ w value, data' !! i = Some w ∧ worded_fill curveData i = Some value ∧
                 Forall (λ x, x = value) (rolling.window w).

(** The persisted keys from [i] up to the limit, in increasing order. *)
Definition keys_from (curveData : gmap Z (list float)) (i : Z) : list Z :=
  filter (λ j, is_Some (curveData !! j)) (seqZ i (limit - i + 1)).

(** The lower end of the interpolation in the code: the nearest lower PWM
    with a non-empty list, or RPM 0 at PWM 0 when there is none. *)
Definition lower_end (curveData : gmap Z (list float)) (i : Z) : Z * float :=
  default (0, 0%float) (nearest_lower curveData i (Z.to_nat i)).

(** The values round [i] of [AttachFanCurveData] fills the window of PWM
    [i] from. *)
Definition values_for (curveData : gmap Z (list float)) (i : Z) : list float :=
  match curveData !! i with
  | Some (v :: vs) => v :: vs
  | _ =>
      match last (keys_from curveData i) with
      | None => []
      | Some h =>
          if h =? i then []
          else [interpolate i (lower_end curveData i)
                  (h, util.Avg (default [] (curveData !! h)))]
      end
  end.

(** Dense data: a non-empty list for every PWM of [0..=255]. *)
Definition dense (curveData : gmap Z (list float)) : Prop :=
  ∀ i, 0 ≤ i ≤ limit → ∃ v vs, curveData !! i = Some (v :: vs).

(** §8, property 5, as worded: "filling already-dense data is a no-op",
    the windows hold exactly the given values. *)
Definition dense_fill_is_noop (cfg : configuration.Configuration)
    (curveData : gmap Z (list float)) (fan : fans.HwMonFan) : Prop :=
  dense curveData →
  ∃ fan' data',
    AttachFanCurveData cfg (Some curveData) fan = Ok (None, fan') ∧
    fans.FanCurveData fan' = Some data' ∧
    ∀ i values, 0 ≤ i ≤ limit → curveData !! i = Some values →
      ∃ w, data' !! i = Some w ∧ rolling.window w = values.

(** *** The PWM range of a fan *)

(** §3: [0 ≤ min_pwm ≤ start_pwm ≤ max_pwm ≤ 255]. *)
Definition pwm_ordered (fan : fans.HwMonFan) : Prop :=
  0 ≤ fans.MinPwm fan ∧ fans.MinPwm fan ≤ fans.StartPwm fan ∧
  fans.StartPwm fan ≤ fans.MaxPwm fan ∧ fans.MaxPwm fan ≤ 255.

(** Every key of the fan's curve data is a PWM value (§4.5:
    [read_pwm() -> 0..=255]). *)
Definition keys_in_range (fan : fans.HwMonFan) : Prop :=
  ∀ m k, fans.FanCurveData fan = Some m → is_Some (m !! k) → 0 ≤ k ≤ 255.

(** The calls of the sources that write to a fan: a sample of the RPM
    monitor, with the PWM and RPM it reads, and a load of persisted curve
    data into the fan stored at an address. *)
Inductive fan_op : Type :=
  | Sample (fanId : string) (pwm rpm : Z)
  | Load (a : nat) (curveData : option (gmap Z (list float))).

Definition run_op (cfg : configuration.Configuration)
    (updateSimpleMovingAvg : float → Z → float → float)
    (op : fan_op) (g : Globals) : result Globals :=
  match op with
  | Sample fanId pwm rpm => measureRpm cfg updateSimpleMovingAvg fanId pwm rpm g
  | Load a curveData =>
      match fan_store g !! a with
      | None => Panic NilDereference
      | Some fan =>
          '(_, fan') ← AttachFanCurveData cfg curveData fan;
          Ok (with_fan a fan' g)
      end
  end.

(** One such call that returns; a sample reads a PWM of [0..=255]. *)
Definition fan_step (cfg : configuration.Configuration)
    (updateSimpleMovingAvg : float → Z → float → float)
    (g g' : Globals) : Prop :=
  ∃ op, run_op cfg updateSimpleMovingAvg op g = Ok g' ∧
        match op with
        | Sample _ pwm _ => 0 ≤ pwm ≤ 255
        | Load _ _ => True
        end.

(** The fan stored at [a] has an ordered PWM range and PWM values as keys. *)
Definition in_range_at (a : nat) (g : Globals) : Prop :=
  ∃ fan, fan_store g !! a = Some fan ∧ pwm_ordered fan ∧ keys_in_range fan.

(** *** Notions for the binder's properties *)

(** The fan stored at [a] has a configuration. *)
Definition configured (g : Globals) (a : nat) : Prop :=
  is_Some (fan_store g !! a ≫= fans.Config).

(** Some fan entry of the configuration matches the fan stored at [a],
    seen as a fan of [controller]. *)
Definition matched (cfg : configuration.Configuration) (g : Globals)
    (controller : HwMonController) (a : nat) : Prop :=
  ∃ fan fanConfig, fan_store g !! a = Some fan ∧
                   fanConfig ∈ configuration.Fans cfg ∧
                   fan_entry_matches controller (fans.Index fan) fanConfig.

(** [g'] has the objects of [g], with the fans in [P] configured besides
    those that were. *)
Record bound_from (g : Globals) (P : nat → Prop) (g' : Globals) : Prop := {
  same_index : ∀ b,
    fans.Index <$> fan_store g' !! b = fans.Index <$> fan_store g !! b;
  same_sensors : ∀ b,
    is_Some (sensor_store g' !! b) ↔ is_Some (sensor_store g !! b);
  now_configured : ∀ b, configured g' b ↔ configured g b ∨ P b
}.

(** *** Notions for the further properties *)

(** The fan [createFans] builds for the pwm file [output], paired with the
    rpm file [rpmInput]; its [OriginalPwmEnabled] is set afterwards. *)
Definition created_from (label : string) (output rpmInput : string)
    (fan : fans.HwMonFan) : Prop :=
  fans.Name fan = Split_file output ∧ fans.Label fan = label ∧
  last_byte (Split_file output) ≫= Atoi = Some (fans.Index fan) ∧
  fans.PwmOutput fan = output ∧ fans.RpmInput fan = rpmInput ∧
  fans.RpmMovingAvg fan = 0%float ∧
  fans.MinPwm fan = MinPwmValue ∧ fans.StartPwm fan = 0 ∧
  fans.MaxPwm fan = MaxPwmValue ∧
  fans.FanCurveData fan = Some ∅ ∧ fans.LastSetPwm fan = InitialLastSetPwm ∧
  fans.Config fan = None.

(** A window as [createRollingWindow] and [Append] leave it: as many buckets
    as its size, and the offset on one of them. *)
Definition window_ready (w : rolling.PointPolicy) : Prop :=
  0 ≤ rolling.offset w < rolling.windowSize w ∧
  length (rolling.window w) = Z.to_nat (rolling.windowSize w).

(** The fan bound to [fanId] can be sampled: it is stored and configured,
    and its curve data holds ready windows only. *)
Definition sampling_ready (g : Globals) (fanId : string) : Prop :=
  ∃ a fan data,
    FanMap g !! fanId = Some a ∧ fan_store g !! a = Some fan ∧
    is_Some (fans.Config fan) ∧ fans.FanCurveData fan = Some data ∧
    ∀ k w, data !! k = Some w → window_ready w.

(** [FanMap] binds an id to a stored fan configured under that id, and every
    configured fan has its id bound. *)
Definition FanMap_consistent (g : Globals) : Prop :=
  (∀ id a, FanMap g !! id = Some a →
     ∃ fan fanConfig, fan_store g !! a = Some fan ∧
                      fans.Config fan = Some fanConfig ∧
                      configuration.FanConfig_Id fanConfig = id) ∧
  (∀ a fan fanConfig, fan_store g !! a = Some fan →
     fans.Config fan = Some fanConfig →
     is_Some (FanMap g !! configuration.FanConfig_Id fanConfig)).

(** *** Notions for the sysfs probe *)

(** A file name as the pattern [^temp[1-9]_input$] admits it has a decimal
    digit as its fifth byte. *)
Definition fifth_byte_digit (input : string) : Prop :=
  ∃ digit, String.get 4 (Split_file input) = Some digit ∧ is_Some (Atoi digit).

(** The text neither starts nor ends with white space. *)
Definition no_outer_space (s : string) : Prop :=
  match s with
  | EmptyString => True
  | String c _ => gostrings.is_space c = false
  end ∧
  match last_byte s with
  | None => True
  | Some c => gostrings.is_space c = false
  end.

(** Every byte of the text is white space. *)
Fixpoint blank (s : string) : Prop :=
  match s with
  | EmptyString => True
  | String c s' => gostrings.is_space c = true ∧ blank s'
  end.

(** [s], or [fallback] when [s] is empty: [if len(s) <= 0 { s = fallback }]. *)
Definition or_else (s fallback : string) : string :=
  match s with
  | EmptyString => fallback
  | _ => s
  end.

(** *** Notions for the device discovery *)

(** What [FindControllers] leaves behind, started with the objects [g0]:
    the [controllers] list objects that are new, pairwise distinct and
    stored in [g]; the fans are as [createFans] builds them, without a
    configuration; the objects of [g0] are untouched, nothing else was
    stored, and the two maps are as they were. *)
Record discovered (g0 : Globals) (controllers : list HwMonController)
    (g : Globals) : Prop := {
  lists_an_object : ∀ controller, controller ∈ controllers →
    Controller_Fans controller ≠ [] ∨ Controller_Sensors controller ≠ [];
  fans_distinct : NoDup (controllers ≫= Controller_Fans);
  sensors_distinct : NoDup (controllers ≫= Controller_Sensors);
  fans_new : ∀ a, a ∈ controllers ≫= Controller_Fans →
    fan_store g0 !! a = None ∧
    ∃ fan, fan_store g !! a = Some fan ∧ fans.Config fan = None ∧
           pwm_ordered fan ∧ keys_in_range fan;
  sensors_new : ∀ a, a ∈ controllers ≫= Controller_Sensors →
    sensor_store g0 !! a = None ∧
    ∃ sensor, sensor_store g !! a = Some sensor ∧ Sensor_Config sensor = None;
  fans_kept : ∀ a, is_Some (fan_store g0 !! a) →
    fan_store g !! a = fan_store g0 !! a;
  sensors_kept : ∀ a, is_Some (sensor_store g0 !! a) →
    sensor_store g !! a = sensor_store g0 !! a;
  fans_listed : ∀ a, fan_store g0 !! a = None → is_Some (fan_store g !! a) →
    a ∈ controllers ≫= Controller_Fans;
  sensors_listed : ∀ a, sensor_store g0 !! a = None → is_Some (sensor_store g !! a) →
    a ∈ controllers ≫= Controller_Sensors;
  FanMap_kept : FanMap g = FanMap g0;
  SensorMap_kept : SensorMap g = SensorMap g0
}.

(** *** Notions for the detect command *)

(** The number the detect command reads off a path: the first run of
    decimal digits of its file name. *)
Definition number_of (path : string) : option Z :=
  detect.Atoi_digits (regexp.FindString detect.numbersRegex (Split_file path)).

(** The last of [paths] that carries the number [idx]. *)
Definition last_numbered (paths : list string) (idx : Z) : option string :=
  last (filter (λ path, number_of path = Some idx) paths).

(** *** Notions for the interrupts of the task group *)

(** The calls the restorations of the fans in [entries] make, one
    restoration after the other, each call with the address of its fan. *)
Definition restorations (answer : nat → action → option error) (g : Globals)
    (err : option error) (entries : list (string * nat)) : list (nat * action) :=
  entries ≫= λ '(_, a),
    match fan_store g !! a with
    | Some fan => pair a <$> calls (answer a) (restore fan err)
    | None => []
    end.

(** During the binding: [FanMap] binds ids to fans configured under them,
    and the configured fans are among the addresses processed, each with its
    id bound. *)
Definition binding_inv (processed : list nat) (g : Globals) : Prop :=
  (∀ id a, FanMap g !! id = Some a →
     ∃ fan fc, fan_store g !! a = Some fan ∧ fans.Config fan = Some fc ∧
               configuration.FanConfig_Id fc = id) ∧
  (∀ a fan fc, fan_store g !! a = Some fan → fans.Config fan = Some fc →
     a ∈ processed ∧ is_Some (FanMap g !! configuration.FanConfig_Id fc)).

End spec.

(** ** Sample devices and configurations *)

Module samples.

Import configuration fans backend.

Definition config_of (id platform : string) (index : Z) : FanConfig :=
  {| FanConfig_Id := id; FanConfig_Type := TypeHwMon;
     FanConfig_Params := HwMonParams platform index |}.

(** A fan as [createFans] builds it for [<device>/pwm<index>], with the
    [pwm_enable] value read at startup. *)
Definition fresh_fan (device : string) (index : Z) (digit : string)
    (pwmEnabled : Z) : HwMonFan :=
  {| Name := "pwm" +:+ digit; Label := "pwm" +:+ digit; Index := index;
     PwmOutput := device +:+ "/pwm" +:+ digit;
     RpmInput := device +:+ "/fan" +:+ digit +:+ "_input";
     RpmMovingAvg := 0%float;
     MinPwm := MinPwmValue; StartPwm := 0; MaxPwm := MaxPwmValue;
     FanCurveData := Some ∅; LastSetPwm := InitialLastSetPwm;
     OriginalPwmEnabled := pwmEnabled; Config := None |}.

Definition hwmon1 : string := "/sys/class/hwmon/hwmon1".

(** A configured fan whose [pwm_enable] was 2 (automatic) at startup. *)
Definition auto_fan : HwMonFan :=
  SetConfig (config_of "cpu_fan" "nct6798" 1) (fresh_fan hwmon1 1 "1" 2).


(** A fan whose curve data pointer is nil. *)
Definition fan_without_data : HwMonFan :=
  {| Name := "pwm1"; Label := "pwm1"; Index := 1;
     PwmOutput := "/sys/class/hwmon/hwmon1/pwm1";
     RpmInput := "/sys/class/hwmon/hwmon1/fan1_input";
     RpmMovingAvg := 0%float;
     MinPwm := MinPwmValue; StartPwm := 0; MaxPwm := MaxPwmValue;
     FanCurveData := None; LastSetPwm := InitialLastSetPwm;
     OriginalPwmEnabled := 2; Config := None |}.

Definition config_with_window (size : Z) : Configuration :=
  {| RpmRollingWindowSize := size; Fans := []; Sensors := [] |}.

(** One configured fan, stored at address 0 and bound to its id. *)
Definition one_fan : Globals :=
  {| fan_store := {[ 0%nat := auto_fan ]}; sensor_store := ∅;
     FanMap := {[ "cpu_fan" := 0%nat ]}; SensorMap := ∅ |}.

(** A device that accepts every write. *)
Definition obedient (a : action) : option error := None.

(** A device that refuses every write of [pwm_enable]. *)
Definition stubborn (a : action) : option error :=
  match a with
  | SetPwmEnabled _ => Some (ErrOther "write refused")
  | _ => None
  end.

(** A board with one controller (platform [nct6798]) that has one fan
    (index 1, address 0) and no sensor; the configuration lists that fan,
    a fan on a platform that does not exist, and a sensor that matches
    nothing. *)
Definition board : list HwMonController :=
  [ {| Controller_Name := "nct6798"; DType := ""; Modalias := "";
       Platform := "nct6798"; Path := hwmon1;
       Controller_Fans := [0%nat]; Controller_Sensors := [] |} ].

Definition board_objects : Globals :=
  {| fan_store := {[ 0%nat := fresh_fan hwmon1 1 "1" 2 ]}; sensor_store := ∅;
     FanMap := ∅; SensorMap := ∅ |}.

Definition ghost_fan : FanConfig := config_of "gpu_fan" "amdgpu" 1.

Definition ghost_sensor : SensorConfig :=
  {| SensorConfig_Id := "gpu_temp"; SensorConfig_Type := TypeHwMon;
     SensorConfig_Params := HwMonParams "amdgpu" 1 |}.

Definition board_config : Configuration :=
  {| RpmRollingWindowSize := 10;
     Fans := [config_of "cpu_fan" "nct6798" 1; ghost_fan];
     Sensors := [ghost_sensor] |}.

Definition readable (s : HwmonSensor) : option float := Some 40000%float.

(** A window of one bucket holding [v]. *)
Definition window_of (v : float) : rolling.PointPolicy :=
  {| rolling.windowSize := 1; rolling.window := [v]; rolling.offset := 0 |}.

(** A fan that was sampled once, standing still at PWM 0. *)
Definition stopped_fan : HwMonFan :=
  with_curve_data {[ 0 := window_of 0%float ]} auto_fan.

(** A fan with samples at three PWMs: still at 0, 900 RPM at 60 and at 200. *)
Definition sampled_fan : HwMonFan :=
  with_curve_data
    {[ 0 := window_of 0%float;
       60 := window_of (Float64.of_int 900);
       200 := window_of (Float64.of_int 900) ]} auto_fan.

(** Persisted data with the two samples 1000 and 1200 RPM for every PWM. *)
Definition dense_data : gmap Z (list float) :=
  list_to_map ((λ i, (i, [Float64.of_int 1000; Float64.of_int 1200])) <$> seqZ 0 256).

(** Persisted data from a characterization that kept PWM 10 only, with
    100 RPM, and data with the three PWMs 10, 20 and 40. *)
Definition sparse_data : gmap Z (list float) := {[ 10 := [Float64.of_int 100] ]}.

Definition three_points : gmap Z (list float) :=
  {[ 10 := [Float64.of_int 100]; 20 := [Float64.of_int 300];
     40 := [Float64.of_int 1000] ]}.

(** A sysfs tree with two hwmon devices: [hwmon0] has no fan and no
    sensor, [hwmon1] is a chip named [nct6798] with one fan and one
    labelled temperature sensor. *)
Definition line_feed : string := String "010"%char EmptyString.

Definition sysfs_files (path : string) : string :=
  if String.eqb path "/sys/class/hwmon/hwmon1/name" then "nct6798" +:+ line_feed
  else if String.eqb path "/sys/class/hwmon/hwmon1/temp1_label"
       then "SYSTIN" +:+ line_feed
       else EmptyString.

Definition sysfs_dirs (dir pattern : string) : list string :=
  if String.eqb dir "/sys/class/hwmon"
  then ["/sys/class/hwmon/hwmon0"; "/sys/class/hwmon/hwmon1"]
  else if String.eqb dir "/sys/class/hwmon/hwmon1"
       then if String.eqb pattern "^pwm[1-9]$"
            then ["/sys/class/hwmon/hwmon1/pwm1"]
            else if String.eqb pattern "^fan[1-9]_input$"
                 then ["/sys/class/hwmon/hwmon1/fan1_input"]
                 else ["/sys/class/hwmon/hwmon1/temp1_input"]
       else [].

Definition sysfs_stat (path : string) : bool := String.eqb path "/sys/class/hwmon".

Definition no_objects : Globals :=
  {| fan_store := ∅; sensor_store := ∅; FanMap := ∅; SensorMap := ∅ |}.

(** The chip of [hwmon1] as the second revision finds it, a fan entry for
    it with a given hwmon index, and a configuration of one fan entry. *)
Definition chip : hwmon.HwMonController :=
  {| hwmon.Name := "nct6798"; hwmon.DType := EmptyString;
     hwmon.Modalias := EmptyString; hwmon.Platform := "nct6798";
     hwmon.Path := hwmon1;
     hwmon.TempInputs := ["/sys/class/hwmon/hwmon1/temp1_input"];
     hwmon.PwmInputs := ["/sys/class/hwmon/hwmon1/pwm1"];
     hwmon.FanInputs := ["/sys/class/hwmon/hwmon1/fan1_input"] |}.

Definition fan_entry (platform : string) (index : Z) : objects.FanConfig :=
  {| objects.FanConfig_ID := "cpu_fan";
     objects.FanConfig_HwMon :=
       Some {| objects.HwMon_Platform := platform; objects.HwMon_Index := index;
               objects.HwMon_PwmOutput := EmptyString;
               objects.HwMon_RpmInput := EmptyString |} |}.

Definition one_entry (entry : objects.FanConfig)
  : objects.Configuration string string :=
  {| objects.Sensors := []; objects.Curves := []; objects.Fans := [entry] |}.

Definition no_maps : objects.Maps string string objects.FanConfig :=
  {| objects.SensorMap := ∅; objects.SpeedCurveMap := ∅; objects.FanMap := ∅ |}.

(** A graphics card with one temperature sensor (index 1, address 0), which
    the sensor entry [ghost_sensor] matches. *)
Definition gpu_sensor : HwmonSensor :=
  {| Sensor_Name := "temp1_input"; Sensor_Label := "edge"; Sensor_Index := 1;
     Sensor_Input := "/sys/class/hwmon/hwmon2/temp1_input";
     Sensor_Config := None; Sensor_MovingAvg := 0%float |}.

Definition gpu : HwMonController :=
  {| Controller_Name := "amdgpu"; DType := ""; Modalias := "";
     Platform := "amdgpu"; Path := "/sys/class/hwmon/hwmon2";
     Controller_Fans := []; Controller_Sensors := [0%nat] |}.

Definition gpu_objects : Globals :=
  {| fan_store := ∅; sensor_store := {[ 0%nat := gpu_sensor ]};
     FanMap := ∅; SensorMap := ∅ |}.

(** A sensor read that succeeds only for a sensor that has a
    configuration. *)
Definition readable_once_configured (s : HwmonSensor) : option float :=
  match Sensor_Config s with
  | Some _ => Some 40000%float
  | None => None
  end.

(** Two fan entries under one id: the first names a platform no controller
    has, the second the chip. *)
Definition twin_entries : objects.Configuration string string :=
  {| objects.Sensors := []; objects.Curves := [];
     objects.Fans := [fan_entry "it8620" 0; fan_entry "nct6798" 0] |}.

(** The board and the graphics card together: one fan and one sensor, both
    matched by an entry of [board_config]. *)
Definition board_with_gpu : list HwMonController := board ++ [gpu].

Definition board_with_gpu_objects : Globals :=
  {| fan_store := {[ 0%nat := fresh_fan hwmon1 1 "1" 2 ]};
     sensor_store := {[ 0%nat := gpu_sensor ]};
     FanMap := ∅; SensorMap := ∅ |}.

End samples.

(** * Properties *)

Import configuration fans backend.

(** ** Restoring a fan when its controller ends *)



(** A fan that was in automatic mode and refuses the write of [pwm_enable]
    is set to full speed. *)
Example restore_stubborn_fan :
  device_calls samples.stubborn (restore samples.auto_fan (Some (ErrOther "fan stuck")))
    = [SetPwmEnabled 2; SetPwm 255].
Proof. reflexivity. Qed.


(** ** GetPwmBoundaries on a nil curve-data pointer *)

(** C9: the length of [*pwmRpmMap] is taken before the guard tests the
    pointer, so for a fan whose curve-data pointer is nil the call panics
    with a nil dereference; it does not return the [startPwm = 0] of the
    empty-data branch. *)
Theorem GetPwmBoundaries_nil_panics (fan : HwMonFan) :
  FanCurveData fan = None →
  GetPwmBoundaries fan = Panic NilDereference ∧
  ∀ maxPwm, GetPwmBoundaries fan ≠ Ok (0, maxPwm).
Proof.
  intros Hnil. unfold GetPwmBoundaries. rewrite Hnil. split; [reflexivity | discriminate].
Qed.

Lemma GetPwmBoundaries_nil_panics_witness :
  FanCurveData samples.fan_without_data = None ∧
  GetPwmBoundaries samples.fan_without_data = Panic NilDereference.
Proof.
  split; [reflexivity |].
  apply (GetPwmBoundaries_nil_panics samples.fan_without_data). reflexivity.
Defined.

(** ** findPlatform *)

Section platform_regex.

Lemma match_literal_head (c : ascii) (lit : string) (re : regexp.Regexp)
    (s m : list ascii) :
  regexp.match_here (regexp.literal (String c lit) ++ re) s = Some m →
  ∃ s' m', s = c :: s' ∧ m = c :: m'
           ∧ regexp.match_here (regexp.literal lit ++ re) s' = Some m'.
Proof.
  unfold regexp.literal. simpl. destruct s as [|c' s']; [discriminate |].
  destruct (Ascii.eqb_spec c c') as [->|]; [| discriminate].
  destruct (regexp.match_here _ s') as [m'|] eqn:Hm; [| discriminate].
  intros [= <-]. eauto.
Qed.

(** A match of the literal part of the compiled pattern consumes [{]. *)
Lemma match_platform_literal (re : regexp.Regexp) (s m : list ascii) :
  regexp.match_here (regexp.literal "/platform/{}/" ++ re) s = Some m →
  backend.brace ∈ s.
Proof.
  intros H.
  repeat match type of H with
    | regexp.match_here (regexp.literal (String _ _) ++ _) _ = Some _ =>
        apply match_literal_head in H as (? & ? & -> & -> & H)
    end.
  do 10 apply list_elem_of_further. apply list_elem_of_here.
Qed.

Lemma match_platformRegex (s m : list ascii) :
  regexp.match_here platformRegex s = Some m → backend.brace ∈ s.
Proof.
  unfold platformRegex.
  change ([regexp.Star regexp.dot] ++ ?r) with (regexp.Star regexp.dot :: r).
  revert m. induction s as [|c s IH]; intros m.
  - cbn [regexp.match_here]. apply match_platform_literal.
  - cbn [regexp.match_here].
    destruct (regexp.dot c).
    + lazymatch goal with
      | |- match ?star with _ => _ end = _ → _ => destruct star as [m'|] eqn:Hstar
      end.
      * intros _. apply list_elem_of_further. eapply IH. exact Hstar.
      * apply match_platform_literal.
    + apply match_platform_literal.
Qed.

Lemma find_platformRegex (s m : list ascii) :
  regexp.find platformRegex s = Some m → backend.brace ∈ s.
Proof.
  induction s as [|c s IH]; cbn [regexp.find].
  - destruct (regexp.match_here platformRegex []) eqn:Hm; [| discriminate].
    intros _. eapply match_platformRegex, Hm.
  - destruct (regexp.match_here platformRegex (c :: s)) eqn:Hm.
    + intros _. eapply match_platformRegex, Hm.
    + intros H. apply list_elem_of_further. auto.
Qed.

(** Whatever platform directory a path goes through, the compiled pattern
    finds nothing in it unless the path holds a brace. *)
Lemma findPlatform_without_brace (devicePath : string) :
  backend.brace ∉ list_ascii_of_string devicePath → findPlatform devicePath = "".
Proof.
  intros Hno. unfold findPlatform, regexp.FindString.
  destruct (regexp.find platformRegex _) as [m|] eqn:Hfind; [| reflexivity].
  exfalso. apply Hno. eapply find_platformRegex, Hfind.
Qed.

End platform_regex.

(** C5: for the path of a platform device the pattern of the specification
    matches, and the platform would be the non-empty match; the pattern
    compiled in [findPlatform] (with [{}] where the specification has
    [[^/]+]) finds nothing, in both revisions, so [FindControllers] gives the
    controller its identifier as platform. *)
Theorem findPlatform_misses_platform_device :
  let devicePath := "/sys/devices/platform/coretemp.0/hwmon/hwmon1" in
  spec.platform devicePath = devicePath ∧
  findPlatform devicePath = "" ∧
  backend_rev2.findPlatform devicePath = "" ∧
  ∀ identifier, controller_platform devicePath identifier = identifier.
Proof.
  cbv zeta. split; [| split; [| split]].
  - vm_compute. reflexivity.
  - vm_compute. reflexivity.
  - vm_compute. reflexivity.
  - intros identifier. unfold controller_platform.
    replace (findPlatform _) with "" by (vm_compute; reflexivity).
    reflexivity.
Qed.

(** ** RPM sampling *)

Section sampling_facts.

Variable cfg : Configuration.
Variable updateSimpleMovingAvg : float → Z → float → float.

(** What a successful [measureRpm] has done: the fan behind [fanId] has its
    moving average updated with the RPM read, and the window under the PWM
    read (created if the key was new) has the RPM written at its offset. *)
Lemma measureRpm_appends (fanId : string) (pwm rpm : Z) (g g' : Globals) :
  measureRpm cfg updateSimpleMovingAvg fanId pwm rpm g = Ok g' →
  ∃ a fan data w fan' data' w',
    FanMap g !! fanId = Some a ∧ fan_store g !! a = Some fan ∧
    FanCurveData fan = Some data ∧
    (data !! pwm = Some w ∨
     data !! pwm = None ∧ createRollingWindow (RpmRollingWindowSize cfg) = Ok w) ∧
    fan_store g' !! a = Some fan' ∧ FanCurveData fan' = Some data' ∧
    data' !! pwm = Some w' ∧
    rolling.window w' = <[Z.to_nat (rolling.offset w) := Float64.of_int rpm]> (rolling.window w) ∧
    (∀ k, k ≠ pwm → data' !! k = data !! k) ∧
    RpmMovingAvg fan' =
      updateSimpleMovingAvg (RpmMovingAvg fan) (RpmRollingWindowSize cfg)
                            (Float64.of_int rpm) ∧
    MinPwm fan' = MinPwm fan ∧ StartPwm fan' = StartPwm fan ∧ MaxPwm fan' = MaxPwm fan ∧
    ∀ b, b ≠ a → fan_store g' !! b = fan_store g !! b.
Proof.
  unfold measureRpm.
  destruct (FanMap g !! fanId) as [a|] eqn:Hid; [| discriminate]. cbn [mbind option_bind].
  destruct (fan_store g !! a) as [fan|] eqn:Hfan; [| discriminate]. cbn [fmap option_fmap option_map].
  destruct (Config fan); [| discriminate].
  cbn [FanCurveData SetRpmAvg].
  destruct (FanCurveData fan) as [data|] eqn:Hdata; [| discriminate].
  assert (Hshape : (∃ data0 w,
    (∀ k, k ≠ pwm → data0 !! k = data !! k) ∧
    (data !! pwm = Some w ∨
     data !! pwm = None ∧ createRollingWindow (RpmRollingWindowSize cfg) = Ok w) ∧
    match data !! pwm with
    | Some pointWindow => Ok (data, pointWindow)
    | None =>
        pointWindow ← createRollingWindow (RpmRollingWindowSize cfg);
        Ok (<[pwm := pointWindow]> data, pointWindow)
    end = Ok (data0, w))
    ∨ ∀ k : gmap Z rolling.PointPolicy * rolling.PointPolicy → result Globals,
        (match data !! pwm with
         | Some pointWindow => Ok (data, pointWindow)
         | None =>
             pointWindow ← createRollingWindow (RpmRollingWindowSize cfg);
             Ok (<[pwm := pointWindow]> data, pointWindow)
         end ≫= k) ≠ Ok g').
  { destruct (data !! pwm) as [w|] eqn:Hw.
    - left. exists data, w. auto.
    - destruct (createRollingWindow (RpmRollingWindowSize cfg)) as [w| |] eqn:Hnew.
      + left. exists (<[pwm := w]> data), w. cbn. split; [| auto].
        intros k Hk. by rewrite lookup_insert_ne.
      + right. intros k. cbn. discriminate.
      + right. intros k. cbn. discriminate. }
  destruct Hshape as [(data0 & w & Hother & Hw & ->) | Hno];
    [| intros H; exfalso; exact (Hno _ H)].
  cbn [mbind result_bind]. unfold rolling.Append.
  case_bool_decide; cbn [mbind result_bind]; [| discriminate].
  intros [= <-].
  eexists a, fan, data, w, _, _, _.
  do 4 (split; [first [reflexivity | assumption] |]).
  split; [cbn; apply lookup_insert_eq |].
  split; [cbn; reflexivity |].
  split; [apply lookup_insert_eq |].
  split; [reflexivity |].
  split; [intros k Hk; rewrite lookup_insert_ne by done; auto |].
  do 4 (split; [reflexivity |]).
  intros b Hb. cbn. by rewrite lookup_insert_ne.
Qed.

(** The first revision's monitor samples on every tick it receives. *)
Lemma rpmMonitor_tick (fanId : string) (pwm rpm : Z) (events : list monitor_event)
    (g : Globals) :
  backend.rpmMonitor cfg updateSimpleMovingAvg fanId (Tick pwm rpm :: events) g =
    g' ← measureRpm cfg updateSimpleMovingAvg fanId pwm rpm g;
    backend.rpmMonitor cfg updateSimpleMovingAvg fanId events g'.
Proof. reflexivity. Qed.

End sampling_facts.

(** The second revision's monitor leaves every object as it found it,
    whatever ticks it receives. *)
Lemma rpmMonitor_rev2_idle (fanId : string) (events : list monitor_event) (g : Globals) :
  backend_rev2.rpmMonitor fanId events g = Ok g.
Proof.
  induction events as [|[|pwm rpm] events IH]; simpl; auto.
Qed.

(** C6: on a tick with PWM 100 and 1200 RPM for a configured fan, the
    monitor of the first revision writes 1200 into the window under key 100
    and updates the moving average, as the claim says; the monitor of the
    second revision, whose call of [measureRpm] is commented out, leaves the
    fan without any sample. *)
Theorem rpmMonitor_rev2_drops_sample (updateSimpleMovingAvg : float → Z → float → float) :
  let cfg := samples.config_with_window 2 in
  let events := [Tick 100 1200] in
  (∃ g' fan data w,
     backend.rpmMonitor cfg updateSimpleMovingAvg "cpu_fan" events samples.one_fan = Ok g' ∧
     fan_store g' !! 0%nat = Some fan ∧
     RpmMovingAvg fan = updateSimpleMovingAvg 0%float 2 (Float64.of_int 1200) ∧
     FanCurveData fan = Some data ∧ data !! 100 = Some w ∧
     rolling.window w = [Float64.of_int 1200; 0%float]) ∧
  (∃ fan,
     backend_rev2.rpmMonitor "cpu_fan" events samples.one_fan = Ok samples.one_fan ∧
     fan_store samples.one_fan !! 0%nat = Some fan ∧
     RpmMovingAvg fan = 0%float ∧ FanCurveData fan = Some ∅).
Proof.
  cbv zeta. split.
  - eexists _, _, _, _. split; [reflexivity |].
    split; [reflexivity |]. split; [reflexivity |].
    split; [reflexivity |]. split; reflexivity.
  - eexists. split; [reflexivity |]. split; [reflexivity |]. split; reflexivity.
Qed.

(** ** createFans *)

Section discovery_facts.

Variable FindFilesMatching : string → string → list string.
Variable GetLabel : string → string → string.
Variable GetPwmEnabled : HwMonFan → option Z.

Lemma createFans_loop_short (devicePath : string) (inputs outputs : list string) :
  ∀ (idx : nat) (fanList : list HwMonFan),
    (idx ≤ length inputs < idx + length outputs)%nat →
    (∀ fanList', createFans_loop GetLabel GetPwmEnabled devicePath inputs idx
                   outputs fanList ≠ Ok fanList') ∧
    (Forall spec.ends_in_digit outputs →
     ∃ p, createFans_loop GetLabel GetPwmEnabled devicePath inputs idx
            outputs fanList = Panic p ∧
          ((∀ fan, is_Some (GetPwmEnabled fan)) → p = IndexOutOfRange)).
Proof.
  induction outputs as [|output outputs IH]; intros idx fanList Hlen.
  - simpl in Hlen. lia.
  - cbn [createFans_loop length] in *.
    destruct (last_byte (Split_file output)) as [digit|] eqn:Hlast.
    2: { split; [discriminate |]. intros Hnames.
         apply Forall_cons in Hnames as [(d & Hd & _) _]. congruence. }
    destruct (Atoi digit) as [index|] eqn:Hatoi.
    2: { split; [discriminate |]. intros Hnames.
         apply Forall_cons in Hnames as [(d & Hd & [? Hsome]) _]. congruence. }
    destruct (inputs !! idx) as [rpmInput|] eqn:Hin.
    2: { split; [discriminate |]. intros _. exists IndexOutOfRange. auto. }
    apply lookup_lt_Some in Hin.
    match goal with
    | |- context [GetPwmEnabled ?fan] => destruct (GetPwmEnabled fan) as [pwmEnabled|] eqn:Hen
    end.
    + destruct (IH (S idx) (fanList ++ [SetOriginalPwmEnabled pwmEnabled
          {| Name := Split_file output; Label := GetLabel devicePath output;
             Index := index; PwmOutput := output; RpmInput := rpmInput;
             RpmMovingAvg := 0%float; MinPwm := MinPwmValue; StartPwm := 0;
             MaxPwm := MaxPwmValue; FanCurveData := Some ∅;
             LastSetPwm := InitialLastSetPwm; OriginalPwmEnabled := 0;
             Config := None |}])) as [IHno IHpanic]; [lia |].
      split; [exact IHno |].
      intros Hnames. apply Forall_cons in Hnames as [_ Hnames]. auto.
    + cbn [Config]. split; [discriminate |].
      intros _. exists NilDereference. split; [reflexivity |].
      intros Hread.
      match type of Hen with GetPwmEnabled ?fan = None =>
        destruct (Hread fan) as [? Hsome] end.
      congruence.
Qed.

(** C10: when the device directory holds more files matching [^pwm[1-9]$]
    than files matching [^fan[1-9]_input$], [createFans] returns no fan
    list; with file names as the pattern admits them it panics, and the
    panic is the index out of range of [inputs[idx]] unless the read of
    [pwm_enable] of an earlier fan already failed. *)
Theorem createFans_more_outputs_panics (devicePath : string) :
  let inputs := FindFilesMatching devicePath "^fan[1-9]_input$" in
  let outputs := FindFilesMatching devicePath "^pwm[1-9]$" in
  (length inputs < length outputs)%nat →
  (∀ fanList, createFans FindFilesMatching GetLabel GetPwmEnabled devicePath
                ≠ Ok fanList) ∧
  (Forall spec.ends_in_digit outputs →
   ∃ p, createFans FindFilesMatching GetLabel GetPwmEnabled devicePath = Panic p ∧
        ((∀ fan, is_Some (GetPwmEnabled fan)) → p = IndexOutOfRange)).
Proof.
  intros inputs outputs Hlen. unfold createFans.
  apply createFans_loop_short. fold inputs outputs. lia.
Qed.

End discovery_facts.

Lemma createFans_more_outputs_panics_witness :
  let probe := λ (_ pattern : string),
    if String.eqb pattern "^pwm[1-9]$"
    then ["/sys/class/hwmon/hwmon1/pwm1"; "/sys/class/hwmon/hwmon1/pwm2"]
    else ["/sys/class/hwmon/hwmon1/fan1_input"] in
  createFans probe (λ _ _, "label") (λ _, Some 2) "/sys/class/hwmon/hwmon1"
    = Panic IndexOutOfRange.
Proof.
  cbv zeta.
  destruct (createFans_more_outputs_panics
              (λ (_ pattern : string),
                 if String.eqb pattern "^pwm[1-9]$"
                 then ["/sys/class/hwmon/hwmon1/pwm1"; "/sys/class/hwmon/hwmon1/pwm2"]
                 else ["/sys/class/hwmon/hwmon1/fan1_input"])
              (λ _ _, "label") (λ _, Some 2) "/sys/class/hwmon/hwmon1")
    as [_ Hpanic].
  - simpl. lia.
  - destruct Hpanic as (p & Hp & Hkind).
    + simpl. repeat constructor; eexists; (split; [reflexivity | vm_compute; eauto]).
    + rewrite Hp. f_equal. apply Hkind. intros fan. eauto.
Defined.

(** ** Binding the configuration to the discovered devices *)

(** A loop over a list that keeps an invariant on the prefix it has
    processed returns, and the invariant holds for the whole list. *)
Lemma for_each_prefix_inv {A S : Type} (body : A → S → result S)
    (I : list A → S → Prop) (l : list A) (s : S) :
  I [] s →
  (∀ pre x s, x ∈ l → I pre s → ∃ s', body x s = Ok s' ∧ I (pre ++ [x]) s') →
  ∃ s', for_each body l s = Ok s' ∧ I l s'.
Proof.
  intros Hinit Hstep.
  enough (Hgen : ∀ pre s, I pre s → (∀ x, x ∈ l → x ∈ l) →
            ∀ rest, (∀ x, x ∈ rest → x ∈ l) →
            ∃ s', for_each body rest s = Ok s' ∧ I (pre ++ rest) s').
  { apply (Hgen [] s Hinit (λ _ H, H) l (λ _ H, H)). }
  intros pre s0 Hpre _ rest. revert pre s0 Hpre.
  induction rest as [|x rest IH]; intros pre s0 Hpre Hsub.
  - exists s0. rewrite app_nil_r. auto.
  - destruct (Hstep pre x s0) as (s1 & Hbody & Hs1); [apply Hsub; left | done |].
    cbn [for_each]. rewrite Hbody. cbn [mbind result_bind].
    destruct (IH (pre ++ [x]) s1 Hs1) as (s' & Hrest & Hs').
    { intros y Hy. apply Hsub. by right. }
    exists s'. split; [done |]. by rewrite <- app_assoc in Hs'.
Qed.

Section binding_facts.

Variable cfg : Configuration.
Variable GetValue : HwmonSensor → option float.

Lemma matched_same_index (g g' : Globals) (controller : HwMonController) (a : nat) :
  (∀ b, Index <$> fan_store g' !! b = Index <$> fan_store g !! b) →
  spec.matched cfg g' controller a ↔ spec.matched cfg g controller a.
Proof.
  intros Hidx. unfold spec.matched. specialize (Hidx a).
  split; intros (fan & fc & Hfan & Hin & Hm).
  - rewrite Hfan in Hidx. destruct (fan_store g !! a) as [fan0|]; [| discriminate].
    injection Hidx as Hidx. exists fan0, fc. by rewrite <- Hidx.
  - rewrite Hfan in Hidx. destruct (fan_store g' !! a) as [fan0|]; [| discriminate].
    injection Hidx as Hidx. exists fan0, fc. by rewrite Hidx.
Qed.

Lemma findFanConfig_in_cases (entries : list FanConfig)
    (controller : HwMonController) (fan : HwMonFan) :
  (∀ fc, fc ∈ entries → FanConfig_Params fc ≠ MalformedParams) →
  (∃ fc, findFanConfig_in entries controller fan = Ok (Some fc) ∧ fc ∈ entries ∧
         spec.fan_entry_matches controller (Index fan) fc) ∨
  (findFanConfig_in entries controller fan = Ok None ∧
   ∀ fc, fc ∈ entries → ¬ spec.fan_entry_matches controller (Index fan) fc).
Proof.
  induction entries as [|fc entries IH]; intros Hwf.
  - right. split; [done |]. intros fc Hin. by apply not_elem_of_nil in Hin.
  - assert (Htail : ∀ fc', fc' ∈ entries → FanConfig_Params fc' ≠ MalformedParams).
    { intros fc' Hin. apply Hwf. by right. }
    specialize (IH Htail).
    assert (Hskip : ¬ spec.fan_entry_matches controller (Index fan) fc →
              findFanConfig_in entries controller fan
                = findFanConfig_in (fc :: entries) controller fan →
              (∃ fc0, findFanConfig_in (fc :: entries) controller fan = Ok (Some fc0)
                      ∧ fc0 ∈ fc :: entries ∧
                      spec.fan_entry_matches controller (Index fan) fc0) ∨
              (findFanConfig_in (fc :: entries) controller fan = Ok None ∧
               ∀ fc0, fc0 ∈ fc :: entries →
                      ¬ spec.fan_entry_matches controller (Index fan) fc0)).
    { intros Hno <-. destruct IH as [(fc0 & Hfind & Hin & Hm) | [Hfind Hnone]].
      - left. exists fc0. split; [done |]. split; [by right | done].
      - right. split; [done |]. intros fc0 [-> | Hin]%elem_of_cons; auto. }
    unfold spec.fan_entry_matches in *. cbn [findFanConfig_in] in *.
    destruct (FanConfig_Type fc) eqn:Hty; try (apply Hskip; [intros [? _]; discriminate | done]).
    destruct (FanConfig_Params fc) as [platform index|] eqn:Hpar.
    2: { exfalso. apply (Hwf fc); [by left | done]. }
    destruct (bool_decide (Platform controller = platform)) eqn:Hp;
      [apply bool_decide_eq_true in Hp | apply bool_decide_eq_false in Hp].
    2: { apply Hskip; [| done]. intros [_ [= ? ?]]. congruence. }
    destruct (bool_decide (Index fan = index)) eqn:Hi;
      [apply bool_decide_eq_true in Hi | apply bool_decide_eq_false in Hi].
    2: { apply Hskip; [| done]. intros [_ [= ? ?]]. congruence. }
    left. exists fc. cbn. split; [done |]. split; [by left |].
    rewrite Hty, Hpar. subst. done.
Qed.

Lemma findSensorConfig_in_returns (entries : list SensorConfig)
    (controller : HwMonController) (sensor : HwmonSensor) :
  (∀ sc, sc ∈ entries → SensorConfig_Params sc ≠ MalformedParams) →
  ∃ r, findSensorConfig_in entries controller sensor = Ok r.
Proof.
  induction entries as [|sc entries IH]; intros Hwf; [by eexists |].
  assert (Htail : ∀ sc', sc' ∈ entries → SensorConfig_Params sc' ≠ MalformedParams).
  { intros sc' Hin. apply Hwf. by right. }
  cbn [findSensorConfig_in].
  destruct (SensorConfig_Type sc); auto.
  destruct (SensorConfig_Params sc) eqn:Hpar.
  - destruct (_ && _); [by eexists | auto].
  - exfalso. apply (Hwf sc); [by left | done].
Qed.

Lemma bound_from_ext (g g' : Globals) (P Q : nat → Prop) :
  (∀ b, P b ↔ Q b) → spec.bound_from g P g' → spec.bound_from g Q g'.
Proof.
  intros HPQ [Hidx Hsens Hconf]. split; [done | done |].
  intros b. rewrite Hconf, HPQ. done.
Qed.

Hypothesis fan_params : ∀ fc, fc ∈ Fans cfg → FanConfig_Params fc ≠ MalformedParams.
Hypothesis sensor_params :
  ∀ sc, sc ∈ Sensors cfg → SensorConfig_Params sc ≠ MalformedParams.
Hypothesis readable : ∀ sensor, is_Some (GetValue sensor).

Lemma map_fan_bound (g0 g : Globals) (P : nat → Prop)
    (controller : HwMonController) (a : nat) :
  spec.bound_from g0 P g → is_Some (fan_store g0 !! a) →
  ∃ g', map_fan cfg controller a g = Ok g' ∧
        spec.bound_from g0 (λ b, P b ∨ (b = a ∧ spec.matched cfg g0 controller a)) g'.
Proof.
  intros Hb [fan0 Hfan0].
  pose proof (matched_same_index g0 g controller a (spec.same_index _ _ _ Hb)) as Hmatched.
  destruct Hb as [Hidx Hsens Hconf].
  pose proof (Hidx a) as Hidxa. rewrite Hfan0 in Hidxa.
  destruct (fan_store g !! a) as [fan|] eqn:Hfan; [| discriminate].
  unfold map_fan. rewrite Hfan. unfold findFanConfig.
  destruct (findFanConfig_in_cases (Fans cfg) controller fan fan_params)
    as [(fc & -> & Hin & Hm) | [-> Hnone]]; cbn [mbind result_bind].
  - eexists. split; [reflexivity |]. split.
    + intros b. cbn. destruct (decide (a = b)) as [<- | Hne].
      * rewrite lookup_insert_eq, <- Hidx, Hfan. done.
      * rewrite lookup_insert_ne by done. apply Hidx.
    + intros b. cbn. apply Hsens.
    + intros b. unfold spec.configured at 1. cbn.
      destruct (decide (a = b)) as [<- | Hne].
      * rewrite lookup_insert_eq. cbn. split; [| by eauto].
        intros _. right. right. split; [done |]. apply Hmatched.
        exists fan, fc. done.
      * rewrite lookup_insert_ne by done. fold (spec.configured g b).
        rewrite Hconf. split; [intros [?|?]; auto |].
        intros [? | [? | [-> _]]]; auto. done.
  - exists g. split; [done |]. split; [done | done |].
    intros b. rewrite Hconf. split; [intros [?|?]; auto |].
    intros [? | [? | [-> Hm]]]; auto.
    apply Hmatched in Hm as (fan' & fc & Hfan' & Hin & Hm).
    rewrite Hfan in Hfan'. injection Hfan' as <-. exfalso. by eapply Hnone.
Qed.

Lemma map_sensor_bound (g0 g : Globals) (P : nat → Prop)
    (controller : HwMonController) (a : nat) :
  spec.bound_from g0 P g → is_Some (sensor_store g0 !! a) →
  ∃ g', map_sensor cfg GetValue controller a g = Ok g' ∧ spec.bound_from g0 P g'.
Proof.
  intros [Hidx Hsens Hconf] Hsome. apply Hsens in Hsome as [sensor Hsensor].
  unfold map_sensor. rewrite Hsensor. unfold findSensorConfig.
  destruct (findSensorConfig_in_returns (Sensors cfg) controller sensor sensor_params)
    as [[sc|] ->]; cbn [mbind result_bind].
  - cbv zeta. destruct (readable (Sensor_SetConfig sc sensor)) as [v ->].
    eexists. split; [reflexivity |]. split; [done | | done].
    intros b. cbn. rewrite <- Hsens.
    destruct (decide (a = b)) as [<- | Hne].
    + rewrite lookup_insert_eq, Hsensor. split; eauto.
    + by rewrite !lookup_insert_ne.
  - exists g. done.
Qed.

Lemma MapConfigToControllers_bound (controllers : list HwMonController) (g : Globals) :
  (∀ controller a, controller ∈ controllers → a ∈ Controller_Fans controller →
                   is_Some (fan_store g !! a)) →
  (∀ controller a, controller ∈ controllers → a ∈ Controller_Sensors controller →
                   is_Some (sensor_store g !! a)) →
  ∃ g', MapConfigToControllers cfg GetValue controllers g = Ok g' ∧
        spec.bound_from g
          (λ b, ∃ controller, controller ∈ controllers ∧
                              b ∈ Controller_Fans controller ∧
                              spec.matched cfg g controller b) g'.
Proof.
  intros Hfans Hsensors. unfold MapConfigToControllers.
  apply (for_each_prefix_inv _
           (λ pre g', spec.bound_from g
              (λ b, ∃ controller, controller ∈ pre ∧
                                  b ∈ Controller_Fans controller ∧
                                  spec.matched cfg g controller b) g')).
  { split; [done | done |]. intros b. split; [auto |].
    intros [? | (c & Hc & _)]; [done |]. by apply not_elem_of_nil in Hc. }
  intros pre controller g1 Hin Hg1.
  destruct (for_each_prefix_inv (map_fan cfg controller)
              (λ done_fans g', spec.bound_from g
                 (λ b, (∃ c, c ∈ pre ∧ b ∈ Controller_Fans c ∧ spec.matched cfg g c b)
                       ∨ (b ∈ done_fans ∧ spec.matched cfg g controller b)) g')
              (Controller_Fans controller) g1) as (g2 & -> & Hg2).
  { eapply bound_from_ext; [| exact Hg1]. intros b. split; [auto |].
    intros [? | [Hb _]]; [done |]. by apply not_elem_of_nil in Hb. }
  { intros done_fans a g' Ha Hg'.
    destruct (map_fan_bound g g' _ controller a Hg') as (g'' & Hmap & Hg''); [eauto |].
    exists g''. split; [done |]. eapply bound_from_ext; [| exact Hg''].
    intros b. cbn. rewrite elem_of_app, list_elem_of_singleton. split.
    - intros [[? | [? ?]] | [-> ?]]; auto.
    - intros [? | [[? | ->] ?]]; auto. }
  cbn [mbind result_bind].
  destruct (for_each_prefix_inv (map_sensor cfg GetValue controller)
              (λ _ g', spec.bound_from g
                 (λ b, (∃ c, c ∈ pre ∧ b ∈ Controller_Fans c ∧ spec.matched cfg g c b)
                       ∨ (b ∈ Controller_Fans controller
                          ∧ spec.matched cfg g controller b)) g')
              (Controller_Sensors controller) g2) as (g3 & -> & Hg3); [done | |].
  { intros _ a g' Ha Hg'. apply map_sensor_bound; eauto. }
  exists g3. split; [done |]. eapply bound_from_ext; [| exact Hg3].
  intros b. cbn. setoid_rewrite elem_of_app. setoid_rewrite list_elem_of_singleton.
  split.
  - intros [(c & ? & ? & ?) | [? ?]]; [exists c; auto | exists controller; auto].
  - intros (c & [? | ->] & ? & ?); [left; exists c; auto | right; auto].
Qed.

End binding_facts.

Lemma configured_fans_nil (g : Globals) (controllers : list HwMonController) :
  configured_fans g controllers = [] ↔
  ∀ controller a, controller ∈ controllers → a ∈ Controller_Fans controller →
                  ¬ spec.configured g a.
Proof.
  unfold configured_fans, spec.configured. split.
  - intros Hnil controller a Hc Ha [fc Hfc].
    destruct (fan_store g !! a) as [fan|] eqn:Hfan; [| discriminate]. cbn in Hfc.
    assert (Hin : (FanConfig_Id fc, a) ∈ @nil (string * nat)); [| by apply not_elem_of_nil in Hin].
    rewrite <- Hnil. apply list_elem_of_omap. exists a. split.
    + apply list_elem_of_bind. eauto.
    + rewrite Hfan. cbn. rewrite Hfc. done.
  - intros Hnone. apply elem_of_nil_inv. intros [id a] Hin.
    apply list_elem_of_omap in Hin as (a' & Ha' & Hsome).
    apply list_elem_of_bind in Ha' as (controller & Ha' & Hc).
    apply (Hnone controller a' Hc Ha').
    destruct (fan_store g !! a') as [fan|]; [| discriminate]. cbn in *.
    destruct (Config fan); [by eexists | discriminate].
Qed.

(** C4, as amended: with a well-formed binder input, [Run] ends in the fatal
    error "No valid fan configurations" exactly when no fan entry of the
    configuration matches a discovered fan; as soon as one entry matches,
    [Run] binds it and fills its task group, and the fan and sensor entries
    that match nothing are passed over. *)
Theorem Run_fatal_iff_no_fan_bound (cfg : Configuration)
    (GetValue : HwmonSensor → option float)
    (controllers : list HwMonController) (g : Globals) :
  spec.binder_input cfg GetValue controllers g →
  ((∃ fanConfig, fanConfig ∈ Fans cfg ∧ spec.fan_entry_bound g controllers fanConfig) →
   ∃ g' tasks, Run cfg GetValue "root" controllers g = Ok (g', tasks)) ∧
  ((¬ ∃ fanConfig, fanConfig ∈ Fans cfg ∧ spec.fan_entry_bound g controllers fanConfig) →
   Run cfg GetValue "root" controllers g = Fatal "No valid fan configurations, exiting.").
Proof.
  intros [Hfans Hsensors Hfp Hsp Hread Hunconf].
  destruct (MapConfigToControllers_bound cfg GetValue Hfp Hsp Hread controllers g
              Hfans Hsensors) as (g' & Hmap & [_ _ Hconf]).
  assert (Hnone : ∀ b, ¬ spec.configured g b).
  { intros b [fc Hfc]. destruct (fan_store g !! b) as [fan|] eqn:Hfan; [| discriminate].
    cbn in Hfc. by rewrite (Hunconf b fan Hfan) in Hfc. }
  assert (Hbound : configured_fans g' controllers = [] ↔
            ¬ ∃ fanConfig, fanConfig ∈ Fans cfg ∧ spec.fan_entry_bound g controllers fanConfig).
  { rewrite configured_fans_nil. split.
    - intros Hnil (fc & Hin & controller & a & fan & Hc & Ha & Hfan & Hm).
      apply (Hnil controller a Hc Ha). apply Hconf. right.
      exists controller. split; [done |]. split; [done |]. exists fan, fc. done.
    - intros Hno controller a Hc Ha [Hold | (c & Hc' & Ha' & fan & fc & Hfan & Hin & Hm)]%Hconf.
      + by apply Hnone in Hold.
      + apply Hno. exists fc. split; [done |]. exists c, a, fan. done. }
  unfold Run. cbn [bool_decide negb]. rewrite bool_decide_eq_true_2 by done.
  cbn [negb]. rewrite Hmap. cbn [mbind result_bind].
  destruct (configured_fans g' controllers) as [|entry entries] eqn:Hlist.
  - split; [| done]. intros Hsome. exfalso. by apply (proj1 Hbound).
  - cbn [length]. replace (Z.of_nat (S (length entries)) =? 0) with false
      by (symmetry; apply Z.eqb_neq; lia).
    split; [by eauto |]. intros Hno. apply Hbound in Hno. discriminate.
Qed.

Lemma board_is_binder_input :
  spec.binder_input samples.board_config samples.readable samples.board
                    samples.board_objects.
Proof.
  split.
  - intros controller a ->%list_elem_of_singleton ->%list_elem_of_singleton. by eexists.
  - intros controller a ->%list_elem_of_singleton Ha. by apply not_elem_of_nil in Ha.
  - intros fc Hin. cbn in Hin.
    apply elem_of_cons in Hin as [-> | ->%list_elem_of_singleton]; discriminate.
  - intros sc ->%list_elem_of_singleton. discriminate.
  - intros sensor. by eexists.
  - intros a fan Hfan. cbn in Hfan.
    apply lookup_singleton_Some in Hfan as [_ <-]. reflexivity.
Defined.

Lemma Run_fatal_iff_no_fan_bound_witness :
  ∃ g' tasks, Run samples.board_config samples.readable "root" samples.board
                  samples.board_objects = Ok (g', tasks).
Proof.
  apply (Run_fatal_iff_no_fan_bound samples.board_config samples.readable
           samples.board samples.board_objects board_is_binder_input).
  exists (samples.config_of "cpu_fan" "nct6798" 1). split; [by left |].
  eexists _, 0%nat, _. split; [by left |]. split; [by left |].
  split; [reflexivity |]. split; reflexivity.
Defined.

(** C4, as worded, fails: the configuration of the sample board lists a fan
    and a sensor on a platform no controller has, and [Run] starts all the
    same, with the one fan that matched. *)
Lemma Run_ignores_unmatched_entries :
  ¬ spec.unmatched_entry_is_fatal samples.board_config samples.readable
      samples.board samples.board_objects.
Proof.
  intros Hclaim. destruct Hclaim as [msg Hfatal]; [| vm_compute in Hfatal; discriminate].
  left. exists samples.ghost_fan. split; [right; left |]. split; [reflexivity |].
  intros (controller & a & fan & Hc & Ha & Hfan & _ & Hparams).
  apply list_elem_of_singleton in Hc as ->. cbn in Hparams. discriminate.
Qed.

(** ** GetPwmBoundaries *)

Lemma elem_of_sorted_keys (m : gmap Z rolling.PointPolicy) (k : Z) :
  k ∈ sorted_keys m ↔ is_Some (m !! k).
Proof.
  unfold sorted_keys. rewrite merge_sort_Permutation, list_elem_of_fmap. split.
  - intros ([k' w] & -> & Hin). apply elem_of_map_to_list in Hin. by eexists.
  - intros [w Hw]. exists (k, w). split; [done |]. by apply elem_of_map_to_list.
Qed.

Lemma sorted_keys_sorted (m : gmap Z rolling.PointPolicy) :
  StronglySorted Z.le (sorted_keys m).
Proof. apply StronglySorted_merge_sort; apply _. Qed.

Lemma sorted_keys_nil (m : gmap Z rolling.PointPolicy) :
  sorted_keys m = [] ↔ m = ∅.
Proof.
  split.
  - intros Hnil. apply map_empty. intros k.
    destruct (m !! k) as [w|] eqn:Hw; [| done].
    assert (Hin : k ∈ sorted_keys m) by (apply elem_of_sorted_keys; eauto).
    rewrite Hnil in Hin. by apply not_elem_of_nil in Hin.
  - intros ->. apply elem_of_nil_inv. intros k Hin.
    apply elem_of_sorted_keys in Hin as [w Hw]. by rewrite lookup_empty in Hw.
Qed.

(** The loop over the sorted keys, from any values of its variables. *)
Lemma boundaries_fold (m : gmap Z rolling.PointPolicy) (keys : list Z) :
  StronglySorted Z.le keys →
  ∀ maxRpm0 maxPwm0 startPwm0,
  ∃ maxRpm maxPwm startPwm,
    fold_left (boundaries_step m) keys (maxRpm0, maxPwm0, startPwm0)
      = (maxRpm, maxPwm, startPwm) ∧
    ((maxRpm = maxRpm0 ∧ maxPwm = maxPwm0 ∧
      ∀ k w, k ∈ keys → m !! k = Some w → avgRpm w ≤ maxRpm0)
     ∨ (maxRpm0 < maxRpm ∧ maxPwm ∈ keys ∧
        ∃ w, m !! maxPwm = Some w ∧ avgRpm w = maxRpm ∧
          ∀ k w', k ∈ keys → m !! k = Some w' →
            avgRpm w' ≤ maxRpm ∧ (avgRpm w' = maxRpm → maxPwm ≤ k))) ∧
    ((startPwm = startPwm0 ∧
      ∀ k w, k ∈ keys → m !! k = Some w → 0 < avgRpm w → startPwm0 ≤ k)
     ∨ (startPwm < startPwm0 ∧ startPwm ∈ keys ∧
        ∃ w, m !! startPwm = Some w ∧ 0 < avgRpm w ∧
          ∀ k w', k ∈ keys → m !! k = Some w' → 0 < avgRpm w' → startPwm ≤ k)).
Proof.
  induction 1 as [|x keys Hsorted IH Hle]; intros maxRpm0 maxPwm0 startPwm0.
  - exists maxRpm0, maxPwm0, startPwm0. split; [done |].
    split; left; (repeat split; try done); intros k w Hin; by apply not_elem_of_nil in Hin.
  - rewrite Forall_forall in Hle. cbn [fold_left].
    unfold boundaries_step at 2.
    destruct (m !! x) as [wx|] eqn:Hx.
    2: { destruct (IH maxRpm0 maxPwm0 startPwm0)
           as (r & p & s & -> & Hmax & Hstart).
         exists r, p, s. split; [done |]. split.
         - destruct Hmax as [(-> & -> & Hall) | (Hlt & Hin & w & Hw & Havg & Hmin)].
           + left. repeat split; try done.
             intros k w [-> | Hk]%elem_of_cons Hw; [congruence | eauto].
           + right. split; [done |]. split; [by right |]. exists w.
             split; [done |]. split; [done |].
             intros k w' [-> | Hk]%elem_of_cons Hw'; [congruence | by eapply Hmin].
         - destruct Hstart as [(-> & Hall) | (Hlt & Hin & w & Hw & Hpos & Hmin)].
           + left. split; [done |].
             intros k w [-> | Hk]%elem_of_cons Hw; [congruence | eauto].
           + right. split; [done |]. split; [by right |]. exists w.
             repeat split; try done.
             intros k w' [-> | Hk]%elem_of_cons Hw'; [congruence | eauto]. }
    set (a := avgRpm wx).
    destruct (IH (if maxRpm0 <? a then a else maxRpm0)
                 (if maxRpm0 <? a then x else maxPwm0)
                 (if (0 <? a) && (x <? startPwm0) then x else startPwm0))
      as (r & p & s & Hfold & Hmax & Hstart).
    exists r, p, s. split.
    { rewrite <- Hfold. f_equal. by destruct (maxRpm0 <? a). }
    clear Hfold. split.
    + destruct (Z.ltb_spec maxRpm0 a) as [Hgt | Hle0].
      * right.
        destruct Hmax as [(-> & -> & Hall) | (Hlt & Hin & w & Hw & Havg & Hmin)].
        -- split; [done |]. split; [by left |]. exists wx. split; [done |].
           split; [done |]. intros k w' [-> | Hk]%elem_of_cons Hw'.
           ++ replace w' with wx by congruence. fold a. split; [lia | done].
           ++ split; [by eapply Hall | intros _; by apply Hle].
        -- split; [lia |]. split; [by right |]. exists w. split; [done |].
           split; [done |]. intros k w' [-> | Hk]%elem_of_cons Hw'.
           ++ replace w' with wx by congruence. fold a. split; lia.
           ++ by eapply Hmin.
      * destruct Hmax as [(-> & -> & Hall) | (Hlt & Hin & w & Hw & Havg & Hmin)].
        -- left. repeat split; try done.
           intros k w' [-> | Hk]%elem_of_cons Hw'; [| by eapply Hall].
           replace w' with wx by congruence. done.
        -- right. split; [done |]. split; [by right |]. exists w. split; [done |].
           split; [done |]. intros k w' [-> | Hk]%elem_of_cons Hw'.
           ++ replace w' with wx by congruence. fold a. split; lia.
           ++ by eapply Hmin.
    + destruct (Z.ltb_spec 0 a) as [Hpos | Hnonpos]; cbn [andb] in Hstart.
      * destruct (Z.ltb_spec x startPwm0) as [Hlow | Hhigh].
        -- right.
           destruct Hstart as [(-> & Hall) | (Hlt & Hin & w & Hw & Hwpos & Hmin)].
           ++ split; [done |]. split; [by left |]. exists wx.
              repeat split; try done.
              intros k w' [-> | Hk]%elem_of_cons Hw' Hpos'; [done | by eapply Hall].
           ++ split; [lia |]. split; [by right |]. exists w.
              repeat split; try done.
              intros k w' [-> | Hk]%elem_of_cons Hw' Hpos'; [lia | by eapply Hmin].
        -- destruct Hstart as [(-> & Hall) | (Hlt & Hin & w & Hw & Hwpos & Hmin)].
           ++ left. split; [done |].
              intros k w' [-> | Hk]%elem_of_cons Hw' Hpos'; [done | by eapply Hall].
           ++ right. split; [done |]. split; [by right |]. exists w.
              repeat split; try done.
              intros k w' [-> | Hk]%elem_of_cons Hw' Hpos'; [lia | by eapply Hmin].
      * destruct Hstart as [(-> & Hall) | (Hlt & Hin & w & Hw & Hwpos & Hmin)].
        -- left. split; [done |].
           intros k w' [-> | Hk]%elem_of_cons Hw' Hpos'; [| by eapply Hall].
           replace w' with wx in Hpos' by congruence. fold a in Hpos'. lia.
        -- right. split; [done |]. split; [by right |]. exists w.
           repeat split; try done.
           intros k w' [-> | Hk]%elem_of_cons Hw' Hpos'; [| by eapply Hmin].
           replace w' with wx in Hpos' by congruence. fold a in Hpos'. lia.
Qed.

(** With data, the call returns what its loop leaves in [startPwm] and
    [maxPwm]. *)
Lemma GetPwmBoundaries_with_data (fan : HwMonFan) (m : gmap Z rolling.PointPolicy) :
  FanCurveData fan = Some m → m ≠ ∅ →
  GetPwmBoundaries fan =
    Ok (let '(_, maxPwm, startPwm) :=
          fold_left (boundaries_step m) (sorted_keys m) (0, 255, 255) in
        (startPwm, maxPwm)).
Proof.
  intros Hdata Hne. unfold GetPwmBoundaries. rewrite Hdata.
  destruct (sorted_keys m) as [|k0 keys] eqn:Hkeys.
  - by apply sorted_keys_nil in Hkeys.
  - replace (Z.of_nat (length (k0 :: keys)) <=? 0) with false
      by (symmetry; apply Z.leb_gt; cbn [length]; lia).
    by destruct (fold_left _ _ _) as [[? ?] ?].
Qed.

(** The loop over all the keys of the data, from the initial values. *)
Lemma boundaries_of_data (m : gmap Z rolling.PointPolicy) :
  ∃ maxRpm maxPwm startPwm,
    fold_left (boundaries_step m) (sorted_keys m) (0, 255, 255)
      = (maxRpm, maxPwm, startPwm) ∧
    spec.derived_max_pwm m maxPwm ∧ spec.derived_start_pwm m startPwm.
Proof.
  destruct (boundaries_fold m (sorted_keys m) (sorted_keys_sorted m) 0 255 255)
    as (r & p & s & Hfold & Hmax & Hstart).
  exists r, p, s. split; [done |].
  assert (Hin : ∀ k w, m !! k = Some w → k ∈ sorted_keys m).
  { intros k w Hw. apply elem_of_sorted_keys. eauto. }
  split.
  - destruct Hmax as [(-> & -> & Hall) | (Hlt & _ & w & Hw & Havg & Hmin)].
    + right. split; [done |]. intros k w Hw. eapply Hall; eauto.
    + left. exists w. split; [done |]. split; [lia |].
      intros k w' Hw'. rewrite Havg. eapply Hmin; eauto.
  - destruct Hstart as [(-> & Hall) | (Hlt & _ & w & Hw & Hpos & Hmin)].
    + right. split; [done |]. intros k w Hw. eapply Hall; eauto.
    + left. split; [done |]. exists w. split; [done |]. split; [done |].
      intros k w' Hw'. eapply Hmin; eauto.
Qed.

(** C2, as amended: [GetPwmBoundaries] returns [(0, 255)] when the fan has no
    data; otherwise it compares the window averages truncated to integers,
    [maxPwm] is the smallest key with the greatest truncated average when
    that average is positive and 255 when it is not, and [startPwm] is the
    smallest key with a positive truncated average when that key is below
    255 and 255 when there is none. *)
Theorem GetPwmBoundaries_derives (fan : HwMonFan) (m : gmap Z rolling.PointPolicy) :
  FanCurveData fan = Some m →
  ∃ startPwm maxPwm,
    GetPwmBoundaries fan = Ok (startPwm, maxPwm) ∧
    (m = ∅ → startPwm = 0 ∧ maxPwm = 255) ∧
    (m ≠ ∅ → spec.derived_max_pwm m maxPwm ∧ spec.derived_start_pwm m startPwm).
Proof.
  intros Hdata. destruct (decide (m = ∅)) as [-> | Hne].
  - exists 0, 255. split; [| done].
    unfold GetPwmBoundaries. rewrite Hdata.
    by replace (sorted_keys ∅) with (@nil Z) by (symmetry; by apply sorted_keys_nil).
  - rewrite (GetPwmBoundaries_with_data fan m Hdata Hne).
    destruct (boundaries_of_data m) as (r & p & s & -> & Hmax & Hstart).
    exists s, p. split; [done |]. split; [done |]. done.
Qed.

Lemma GetPwmBoundaries_derives_witness :
  GetPwmBoundaries samples.sampled_fan = Ok (60, 60).
Proof.
  destruct (GetPwmBoundaries_derives samples.sampled_fan
              {[ 0 := samples.window_of 0%float;
                 60 := samples.window_of (Float64.of_int 900);
                 200 := samples.window_of (Float64.of_int 900) ]} eq_refl)
    as (startPwm & maxPwm & Hreturn & _ & _).
  rewrite Hreturn. vm_compute in Hreturn. injection Hreturn as <- <-. reflexivity.
Defined.

(** C2, as worded, fails for a fan whose only sample is a standstill at PWM
    0: no key has a positive average, and the call returns start 255 and max
    255, not start 0 and the key 0 of the greatest average. *)
Lemma GetPwmBoundaries_stopped_fan :
  GetPwmBoundaries samples.stopped_fan = Ok (255, 255) ∧
  ¬ spec.boundaries_as_worded samples.stopped_fan.
Proof.
  split; [vm_compute; reflexivity |].
  intros Hclaim.
  destruct (Hclaim {[ 0 := samples.window_of 0%float ]} eq_refl)
    as (startPwm & maxPwm & Hreturn & _ & Hdata).
  vm_compute in Hreturn. injection Hreturn as <- <-.
  destruct Hdata as (_ & _ & Hzero).
  - intros Hempty. apply (f_equal (λ m : gmap Z rolling.PointPolicy, m !! 0)) in Hempty.
    rewrite lookup_singleton_eq, lookup_empty in Hempty. discriminate.
  - enough (255 = 0) by lia. apply Hzero.
    intros k w [_ <-]%lookup_singleton_Some. vm_compute. discriminate.
Qed.

(** ** AttachFanCurveData: filling a window *)

Lemma fill_round_in_range (pointValues : list float) (k : Z) (currentAvg : float)
    (w : rolling.PointPolicy) :
  0 ≤ rolling.offset w →
  (Z.to_nat (rolling.offset w) < length (rolling.window w))%nat →
  let rpm := if k <? Z.of_nat (length pointValues)
             then default 0%float (pointValues !! Z.to_nat k) else currentAvg in
  fill_round pointValues k (currentAvg, w) =
    Ok (if k =? 0 then rpm else ((currentAvg + rpm) / 2)%float,
        {| rolling.windowSize := rolling.windowSize w;
           rolling.window := <[Z.to_nat (rolling.offset w) := rpm]> (rolling.window w);
           rolling.offset := (rolling.offset w + 1) `rem` rolling.windowSize w |}).
Proof.
  intros Hoff Hlen. cbv zeta. unfold fill_round, rolling.Append.
  rewrite bool_decide_eq_true_2 by done. reflexivity.
Qed.

Lemma fill_rounds (size : Z) (pointValues : list float) :
  ∀ (n : nat) (k : Z) (currentAvg : float) (w : rolling.PointPolicy),
    0 ≤ k → length (rolling.window w) = Z.to_nat size → rolling.windowSize w = size →
    (n ≠ 0%nat → rolling.offset w = k) → k + Z.of_nat n = size →
    ∃ currentAvg' w',
      for_range k n (fill_round pointValues) (currentAvg, w) = Ok (currentAvg', w') ∧
      rolling.window w' =
        take (Z.to_nat k) (rolling.window w) ++ spec.fill_values n k currentAvg pointValues.
Proof.
  induction n as [|n IH]; intros k currentAvg w Hk Hlen Hsize Hoff Hsum.
  - exists currentAvg, w. split; [done |]. cbn [spec.fill_values].
    rewrite app_nil_r, take_ge; [done | lia].
  - specialize (Hoff ltac:(done)). cbn [for_range spec.fill_values].
    rewrite fill_round_in_range by lia. cbv zeta. rewrite Hoff.
    cbn [mbind result_bind].
    set (rpm := if k <? Z.of_nat (length pointValues)
                then default 0%float (pointValues !! Z.to_nat k) else currentAvg).
    set (avg1 := if k =? 0 then rpm else ((currentAvg + rpm) / 2)%float).
    destruct (IH (k + 1) avg1
                {| rolling.windowSize := rolling.windowSize w;
                   rolling.window := <[Z.to_nat k := rpm]> (rolling.window w);
                   rolling.offset := (k + 1) `rem` rolling.windowSize w |})
      as (avg' & w' & Hrun & Hwin); cbn [rolling.window rolling.windowSize rolling.offset].
    + lia.
    + by rewrite length_insert.
    + done.
    + intros Hn. rewrite Hsize. apply Z.rem_small. lia.
    + lia.
    + exists avg', w'. split; [exact Hrun |]. rewrite Hwin.
      cbn [rolling.window]. replace (Z.to_nat (k + 1)) with (S (Z.to_nat k)) by lia.
      rewrite (take_S_r _ _ rpm) by (apply list_lookup_insert_eq; lia).
      rewrite take_insert_ge by lia. by rewrite <- app_assoc.
Qed.

(** For a window size that is not negative, a round of the outer loop gets
    its window and fills it. *)
Lemma fill_fresh_window (size : Z) (pointValues : list float) :
  0 ≤ size →
  ∃ w0 currentAvg w,
    createRollingWindow size = Ok w0 ∧
    fill_window size pointValues w0 = Ok (currentAvg, w) ∧
    rolling.window w = spec.window_values size pointValues.
Proof.
  intros Hsize. unfold createRollingWindow, rolling.NewPointPolicy.
  replace (size <? 0) with false by (symmetry; apply Z.ltb_ge; lia).
  destruct (fill_rounds size pointValues (Z.to_nat size) 0 0%float
              {| rolling.windowSize := size;
                 rolling.window := replicate (Z.to_nat size) 0%float;
                 rolling.offset := 0 |})
    as (avg & w & Hrun & Hwin); cbn [rolling.window rolling.windowSize rolling.offset];
    try done; try lia.
  - by rewrite length_replicate.
  - eexists _, avg, w. split; [reflexivity |]. split; [exact Hrun |].
    rewrite Hwin. reflexivity.
Qed.

Lemma length_fill_values (n : nat) (k : Z) (currentAvg : float) (pointValues : list float) :
  length (spec.fill_values n k currentAvg pointValues) = n.
Proof.
  revert k currentAvg. induction n as [|n IH]; intros k currentAvg; cbn; [done |].
  by rewrite IH.
Qed.

(** While given values remain, the rounds append them in order. *)
Lemma fill_values_given (pointValues : list float) :
  ∀ (n : nat) (k : Z) (currentAvg : float),
    0 ≤ k → k + Z.of_nat n ≤ Z.of_nat (length pointValues) →
    spec.fill_values n k currentAvg pointValues = take n (drop (Z.to_nat k) pointValues).
Proof.
  induction n as [|n IH]; intros k currentAvg Hk Hlen; [done |].
  cbn [spec.fill_values].
  replace (k <? Z.of_nat (length pointValues)) with true
    by (symmetry; apply Z.ltb_lt; lia).
  rewrite IH by lia.
  destruct (lookup_lt_is_Some_2 pointValues (Z.to_nat k)) as [v Hv]; [lia |].
  rewrite Hv. cbn [default].
  rewrite (drop_S _ _ _ Hv). cbn [take].
  by replace (Z.to_nat (k + 1)) with (S (Z.to_nat k)) by lia.
Qed.

Lemma window_values_prefix (size : Z) (pointValues : list float) :
  Z.of_nat (length pointValues) ≤ size →
  take (length pointValues) (spec.window_values size pointValues) = pointValues.
Proof.
  intros Hlen. unfold spec.window_values.
  replace (Z.to_nat size)
    with (length pointValues + (Z.to_nat size - length pointValues))%nat by lia.
  generalize (Z.to_nat size - length pointValues)%nat as extra. intros extra.
  assert (Hsplit : ∀ n m k avg,
    ∃ avg', spec.fill_values (n + m) k avg pointValues =
      spec.fill_values n k avg pointValues
        ++ spec.fill_values m (k + Z.of_nat n) avg' pointValues).
  { induction n as [|n IH]; intros m k avg.
    - exists avg. cbn. by rewrite Z.add_0_r.
    - cbn [Nat.add spec.fill_values].
      match goal with |- context [spec.fill_values (n + m) (k + 1) ?a _] =>
        destruct (IH m (k + 1) a) as (avg' & ->) end.
      exists avg'. cbn [app]. do 3 f_equal. lia. }
  destruct (Hsplit (length pointValues) extra 0 0%float) as (avg' & ->).
  rewrite take_app_length' by (by rewrite length_fill_values).
  rewrite fill_values_given by lia. cbn [Z.to_nat drop]. apply firstn_all.
Qed.

Lemma window_values_exact (size : Z) (pointValues : list float) :
  Z.of_nat (length pointValues) = size →
  spec.window_values size pointValues = pointValues.
Proof.
  intros Hlen. rewrite <- (window_values_prefix size pointValues) at 2 by lia.
  rewrite take_ge; [done |].
  unfold spec.window_values. rewrite length_fill_values. lia.
Qed.

Lemma window_values_truncates (size : Z) (pointValues : list float) :
  0 ≤ size ≤ Z.of_nat (length pointValues) →
  spec.window_values size pointValues = take (Z.to_nat size) pointValues.
Proof.
  intros Hlen. unfold spec.window_values. rewrite fill_values_given by lia. done.
Qed.

(** A single value whose mean with itself is itself fills every bucket. *)
Lemma window_values_single (size : Z) (value : float) :
  ((value + value) / 2)%float = value →
  spec.window_values size [value] = replicate (Z.to_nat size) value.
Proof.
  intros Hmean. unfold spec.window_values.
  destruct (Z.to_nat size) as [|n]; [done |]. cbn [spec.fill_values replicate].
  cbn. f_equal.
  assert (Hrest : ∀ n k, 1 ≤ k →
            spec.fill_values n k value [value] = replicate n value).
  { clear n. induction n as [|n IH]; intros k Hk; [done |].
    cbn [spec.fill_values replicate length].
    replace (k <? Z.of_nat 1) with false by (symmetry; apply Z.ltb_ge; lia).
    replace (k =? 0) with false by (symmetry; apply Z.eqb_neq; lia).
    rewrite Hmean. f_equal. apply IH. lia. }
  apply Hrest. lia.
Qed.

(** ** AttachFanCurveData: the values of a round *)

(** The inner search ends on the highest persisted key from [i] on. *)
Lemma find_next_last (curveData : gmap Z (list float)) (i : Z) (next : Z * float) :
  find_next curveData i next =
    match last (spec.keys_from curveData i) with
    | Some h => (h, util.Avg (default [] (curveData !! h)))
    | None => next
    end.
Proof.
  unfold find_next, spec.keys_from.
  generalize (seqZ i (limit - i + 1)) as l. intros l. revert next.
  induction l as [|j l IH]; intros next; [done |].
  cbn [fold_left]. rewrite IH, filter_cons.
  destruct (curveData !! j) as [values|] eqn:Hj.
  - rewrite decide_True by eauto. rewrite last_cons.
    destruct (last (filter _ l)); [done |]. by rewrite Hj.
  - rewrite decide_False; [done |]. by intros [? ?].
Qed.

Lemma lower_end_succ (curveData : gmap Z (list float)) (i : Z) :
  0 ≤ i →
  spec.lower_end curveData (i + 1) =
    match spec.defined_avg curveData i with
    | Some avg => (i, avg)
    | None => spec.lower_end curveData i
    end.
Proof.
  intros Hi. unfold spec.lower_end.
  replace (Z.to_nat (i + 1)) with (S (Z.to_nat i)) by lia.
  cbn [spec.nearest_lower]. replace (i + 1 - 1) with i by lia.
  by destruct (spec.defined_avg curveData i).
Qed.

Lemma choose_values_spec (curveData : gmap Z (list float)) (i : Z) (v : attach_vars) :
  0 ≤ i →
  (lastValueIdx v, lastValueAvg v) = spec.lower_end curveData i →
  (choose_values curveData i v).2 = spec.values_for curveData i ∧
  (lastValueIdx (choose_values curveData i v).1,
   lastValueAvg (choose_values curveData i v).1) = spec.lower_end curveData (i + 1).
Proof.
  intros Hi Hlow. rewrite lower_end_succ by done.
  unfold choose_values, spec.values_for, spec.defined_avg.
  rewrite find_next_last.
  destruct (curveData !! i) as [[|x xs]|] eqn:Hfound; cbn [default length].
  - (* stored, empty *)
    rewrite bool_decide_eq_true_2 by eauto. cbn [andb Z.of_nat Z.ltb Z.compare].
    destruct (last (spec.keys_from curveData i)) as [h|]; cbn [fst snd].
    + destruct (h =? i); cbn [fst snd lastValueIdx lastValueAvg].
      * done.
      * split; [| done]. unfold spec.interpolate. rewrite <- Hlow. reflexivity.
    + rewrite Z.eqb_refl. done.
  - (* stored, with values *)
    rewrite bool_decide_eq_true_2 by eauto.
    replace (0 <? Z.of_nat (length (x :: xs))) with true
      by (symmetry; apply Z.ltb_lt; cbn [length]; lia).
    done.
  - (* missing *)
    rewrite bool_decide_eq_false_2 by (by intros [? ?]). cbn [andb].
    destruct (last (spec.keys_from curveData i)) as [h|]; cbn [fst snd].
    + destruct (h =? i); cbn [fst snd lastValueIdx lastValueAvg].
      * done.
      * split; [| done]. unfold spec.interpolate. rewrite <- Hlow. reflexivity.
    + rewrite Z.eqb_refl. done.
Qed.

(** ** AttachFanCurveData: the outer loop *)

Lemma for_range_snoc {S : Type} (body : Z → S → result S) :
  ∀ (n : nat) (lo : Z) (s : S),
    for_range lo (Datatypes.S n) body s =
      s' ← for_range lo n body s; body (lo + Z.of_nat n) s'.
Proof.
  induction n as [|n IH]; intros lo s.
  - cbn [for_range mbind result_bind]. rewrite Z.add_0_r.
    destruct (body lo s); reflexivity.
  - change (for_range lo (Datatypes.S (Datatypes.S n)) body s)
      with (s' ← body lo s; for_range (lo + 1) (Datatypes.S n) body s').
    change (for_range lo (Datatypes.S n) body s)
      with (s' ← body lo s; for_range (lo + 1) n body s').
    destruct (body lo s) as [s1| |]; cbn [mbind result_bind]; [| done | done].
    rewrite IH. replace (lo + 1 + Z.of_nat n) with (lo + Z.of_nat (Datatypes.S n)) by lia.
    reflexivity.
Qed.

Section attach_facts.

Variable cfg : Configuration.
Variable curveData : gmap Z (list float).
Variable fan : HwMonFan.
Variable data0 : gmap Z rolling.PointPolicy.

Hypothesis size_nonneg : 0 ≤ RpmRollingWindowSize cfg.
Hypothesis fan_data : FanCurveData fan = Some data0.

(** After [n] rounds the windows of the PWMs below [n] are filled from the
    values of their rounds, and no other key is touched. *)
Lemma attach_rounds (n : nat) :
  ∃ v fan_n data_n,
    for_range 0 n (attach_round cfg curveData)
      ({| lastValueIdx := 0; lastValueAvg := 0%float;
          nextValueIdx := 0; nextValueAvg := 0%float |}, fan) = Ok (v, fan_n) ∧
    (lastValueIdx v, lastValueAvg v) = spec.lower_end curveData (Z.of_nat n) ∧
    FanCurveData fan_n = Some data_n ∧
    (∀ i, 0 ≤ i < Z.of_nat n →
       ∃ w, data_n !! i = Some w ∧
            rolling.window w = spec.window_values (RpmRollingWindowSize cfg)
                                 (spec.values_for curveData i)) ∧
    (∀ k, ¬ (0 ≤ k < Z.of_nat n) → data_n !! k = data0 !! k).
Proof.
  induction n as [|n (v & fan_n & data_n & Hrun & Hlow & Hdata & Hfilled & Hother)].
  - eexists _, fan, data0. split; [reflexivity |]. split; [reflexivity |].
    split; [done |]. split; [intros i Hi; lia | done].
  - rewrite for_range_snoc, Hrun. cbn [mbind result_bind]. rewrite Z.add_0_l.
    unfold attach_round.
    destruct (choose_values_spec curveData (Z.of_nat n) v) as [Hvalues Hlow'];
      [lia | done |].
    destruct (choose_values curveData (Z.of_nat n) v) as [v' pointValues].
    cbn [fst snd] in Hvalues, Hlow'.
    destruct (fill_fresh_window (RpmRollingWindowSize cfg) pointValues size_nonneg)
      as (w0 & avg & w & -> & Hfill & Hwindow).
    cbn [mbind result_bind]. rewrite Hfill. cbn [mbind result_bind]. rewrite Hdata.
    eexists v', _, (<[Z.of_nat n := w]> data_n). split; [reflexivity |].
    split; [by replace (Z.of_nat (S n)) with (Z.of_nat n + 1) by lia |].
    split; [reflexivity |]. split.
    + intros i Hi. destruct (decide (i = Z.of_nat n)) as [-> | Hne].
      * exists w. rewrite lookup_insert_eq. split; [done |]. by rewrite Hwindow, Hvalues.
      * rewrite lookup_insert_ne by done. apply Hfilled. lia.
    + intros k Hk. rewrite lookup_insert_ne by lia. apply Hother. lia.
Qed.

(** Data that is not empty is attached: the call returns without error, the
    windows of PWM 0 to 255 are filled from the values of their rounds, the
    other keys of the fan's data stay, and the boundaries are those of the
    resulting data. *)
Lemma AttachFanCurveData_attaches :
  curveData ≠ ∅ →
  ∃ fan' data' startPwm maxPwm,
    AttachFanCurveData cfg (Some curveData) fan = Ok (None, fan') ∧
    FanCurveData fan' = Some data' ∧
    (∀ i, 0 ≤ i ≤ limit →
       ∃ w, data' !! i = Some w ∧
            rolling.window w = spec.window_values (RpmRollingWindowSize cfg)
                                 (spec.values_for curveData i)) ∧
    (∀ k, ¬ (0 ≤ k ≤ limit) → data' !! k = data0 !! k) ∧
    (data' ≠ ∅ ∧ spec.derived_max_pwm data' maxPwm ∧ spec.derived_start_pwm data' startPwm) ∧
    MinPwm fan' = startPwm ∧ StartPwm fan' = startPwm ∧ MaxPwm fan' = maxPwm.
Proof.
  intros Hne. unfold AttachFanCurveData. rewrite decide_False by done.
  destruct (attach_rounds (Z.to_nat (limit + 1)))
    as (v & fan_n & data_n & -> & _ & Hdata & Hfilled & Hother).
  cbn [mbind result_bind].
assert (Hnonempty : data_n ≠ ∅).
{ intros ->. destruct (Hfilled 0) as (w & Hw & _); [unfold limit; lia |].
  by rewrite lookup_empty in Hw. }
rewrite (GetPwmBoundaries_with_data fan_n data_n Hdata Hnonempty).
destruct (boundaries_of_data data_n) as (r & maxPwm & startPwm & -> & Hderived).
cbn [mbind result_bind].
  eexists _, data_n, startPwm, maxPwm. split; [reflexivity |].
  split; [exact Hdata |].
  split; [intros i Hi; apply Hfilled; unfold limit in *; lia |].
  split; [intros k Hk; apply Hother; unfold limit in *; lia |].
  split; [split; [done | by apply Hderived] |]. done.
Qed.

End attach_facts.

(** ** AttachFanCurveData on dense data *)

Lemma dense_not_empty (curveData : gmap Z (list float)) :
  spec.dense curveData → curveData ≠ ∅.
Proof.
  intros Hdense ->. destruct (Hdense 0) as (v & vs & Hv); [unfold limit; lia |].
  by rewrite lookup_empty in Hv.
Qed.

Lemma values_for_defined (curveData : gmap Z (list float)) (i : Z) (v : float)
    (vs : list float) :
  curveData !! i = Some (v :: vs) → spec.values_for curveData i = v :: vs.
Proof. intros Hi. unfold spec.values_for. by rewrite Hi. Qed.

(** Past the given values, the rounds append the running average. *)
Lemma fill_values_padding (pointValues : list float) :
  ∀ (n : nat) (k : Z) (currentAvg : float),
    0 < k → Z.of_nat (length pointValues) ≤ k →
    spec.fill_values n k currentAvg pointValues = spec.padding n currentAvg.
Proof.
  induction n as [|n IH]; intros k currentAvg Hk Hlen; [done |].
  cbn [spec.fill_values spec.padding].
  replace (k <? Z.of_nat (length pointValues)) with false
    by (symmetry; apply Z.ltb_ge; lia).
  replace (k =? 0) with false by (symmetry; apply Z.eqb_neq; lia).
  f_equal. apply IH; lia.
Qed.

Lemma fill_values_rest (rest : list float) :
  ∀ (given : list float) (currentAvg : float) (m : nat),
    given ≠ [] →
    spec.fill_values (length rest + m) (Z.of_nat (length given)) currentAvg
      (given ++ rest)
    = rest ++ spec.padding m
                (fold_left (λ avg rpm, ((avg + rpm) / 2)%float) rest currentAvg).
Proof.
  induction rest as [|v rest IH]; intros given currentAvg m Hne.
  - cbn [length Nat.add app fold_left]. rewrite app_nil_r.
    apply fill_values_padding; [destruct given; [done | cbn [length]; lia] | lia].
  - cbn [length Nat.add spec.fill_values].
    replace (Z.of_nat (length given) <? Z.of_nat (length (given ++ v :: rest)))
      with true
      by (symmetry; apply Z.ltb_lt; rewrite length_app; cbn [length]; lia).
    rewrite Nat2Z.id, list_lookup_middle by done. cbn [default].
    replace (Z.of_nat (length given) =? 0) with false
      by (symmetry; apply Z.eqb_neq; destruct given; [done | cbn [length]; lia]).
    cbn [app fold_left]. f_equal.
    specialize (IH (given ++ [v]) ((currentAvg + v) / 2)%float m).
    rewrite <- app_assoc, length_app in IH. cbn [app length] in IH.
    replace (Z.of_nat (length given) + 1) with (Z.of_nat (length given + 1)) by lia.
    apply IH. by destruct given.
Qed.

(** A window of more buckets than values holds the given values, then the
    running averages. *)
Lemma window_values_padded (size : Z) (pointValues : list float) :
  pointValues ≠ [] → Z.of_nat (length pointValues) ≤ size →
  spec.window_values size pointValues
  = pointValues ++ spec.padding (Z.to_nat size - length pointValues)
                     (spec.running_average pointValues).
Proof.
  destruct pointValues as [|value values]; [done |]. intros _ Hlen.
  cbn [length] in Hlen. unfold spec.window_values.
  remember (Z.to_nat size - length (value :: values))%nat as m eqn:Hm.
  replace (Z.to_nat size) with (S (length values + m))
    by (cbn [length] in Hm; lia).
  cbn [spec.fill_values]. 
  replace (0 <? Z.of_nat (length (value :: values))) with true
    by (symmetry; apply Z.ltb_lt; cbn [length]; lia).
  cbn [Z.to_nat lookup list_lookup default Z.eqb app spec.running_average].
  f_equal. apply (fill_values_rest values [value] value); done.
Qed.

(** C8, as amended: on dense data no value is interpolated and the call
    returns without error; the window of every PWM is built from the values
    given for that PWM: the first [RpmRollingWindowSize] of them when there
    are more; all of them when there are fewer, followed by the running
    average of the given values and then, bucket by bucket, by the mean of
    that average with itself; and exactly the given values when their number
    is the window size. *)
Theorem dense_fill_keeps_given_values (cfg : Configuration)
    (curveData : gmap Z (list float)) (fan : HwMonFan)
    (data0 : gmap Z rolling.PointPolicy) :
  0 ≤ RpmRollingWindowSize cfg → FanCurveData fan = Some data0 →
  spec.dense curveData →
  ∃ fan' data',
    AttachFanCurveData cfg (Some curveData) fan = Ok (None, fan') ∧
    FanCurveData fan' = Some data' ∧
    ∀ i values, 0 ≤ i ≤ limit → curveData !! i = Some values →
      ∃ w, data' !! i = Some w ∧
        length (rolling.window w) = Z.to_nat (RpmRollingWindowSize cfg) ∧
        (RpmRollingWindowSize cfg ≤ Z.of_nat (length values) →
           rolling.window w = take (Z.to_nat (RpmRollingWindowSize cfg)) values) ∧
        (Z.of_nat (length values) ≤ RpmRollingWindowSize cfg →
           rolling.window w
           = values ++ spec.padding
                         (Z.to_nat (RpmRollingWindowSize cfg) - length values)
                         (spec.running_average values)) ∧
        (Z.of_nat (length values) = RpmRollingWindowSize cfg →
           rolling.window w = values).
Proof.
  intros Hsize Hdata Hdense.
  destruct (AttachFanCurveData_attaches cfg curveData fan data0 Hsize Hdata
              (dense_not_empty _ Hdense))
    as (fan' & data' & startPwm & maxPwm & Hrun & Hdata' & Hfilled & _).
  exists fan', data'. split; [done |]. split; [done |].
  intros i values Hi Hvalues.
  destruct (Hdense i Hi) as (v & vs & Hgiven).
  destruct (Hfilled i Hi) as (w & Hw & Hwindow).
  rewrite (values_for_defined _ _ _ _ Hgiven) in Hwindow.
  replace values with (v :: vs) by congruence.
  exists w. split; [done |]. rewrite Hwindow. split; [| split; [| split]].
  - unfold spec.window_values. apply length_fill_values.
  - intros Hmore. apply window_values_truncates. lia.
  - intros Hfewer. by apply window_values_padded.
  - apply window_values_exact.
Qed.

Lemma dense_data_dense : spec.dense samples.dense_data.
Proof.
  intros i Hi. eexists _, _. unfold samples.dense_data.
  apply elem_of_list_to_map_1.
  - rewrite <- list_fmap_compose. unfold compose. cbn [fst].
    rewrite list_fmap_id. apply NoDup_seqZ.
  - apply list_elem_of_fmap. exists i. split; [reflexivity |].
    apply elem_of_seqZ. unfold limit in Hi. lia.
Qed.

Lemma dense_fill_keeps_given_values_witness :
  ∃ fan' data',
    AttachFanCurveData (samples.config_with_window 3) (Some samples.dense_data)
      samples.auto_fan = Ok (None, fan') ∧
    FanCurveData fan' = Some data' ∧
    ∃ w, data' !! 128 = Some w ∧
         rolling.window w
         = [Float64.of_int 1000; Float64.of_int 1200; Float64.of_int 1100].
Proof.
  destruct (dense_fill_keeps_given_values (samples.config_with_window 3)
              samples.dense_data samples.auto_fan ∅)
    as (fan' & data' & Hrun & Hdata & Hwindows).
  - simpl. lia.
  - reflexivity.
  - exact dense_data_dense.
  - exists fan', data'. split; [exact Hrun |]. split; [exact Hdata |].
    destruct (Hwindows 128 [Float64.of_int 1000; Float64.of_int 1200])
      as (w & Hw & _ & _ & Hpadded & _).
    + unfold limit. lia.
    + vm_compute. reflexivity.
    + exists w. split; [exact Hw |]. rewrite Hpadded by (simpl; lia).
      vm_compute. reflexivity.
Defined.

(** C8, as worded, fails when the persisted lists are longer than the
    window: with two values per PWM and a window of one bucket, the window
    keeps the first value only. *)
Lemma dense_fill_drops_values :
  ¬ spec.dense_fill_is_noop (samples.config_with_window 1) samples.dense_data
      samples.auto_fan.
Proof.
  intros Hclaim.
  destruct (Hclaim dense_data_dense) as (fan' & data' & Hrun & Hdata & Hnoop).
  destruct (AttachFanCurveData_attaches (samples.config_with_window 1)
              samples.dense_data samples.auto_fan ∅)
    as (fan2 & data2 & _ & _ & Hrun2 & Hdata2 & Hfilled & _).
  - simpl. lia.
  - reflexivity.
  - exact (dense_not_empty _ dense_data_dense).
  - rewrite Hrun in Hrun2. injection Hrun2 as <-.
    rewrite Hdata in Hdata2. injection Hdata2 as <-.
    destruct (Hnoop 0 [Float64.of_int 1000; Float64.of_int 1200])
      as (w & Hw & Hwindow); [unfold limit; lia | vm_compute; reflexivity |].
    destruct (Hfilled 0) as (w2 & Hw2 & Hwindow2); [unfold limit; lia |].
    rewrite Hw in Hw2. injection Hw2 as <-.
    rewrite Hwindow in Hwindow2.
    apply (f_equal length) in Hwindow2. vm_compute in Hwindow2. discriminate.
Qed.

(** ** AttachFanCurveData on incomplete data *)

(** C3, as amended: a PWM with a non-empty persisted list gets a window of
    its own values.  A missing PWM with exactly one persisted key above it is
    filled with the linear interpolation between the average of the nearest
    lower PWM that has a non-empty list and the average of that key; when no
    lower PWM has a non-empty list the interpolation starts from RPM 0 at PWM
    0, the lowest average is not repeated. *)
Theorem fill_interpolates_to_single_higher_key (cfg : Configuration)
    (curveData : gmap Z (list float)) (fan : HwMonFan)
    (data0 : gmap Z rolling.PointPolicy) (i h : Z) :
  0 ≤ RpmRollingWindowSize cfg → FanCurveData fan = Some data0 →
  0 ≤ i ≤ limit → curveData !! i = None → spec.keys_from curveData i = [h] →
  ∃ fan' data',
    AttachFanCurveData cfg (Some curveData) fan = Ok (None, fan') ∧
    FanCurveData fan' = Some data' ∧
    (∀ j v vs, 0 ≤ j ≤ limit → curveData !! j = Some (v :: vs) →
       ∃ w, data' !! j = Some w ∧
            rolling.window w = spec.window_values (RpmRollingWindowSize cfg) (v :: vs)) ∧
    let value :=
      spec.interpolate i (spec.lower_end curveData i)
        (h, util.Avg (default [] (curveData !! h))) in
    ∃ w, data' !! i = Some w ∧
         rolling.window w = spec.window_values (RpmRollingWindowSize cfg) [value] ∧
         (((value + value) / 2)%float = value →
          rolling.window w = replicate (Z.to_nat (RpmRollingWindowSize cfg)) value).
Proof.
  intros Hsize Hdata Hi Hmissing Hkeys.
  assert (Hh : is_Some (curveData !! h)).
  { assert (Hin : h ∈ spec.keys_from curveData i) by (rewrite Hkeys; by left).
    unfold spec.keys_from in Hin. by apply list_elem_of_filter in Hin as [? _]. }
  assert (Hne : curveData ≠ ∅).
  { intros ->. destruct Hh as [? Hh]. by rewrite lookup_empty in Hh. }
  destruct (AttachFanCurveData_attaches cfg curveData fan data0 Hsize Hdata Hne)
    as (fan' & data' & startPwm & maxPwm & Hrun & Hdata' & Hfilled & _).
  exists fan', data'. split; [done |]. split; [done |]. split.
  - intros j v vs Hj Hgiven. destruct (Hfilled j Hj) as (w & Hw & Hwindow).
    exists w. split; [done |]. by rewrite Hwindow, (values_for_defined _ _ _ _ Hgiven).
  - cbv zeta. destruct (Hfilled i Hi) as (w & Hw & Hwindow).
    exists w. split; [done |].
    assert (Hvalues : spec.values_for curveData i =
              [spec.interpolate i (spec.lower_end curveData i)
                 (h, util.Avg (default [] (curveData !! h)))]).
    { unfold spec.values_for. rewrite Hmissing, Hkeys. cbn [last].
      replace (h =? i) with false; [done |].
      symmetry. apply Z.eqb_neq. intros ->. rewrite Hmissing in Hh. by destruct Hh. }
    rewrite Hwindow, Hvalues. split; [done |]. apply window_values_single.
Qed.

Lemma fill_interpolates_to_single_higher_key_witness :
  ∃ fan' data' w,
    AttachFanCurveData (samples.config_with_window 1) (Some samples.sparse_data)
      samples.auto_fan = Ok (None, fan') ∧
    FanCurveData fan' = Some data' ∧ data' !! 5 = Some w ∧
    rolling.window w = [Float64.of_int 50].
Proof.
  destruct (fill_interpolates_to_single_higher_key (samples.config_with_window 1)
              samples.sparse_data samples.auto_fan ∅ 5 10)
    as (fan' & data' & Hrun & Hdata & _ & w & Hw & Hwindow & _).
  - simpl. lia.
  - reflexivity.
  - unfold limit. lia.
  - reflexivity.
  - vm_compute. reflexivity.
  - exists fan', data', w. split; [exact Hrun |]. split; [exact Hdata |].
    split; [exact Hw |]. rewrite Hwindow. vm_compute. reflexivity.
Defined.

(** With several persisted keys above a missing PWM the interpolation aims at
    the highest of them, and above the highest key the windows hold zeros:
    with 100, 300 and 1000 RPM persisted for PWM 10, 20 and 40, PWM 15 is
    filled with 250 (between PWM 10 and PWM 40) and PWM 41 with 0. *)
Example fill_three_points :
  spec.window_values 1 (spec.values_for samples.three_points 15) = [Float64.of_int 250] ∧
  spec.window_values 1 (spec.values_for samples.three_points 30) = [Float64.of_int 650] ∧
  spec.window_values 1 (spec.values_for samples.three_points 41) = [0%float].
Proof. repeat split; vm_compute; reflexivity. Qed.

(** C3, as worded, fails below the lowest persisted PWM: with 100 RPM
    persisted for PWM 10 only, the window of PWM 5 is filled with 50, half
    way up from RPM 0 at PWM 0, not with the lowest average 100. *)
Lemma fill_below_lowest_key_ramps_from_zero :
  ¬ spec.fill_as_worded (samples.config_with_window 1) samples.sparse_data
      samples.auto_fan.
Proof.
  intros Hclaim.
  destruct (AttachFanCurveData_attaches (samples.config_with_window 1)
              samples.sparse_data samples.auto_fan ∅)
    as (fan' & data' & _ & _ & Hrun & Hdata & Hfilled & _).
  - simpl. lia.
  - reflexivity.
  - intros Hempty.
    apply (f_equal (λ m : gmap Z (list float), m !! 10)) in Hempty.
    vm_compute in Hempty. discriminate.
  - destruct (Hclaim fan' data' Hrun Hdata 5) as (w & value & Hw & Hvalue & Hall).
    + unfold limit. lia.
    + reflexivity.
    + destruct (Hfilled 5) as (w' & Hw' & Hwindow); [unfold limit; lia |].
      rewrite Hw in Hw'. injection Hw' as <-.
      vm_compute in Hvalue. injection Hvalue as <-.
      rewrite Hwindow in Hall.
      change (spec.window_values _ _) with [Float64.of_int 50] in Hall.
      apply Forall_cons in Hall as [Hhead _].
      apply (f_equal (λ x, PrimFloat.eqb x (Float64.of_int 100))) in Hhead.
      vm_compute in Hhead. discriminate.
Qed.

(** ** The PWM range of a fan *)

Lemma for_range_first_stops {S : Type} (body : Z → S → result S) (lo : Z) (n : nat)
    (s : S) :
  (∀ s', body lo s ≠ Ok s') → ∀ s', for_range lo (Datatypes.S n) body s ≠ Ok s'.
Proof.
  intros Hstop s'. cbn [for_range].
  destruct (body lo s) as [s1| |] eqn:Hbody; cbn [mbind result_bind]; try discriminate.
  by destruct (Hstop s1).
Qed.

(** A call that attaches data had a window size that is not negative and a
    fan with a curve-data map. *)
Lemma AttachFanCurveData_returns_inv (cfg : Configuration)
    (curveData : option (gmap Z (list float))) (fan fan' : HwMonFan) :
  AttachFanCurveData cfg curveData fan = Ok (None, fan') →
  ∃ cd data0, curveData = Some cd ∧ cd ≠ ∅ ∧ 0 ≤ RpmRollingWindowSize cfg ∧
              FanCurveData fan = Some data0.
Proof.
  unfold AttachFanCurveData.
  destruct curveData as [cd|]; [| destruct (Config fan); discriminate].
  destruct (decide (cd = ∅)) as [-> | Hne]; [destruct (Config fan); discriminate |].
  intros Hrun. exists cd.
  destruct (Z.ltb_spec (RpmRollingWindowSize cfg) 0) as [Hneg | Hsize].
  { exfalso. revert Hrun. replace (Z.to_nat (limit + 1)) with (S 255) by reflexivity.
    match goal with
    | |- context [for_range 0 (S 255) ?body ?s] =>
        destruct (for_range 0 (S 255) body s) as [[v fan_n]| |] eqn:Hloop
    end; cbn [mbind result_bind]; try discriminate.
    exfalso. revert Hloop. apply for_range_first_stops. intros s'.
    unfold attach_round, createRollingWindow, rolling.NewPointPolicy.
    replace (RpmRollingWindowSize cfg <? 0) with true by (symmetry; by apply Z.ltb_lt).
    discriminate. }
  destruct (FanCurveData fan) as [data0|] eqn:Hdata; [by eauto |].
  exfalso. revert Hrun. replace (Z.to_nat (limit + 1)) with (S 255) by reflexivity.
  match goal with
  | |- context [for_range 0 (S 255) ?body ?s] =>
      destruct (for_range 0 (S 255) body s) as [[v fan_n]| |] eqn:Hloop
  end; cbn [mbind result_bind]; try discriminate.
  exfalso. revert Hloop. apply for_range_first_stops. intros s'.
  unfold attach_round.
  destruct (choose_values cd 0 _) as [v' pointValues].
  destruct (fill_fresh_window (RpmRollingWindowSize cfg) pointValues Hsize)
    as (w0 & avg & w & -> & Hfill & _).
  cbn [mbind result_bind]. rewrite Hfill. cbn [mbind result_bind]. rewrite Hdata.
  discriminate.
Qed.

(** Attaching data to a fan whose keys are PWM values orders its PWM range
    and keeps its keys PWM values. *)
Lemma AttachFanCurveData_orders (cfg : Configuration)
    (curveData : option (gmap Z (list float))) (fan fan' : HwMonFan) :
  spec.keys_in_range fan →
  AttachFanCurveData cfg curveData fan = Ok (None, fan') →
  spec.pwm_ordered fan' ∧ spec.keys_in_range fan'.
Proof.
  intros Hkeys Hrun.
  destruct (AttachFanCurveData_returns_inv _ _ _ _ Hrun)
    as (cd & data0 & -> & Hne & Hsize & Hdata).
  destruct (AttachFanCurveData_attaches cfg cd fan data0 Hsize Hdata Hne)
    as (fan2 & data' & startPwm & maxPwm & Hrun2 & Hdata' & Hfilled & Hother
        & (_ & Hmax & Hstart) & Hmin' & Hstart' & Hmax').
  rewrite Hrun in Hrun2. injection Hrun2 as <-.
  assert (Hrange : ∀ k, is_Some (data' !! k) → 0 ≤ k ≤ 255).
  { intros k Hk. destruct (decide (0 ≤ k ≤ limit)) as [Hin | Hout]; [exact Hin |].
    rewrite (Hother k Hout) in Hk. by apply (Hkeys data0 k). }
  split.
  - unfold spec.pwm_ordered. rewrite Hmin', Hstart', Hmax'.
    destruct Hmax as [(wp & Hp & Hppos & Hpmax) | [-> Hnone]];
      destruct Hstart as [(Hlt & ws & Hs & Hspos & Hsmin) | [-> Hhigh]].
    + pose proof (Hrange maxPwm ltac:(eauto)). pose proof (Hrange startPwm ltac:(eauto)).
      pose proof (Hsmin maxPwm wp Hp Hppos). lia.
    + pose proof (Hrange maxPwm ltac:(eauto)).
      pose proof (Hhigh maxPwm wp Hp Hppos). lia.
    + pose proof (Hrange startPwm ltac:(eauto)). lia.
    + lia.
  - intros m k Hm Hk. rewrite Hdata' in Hm. injection Hm as <-. by apply Hrange.
Qed.

Section range_invariant.

Variable cfg : Configuration.
Variable updateSimpleMovingAvg : float → Z → float → float.

Lemma fan_step_in_range (a : nat) (g g' : Globals) :
  spec.fan_step cfg updateSimpleMovingAvg g g' → spec.in_range_at a g → spec.in_range_at a g'.
Proof.
  intros ([fanId pwm rpm | b curveData] & Hrun & Hvalid) (fan & Hfan & Hord & Hkeys);
    cbn [spec.run_op] in Hrun.
  - apply measureRpm_appends in Hrun
      as (a' & fan0 & data & w & fan' & data' & w' & _ & Hfan0 & Hdata & _ & Hfan'
          & Hdata' & Hw' & _ & Hother & _ & Hmin & Hstart & Hmax & Hrest).
    destruct (decide (a = a')) as [<- | Hne].
    + replace fan0 with fan in * by congruence.
      exists fan'. split; [done |]. split.
      * unfold spec.pwm_ordered in *. rewrite Hmin, Hstart, Hmax. done.
      * intros m k Hm Hk. rewrite Hdata' in Hm. injection Hm as <-.
        destruct (decide (k = pwm)) as [-> | Hk']; [done |].
        rewrite (Hother k Hk') in Hk. by apply (Hkeys data k).
    + exists fan. rewrite (Hrest a) by done. done.
  - destruct (fan_store g !! b) as [fan0|] eqn:Hfan0; [| discriminate].
    destruct (AttachFanCurveData cfg curveData fan0) as [[err fan']| |] eqn:Hattach;
      cbn [mbind result_bind] in Hrun; try discriminate.
    injection Hrun as <-. unfold spec.in_range_at. cbn [fan_store with_fan].
    destruct (decide (a = b)) as [<- | Hne].
    + replace fan0 with fan in * by congruence.
      rewrite lookup_insert_eq. exists fan'. split; [done |].
      destruct err as [e|].
      * enough (fan' = fan) as -> by done.
        revert Hattach. unfold AttachFanCurveData.
        destruct curveData as [cd|]; [destruct (decide (cd = ∅)) |].
        -- destruct (Config fan); [congruence | discriminate].
        -- destruct (for_range _ _ _ _) as [[? fan_n]| |];
             cbn [mbind result_bind]; try discriminate.
           destruct (GetPwmBoundaries fan_n) as [[? ?]| |];
             cbn [mbind result_bind]; discriminate.
        -- destruct (Config fan); [congruence | discriminate].
      * by apply (AttachFanCurveData_orders cfg curveData fan fan').
    + rewrite lookup_insert_ne by done. exists fan. done.
Qed.

Lemma fan_steps_in_range (a : nat) (g g' : Globals) :
  rtc (spec.fan_step cfg updateSimpleMovingAvg) g g' →
  spec.in_range_at a g → spec.in_range_at a g'.
Proof.
  induction 1 as [|g1 g2 g3 Hstep _ IH]; [done |].
  intros Hin. apply IH. by eapply fan_step_in_range.
Qed.

End range_invariant.

(** C7: when [AttachFanCurveData] has attached persisted data to a fan whose
    curve data was keyed by PWM values, the fan satisfies
    [0 ≤ MinPwm ≤ StartPwm ≤ MaxPwm ≤ 255], and so does the fan stored at
    that address after any number of further samples and loads. *)
Theorem pwm_range_ordered_after_attach (cfg : Configuration)
    (updateSimpleMovingAvg : float → Z → float → float)
    (g : Globals) (a : nat) (fan fan' : HwMonFan)
    (curveData : option (gmap Z (list float))) :
  spec.keys_in_range fan →
  AttachFanCurveData cfg curveData fan = Ok (None, fan') →
  spec.pwm_ordered fan' ∧
  ∀ g', rtc (spec.fan_step cfg updateSimpleMovingAvg) (with_fan a fan' g) g' →
        ∃ fan'', fan_store g' !! a = Some fan'' ∧ spec.pwm_ordered fan''.
Proof.
  intros Hkeys Hrun.
  destruct (AttachFanCurveData_orders cfg curveData fan fan' Hkeys Hrun) as [Hord Hkeys'].
  split; [exact Hord |]. intros g' Hsteps.
  destruct (fan_steps_in_range cfg updateSimpleMovingAvg a _ g' Hsteps)
    as (fan'' & Hfan'' & Hord'' & _).
  - exists fan'. split; [| done]. cbn. apply lookup_insert_eq.
  - eauto.
Qed.

Lemma fresh_fan_keys_in_range : spec.keys_in_range samples.auto_fan.
Proof.
  intros m k [= <-] [w Hw]. by rewrite lookup_empty in Hw.
Qed.

Lemma pwm_range_ordered_after_attach_witness :
  ∃ fan',
    AttachFanCurveData (samples.config_with_window 1) (Some samples.three_points)
      samples.auto_fan = Ok (None, fan') ∧
    spec.pwm_ordered fan'.
Proof.
  assert (Hrun : ∃ fan',
    AttachFanCurveData (samples.config_with_window 1) (Some samples.three_points)
      samples.auto_fan = Ok (None, fan')).
  { vm_compute. eexists. reflexivity. }
  destruct Hrun as [fan' Hrun]. exists fan'. split; [exact Hrun |].
  apply (pwm_range_ordered_after_attach (samples.config_with_window 1)
           (λ _ _ newValue, newValue) samples.one_fan 0%nat samples.auto_fan fan'
           (Some samples.three_points) fresh_fan_keys_in_range Hrun).
Defined.

(** * Further properties *)

(** ** createFans: the fans it builds *)

Section created_fans.

Variable FindFilesMatching : string → string → list string.
Variable GetLabel : string → string → string.
Variable GetPwmEnabled : HwMonFan → option Z.

(** What a returning loop has appended: one fan per output, the fan of the
    output at position [k] paired with the input at position [idx + k]. *)
Lemma createFans_loop_appends (devicePath : string) (inputs : list string) :
  ∀ (outputs : list string) (idx : nat) (fanList fanList' : list HwMonFan),
    createFans_loop GetLabel GetPwmEnabled devicePath inputs idx outputs fanList
      = Ok fanList' →
    ∃ news, fanList' = fanList ++ news ∧ length news = length outputs ∧
      ∀ k fan, news !! k = Some fan →
        ∃ output rpmInput,
          outputs !! k = Some output ∧ inputs !! (idx + k)%nat = Some rpmInput ∧
          spec.created_from (GetLabel devicePath output) output rpmInput fan ∧
          GetPwmEnabled (SetOriginalPwmEnabled 0 fan) = Some (OriginalPwmEnabled fan).
Proof.
  induction outputs as [|output outputs IH]; intros idx fanList fanList' Hrun.
  - injection Hrun as <-. exists []. rewrite app_nil_r. split; [done |].
    split; [done |]. intros k fan Hk. by rewrite lookup_nil in Hk.
  - cbn [createFans_loop] in Hrun.
    destruct (last_byte (Split_file output)) as [digit|] eqn:Hlast; [| discriminate].
    destruct (Atoi digit) as [index|] eqn:Hatoi; [| discriminate].
    destruct (inputs !! idx) as [rpmInput|] eqn:Hin; [| discriminate].
    match type of Hrun with
    | context [GetPwmEnabled ?f] =>
        set (fan0 := f) in *; destruct (GetPwmEnabled fan0) as [pwmEnabled|] eqn:Hen
    end; [| discriminate].
    apply IH in Hrun as (news & -> & Hlen & Hnews).
    exists (SetOriginalPwmEnabled pwmEnabled fan0 :: news).
    split; [by rewrite <- app_assoc |]. split; [cbn; by rewrite Hlen |].
    intros [|k] fan Hk.
    + injection Hk as <-. exists output, rpmInput.
      split; [done |]. split; [by rewrite Nat.add_0_r |].
      split; [| exact Hen].
      unfold spec.created_from. cbn. rewrite Hlast. cbn. rewrite Hatoi. done.
    + destruct (Hnews k fan Hk) as (o & r & Ho & Hr & Hfan).
      exists o, r. split; [done |]. split; [| done].
      by replace (idx + S k)%nat with (S idx + k)%nat by lia.
Qed.

Lemma createFans_loop_returns (devicePath : string) (inputs : list string) :
  (∀ fan, is_Some (GetPwmEnabled fan)) →
  ∀ (outputs : list string) (idx : nat) (fanList : list HwMonFan),
    (idx + length outputs ≤ length inputs)%nat →
    Forall spec.ends_in_digit outputs →
    ∃ fanList', createFans_loop GetLabel GetPwmEnabled devicePath inputs idx
                  outputs fanList = Ok fanList'.
Proof.
  intros Hread. induction outputs as [|output outputs IH]; intros idx fanList Hlen Hnames.
  - by eexists.
  - apply Forall_cons in Hnames as [(digit & Hlast & [index Hatoi]) Hnames].
    cbn [createFans_loop length] in *. rewrite Hlast, Hatoi.
    destruct (lookup_lt_is_Some_2 inputs idx) as [rpmInput ->]; [lia |].
    match goal with
    | |- context [GetPwmEnabled ?f] => destruct (Hread f) as [pwmEnabled ->]
    end.
    apply IH; [lia | done].
Qed.

(** X1: when the device directory holds at least as many fan inputs as pwm
    outputs, the pwm file names end in a digit and every [pwm_enable] can be
    read, [createFans] returns one fan per pwm output, in order; the fan at
    position [k] has the [k]-th pwm file as output and the [k]-th fan input
    as rpm input, whatever numbers the two file names carry, its index is
    the last digit of the pwm file name, and its original [pwm_enable] is
    the value read for it. *)
Theorem createFans_pairs_by_position (devicePath : string) :
  let inputs := FindFilesMatching devicePath "^fan[1-9]_input$" in
  let outputs := FindFilesMatching devicePath "^pwm[1-9]$" in
  (length outputs ≤ length inputs)%nat →
  Forall spec.ends_in_digit outputs →
  (∀ fan, is_Some (GetPwmEnabled fan)) →
  ∃ fanList,
    createFans FindFilesMatching GetLabel GetPwmEnabled devicePath = Ok fanList ∧
    length fanList = length outputs ∧
    ∀ k fan, fanList !! k = Some fan →
      outputs !! k = Some (PwmOutput fan) ∧ inputs !! k = Some (RpmInput fan) ∧
      last_byte (Split_file (PwmOutput fan)) ≫= Atoi = Some (Index fan) ∧
      GetPwmEnabled (SetOriginalPwmEnabled 0 fan) = Some (OriginalPwmEnabled fan).
Proof.
  intros inputs outputs Hlen Hnames Hread. unfold createFans. fold inputs outputs.
  destruct (createFans_loop_returns devicePath inputs Hread outputs 0 [])
    as [fanList Hrun]; [lia | done |].
  exists fanList. split; [done |].
  apply createFans_loop_appends in Hrun as (news & -> & Hnews & Hfans).
  split; [done |]. intros k fan Hk.
  destruct (Hfans k fan Hk) as (o & r & Ho & Hr & Hfrom & Hen).
  destruct Hfrom as (_ & _ & Hidx & <- & <- & _).
  done.
Qed.

(** X2: every fan [createFans] returns starts with the PWM range 0 to 255,
    an empty curve-data map, the last-set sentinel -10 and no configuration;
    so it has an ordered PWM range and PWM values as keys, which is what
    attaching curve data relies on. *)
Theorem createFans_fans_start_in_range (devicePath : string) (fanList : list HwMonFan) :
  createFans FindFilesMatching GetLabel GetPwmEnabled devicePath = Ok fanList →
  ∀ fan, fan ∈ fanList →
    MinPwm fan = 0 ∧ MaxPwm fan = 255 ∧ FanCurveData fan = Some ∅ ∧
    LastSetPwm fan = -10 ∧ Config fan = None ∧
    spec.pwm_ordered fan ∧ spec.keys_in_range fan.
Proof.
  intros Hrun fan Hin. unfold createFans in Hrun.
  apply createFans_loop_appends in Hrun as (news & -> & _ & Hfans).
  apply list_elem_of_lookup in Hin as [k Hk].
  destruct (Hfans k fan Hk) as (o & r & _ & _ & Hfrom & _).
  destruct Hfrom as (_ & _ & _ & _ & _ & _ & Hmin & Hstart & Hmax & Hdata & Hlast & Hcfg).
  unfold MinPwmValue, MaxPwmValue, InitialLastSetPwm in *.
  repeat (split; [done |]). split.
  - unfold spec.pwm_ordered. lia.
  - intros m key Hm [w Hw]. rewrite Hdata in Hm. injection Hm as <-.
    by rewrite lookup_empty in Hw.
Qed.

End created_fans.

Lemma createFans_pairs_by_position_witness :
  let probe := λ (_ pattern : string),
    if String.eqb pattern "^pwm[1-9]$"
    then ["/sys/class/hwmon/hwmon1/pwm2"]
    else ["/sys/class/hwmon/hwmon1/fan1_input"; "/sys/class/hwmon/hwmon1/fan2_input"] in
  ∃ fan, createFans probe (λ _ _, "label") (λ _, Some 2) "/sys/class/hwmon/hwmon1"
           = Ok [fan] ∧
         Index fan = 2 ∧ RpmInput fan = "/sys/class/hwmon/hwmon1/fan1_input".
Proof.
  cbv zeta.
  destruct (createFans_pairs_by_position
              (λ (_ pattern : string),
                 if String.eqb pattern "^pwm[1-9]$"
                 then ["/sys/class/hwmon/hwmon1/pwm2"]
                 else ["/sys/class/hwmon/hwmon1/fan1_input";
                       "/sys/class/hwmon/hwmon1/fan2_input"])
              (λ _ _, "label") (λ _, Some 2) "/sys/class/hwmon/hwmon1")
    as (fanList & Hrun & _ & _).
  - simpl. lia.
  - simpl. repeat constructor. eexists. split; [reflexivity | vm_compute; eauto].
  - intros fan. eauto.
  - rewrite Hrun. vm_compute in Hrun. injection Hrun as <-.
    eexists. split; [reflexivity |]. split; reflexivity.
Defined.

Lemma createFans_fans_start_in_range_witness :
  spec.pwm_ordered (samples.fresh_fan "/sys/class/hwmon/hwmon1" 1 "1" 2).
Proof.
  apply (createFans_fans_start_in_range
           (λ (_ pattern : string),
              if String.eqb pattern "^pwm[1-9]$"
              then ["/sys/class/hwmon/hwmon1/pwm1"]
              else ["/sys/class/hwmon/hwmon1/fan1_input"])
           (λ _ _, "pwm1") (λ _, Some 2) "/sys/class/hwmon/hwmon1"
           [samples.fresh_fan "/sys/class/hwmon/hwmon1" 1 "1" 2]).
  - vm_compute. reflexivity.
  - by left.
Defined.

(** ** findFanConfig: the order of the entries *)

(** The entries skipped before a match: they do not match, and those of type
    hwmon have parameters that unmarshal. *)
Lemma findFanConfig_in_skips (pre rest : list FanConfig)
    (controller : HwMonController) (fan : HwMonFan) :
  (∀ e, e ∈ pre → ¬ spec.fan_entry_matches controller (Index fan) e ∧
                  (FanConfig_Type e = TypeHwMon → FanConfig_Params e ≠ MalformedParams)) →
  findFanConfig_in (pre ++ rest) controller fan = findFanConfig_in rest controller fan.
Proof.
  induction pre as [|e pre IH]; intros Hpre; [done |].
  assert (Htail : ∀ e', e' ∈ pre →
            ¬ spec.fan_entry_matches controller (Index fan) e' ∧
            (FanConfig_Type e' = TypeHwMon → FanConfig_Params e' ≠ MalformedParams)).
  { intros e' Hin. apply Hpre. by right. }
  destruct (Hpre e) as [Hno Hwf]; [by left |].
  cbn [app findFanConfig_in]. unfold spec.fan_entry_matches in Hno.
  destruct (FanConfig_Type e) eqn:Hty; try by apply IH.
  destruct (FanConfig_Params e) as [platform index|] eqn:Hpar; [| by destruct Hwf].
  destruct (bool_decide (Platform controller = platform)) eqn:Hp;
    [apply bool_decide_eq_true in Hp | by apply IH].
  destruct (bool_decide (Index fan = index)) eqn:Hi;
    [apply bool_decide_eq_true in Hi | by apply IH].
  destruct Hno. subst. done.
Qed.

(** X3: [findFanConfig] returns the first entry of the configuration, in
    its order, that is of type hwmon and carries the controller's platform
    and the fan's index, also when later entries match as well; an hwmon
    entry with parameters that do not unmarshal ends the process when the
    search reaches it, that is when no entry before it matches. *)
Theorem findFanConfig_first_match (cfg : Configuration)
    (controller : HwMonController) (fan : HwMonFan)
    (pre post : list FanConfig) (entry : FanConfig) :
  Fans cfg = pre ++ entry :: post →
  (∀ e, e ∈ pre → ¬ spec.fan_entry_matches controller (Index fan) e ∧
                  (FanConfig_Type e = TypeHwMon → FanConfig_Params e ≠ MalformedParams)) →
  (spec.fan_entry_matches controller (Index fan) entry →
   findFanConfig cfg controller fan = Ok (Some entry)) ∧
  (FanConfig_Type entry = TypeHwMon → FanConfig_Params entry = MalformedParams →
   findFanConfig cfg controller fan
     = Fatal "Couldn't unmarshal fan parameter configuration: %v").
Proof.
  intros Hcfg Hpre. unfold findFanConfig. rewrite Hcfg.
  rewrite (findFanConfig_in_skips pre (entry :: post) controller fan Hpre).
  cbn [findFanConfig_in]. split.
  - intros [-> ->]. by rewrite !bool_decide_eq_true_2.
  - intros -> ->. done.
Qed.

Lemma findFanConfig_first_match_witness :
  findFanConfig samples.board_config
    {| Controller_Name := "amdgpu"; DType := ""; Modalias := "";
       Platform := "amdgpu"; Path := samples.hwmon1;
       Controller_Fans := []; Controller_Sensors := [] |}
    (samples.fresh_fan samples.hwmon1 1 "1" 2)
  = Ok (Some samples.ghost_fan).
Proof.
  apply (findFanConfig_first_match samples.board_config _ _
           [samples.config_of "cpu_fan" "nct6798" 1] [] samples.ghost_fan).
  - reflexivity.
  - intros e ->%list_elem_of_singleton. split; [| discriminate].
    intros [_ Hparams]. discriminate Hparams.
  - split; reflexivity.
Defined.

(** ** Restoring a fan: what is logged *)

(** X4: the interrupt function of a fan controller makes at most two writes
    to the fan; it logs an error exactly when the controller ended with one,
    and it warns that the fan could not be restored exactly when the write
    of PWM 255 was made and failed. *)
Theorem restore_logs (fan : HwMonFan) (answer : action → option error)
    (err : option error) :
  (length (device_calls answer (restore fan err)) ≤ 2)%nat ∧
  (Ui UiError ∈ calls answer (restore fan err) ↔ is_Some err) ∧
  (Ui UiWarning ∈ calls answer (restore fan err) ↔
     SetPwm 255 ∈ calls answer (restore fan err) ∧ is_Some (answer (SetPwm 255))).
Proof.
  unfold device_calls, restore, restore_max, MaxPwmValue.
  destruct err as [e|]; cbn [calls];
    destruct (OriginalPwmEnabled fan =? 1); cbn [negb calls];
    try destruct (answer (SetPwmEnabled (OriginalPwmEnabled fan))) as [e1|]; cbn [calls];
    destruct (answer (SetPwm 255)) as [e2|] eqn:H255; cbn [calls];
    (split; [vm_compute; lia |]);
    rewrite ?elem_of_cons, ?elem_of_nil; split; split; intros H;
    repeat match goal with
      | H : _ ∧ _ |- _ => destruct H
      | H : _ ∨ _ |- _ => destruct H
      | H : is_Some None |- _ => destruct H as [? H]; discriminate H
      | H : False |- _ => destruct H
      | H : _ = _ |- _ => discriminate H
      | |- _ ∧ _ => split
      | |- is_Some (Some _) => eexists; reflexivity
      end; auto 6.
Qed.

(** ** MapConfigToControllers: the bindings of FanMap *)

(** A returning loop over a list keeps an invariant on the prefix it has
    processed. *)
Lemma for_each_returns_inv {A S : Type} (body : A → S → result S)
    (I : list A → S → Prop) (l : list A) (s s' : S) :
  for_each body l s = Ok s' →
  I [] s →
  (∀ pre x post s0 s1, l = pre ++ x :: post → I pre s0 → body x s0 = Ok s1 →
                       I (pre ++ [x]) s1) →
  I l s'.
Proof.
  intros Hrun Hinit Hstep.
  enough (Hgen : ∀ rest pre s0, l = pre ++ rest → I pre s0 →
                   for_each body rest s0 = Ok s' → I l s').
  { by apply (Hgen l [] s). }
  induction rest as [|x rest IH]; intros pre s0 Hl Hpre Hrest.
  - injection Hrest as <-. by rewrite Hl, app_nil_r.
  - cbn [for_each] in Hrest.
    destruct (body x s0) as [s1| |] eqn:Hbody; cbn [mbind result_bind] in Hrest;
      try discriminate.
    apply (IH (pre ++ [x]) s1); [by rewrite <- app_assoc | | done].
    by eapply Hstep.
Qed.

Section fan_bindings.

Variable cfg : Configuration.
Variable GetValue : HwmonSensor → option float.

Lemma map_fan_binding (processed : list nat) (controller : HwMonController)
    (a : nat) (g g' : Globals) :
  a ∉ processed → spec.binding_inv processed g →
  map_fan cfg controller a g = Ok g' → spec.binding_inv (processed ++ [a]) g'.
Proof.
  intros Hfresh [Hbound Hconf] Hrun. unfold map_fan in Hrun.
  destruct (fan_store g !! a) as [fan|] eqn:Hfan; [| discriminate].
  destruct (findFanConfig cfg controller fan) as [[fc|]| |];
    cbn [mbind result_bind] in Hrun; try discriminate; injection Hrun as <-.
  - assert (Hunbound : ∀ id, FanMap g !! id ≠ Some a).
    { intros id Hid. destruct (Hbound id a Hid) as (fan' & fc' & Hfan' & Hcfg' & _).
      by destruct (Hconf a fan' fc' Hfan' Hcfg'). }
    split.
    + intros id b. cbn. destruct (decide (FanConfig_Id fc = id)) as [<- | Hne].
      * rewrite lookup_insert_eq. intros [= <-].
        exists (SetConfig fc fan), fc. by rewrite lookup_insert_eq.
      * rewrite lookup_insert_ne by done. intros Hid.
        destruct (Hbound id b Hid) as (fan' & fc' & Hfan' & Hcfg' & Hid').
        exists fan', fc'. rewrite lookup_insert_ne; [done |].
        intros <-. by apply (Hunbound id).
    + intros b fan' fc'. cbn. destruct (decide (a = b)) as [<- | Hne].
      * rewrite lookup_insert_eq. intros [= <-] [= <-].
        split; [apply elem_of_app; right; by left |].
        rewrite lookup_insert_eq. by eexists.
      * rewrite lookup_insert_ne by done. intros Hfan' Hcfg'.
        destruct (Hconf b fan' fc' Hfan' Hcfg') as [Hin Hsome].
        split; [apply elem_of_app; by left |].
        destruct (decide (FanConfig_Id fc = FanConfig_Id fc')) as [-> | Hid].
        -- rewrite lookup_insert_eq. by eexists.
        -- by rewrite lookup_insert_ne.
  - split; [done |]. intros b fan' fc' Hfan' Hcfg'.
    destruct (Hconf b fan' fc' Hfan' Hcfg'). split; [apply elem_of_app; by left | done].
Qed.

Lemma map_sensor_keeps_fans (controller : HwMonController) (a : nat) (g g' : Globals) :
  map_sensor cfg GetValue controller a g = Ok g' →
  fan_store g' = fan_store g ∧ FanMap g' = FanMap g.
Proof.
  unfold map_sensor. destruct (sensor_store g !! a) as [sensor|]; [| discriminate].
  destruct (findSensorConfig cfg controller sensor) as [[sc|]| |];
    cbn [mbind result_bind]; try discriminate.
  - cbv zeta. destruct (GetValue (Sensor_SetConfig sc sensor)); [| discriminate].
    by intros [= <-].
  - by intros [= <-].
Qed.

Lemma binding_inv_consistent (processed : list nat) (g : Globals) :
  spec.binding_inv processed g → spec.FanMap_consistent g.
Proof.
  intros [Hbound Hconf]. split; [exact Hbound |].
  intros a fan fc Hfan Hcfg. by destruct (Hconf a fan fc Hfan Hcfg).
Qed.

Lemma MapConfigToControllers_binding
    (controllers : list HwMonController) (g g' : Globals) :
  NoDup (controllers ≫= Controller_Fans) →
  FanMap g = ∅ →
  (∀ a fan, fan_store g !! a = Some fan → Config fan = None) →
  MapConfigToControllers cfg GetValue controllers g = Ok g' →
  spec.binding_inv (controllers ≫= Controller_Fans) g'.
Proof.
  intros Hnodup Hempty Hunconf Hrun.
  unfold MapConfigToControllers in Hrun.
  apply (for_each_returns_inv _
           (λ pre g1, spec.binding_inv (pre ≫= Controller_Fans) g1) _ _ _ Hrun).
  { split.
    - intros id a. by rewrite Hempty, lookup_empty.
    - intros a fan fc Hfan Hcfg. by rewrite (Hunconf a fan Hfan) in Hcfg. }
  intros pre controller post g0 g2 Hsplit Hpre Hbody.
  destruct (for_each (map_fan cfg controller) (Controller_Fans controller) g0)
    as [g1| |] eqn:Hfans; cbn [mbind result_bind] in Hbody; try discriminate.
  assert (Hg1 : spec.binding_inv ((pre ≫= Controller_Fans) ++ Controller_Fans controller) g1).
  { apply (for_each_returns_inv _
             (λ done_fans g1, spec.binding_inv ((pre ≫= Controller_Fans) ++ done_fans) g1)
             _ _ _ Hfans).
    - by rewrite app_nil_r.
    - intros done_fans a rest g3 g4 Hfansplit Hdone Hmap.
      rewrite app_assoc. eapply map_fan_binding; [| exact Hdone | exact Hmap].
      rewrite Hsplit, bind_app, bind_cons, Hfansplit in Hnodup.
      apply NoDup_app in Hnodup as (_ & Hdisj & Hright).
      apply NoDup_app in Hright as (Hc & _ & _).
      apply NoDup_app in Hc as (_ & Hpre_a & _).
      intros [Hin | Hin]%elem_of_app.
      + apply (Hdisj a Hin). apply elem_of_app. left. apply elem_of_app. right. by left.
      + apply (Hpre_a a Hin). by left. }
  rewrite bind_app, bind_cons.
  change ([] ≫= Controller_Fans) with (@nil nat). rewrite app_nil_r.
  enough (Hsame : fan_store g2 = fan_store g1 ∧ FanMap g2 = FanMap g1).
  { destruct Hsame as [Hs Hm]. unfold spec.binding_inv. rewrite Hs, Hm. exact Hg1. }
  apply (for_each_returns_inv _
           (λ _ g3, fan_store g3 = fan_store g1 ∧ FanMap g3 = FanMap g1) _ _ _ Hbody);
    [done |].
  intros _ a _ g3 g4 _ [Hs Hm] Hmap.
  apply map_sensor_keeps_fans in Hmap as [-> ->]. done.
Qed.

(** X5: at startup, with no id bound yet, no fan configured yet and every
    fan listed by one controller only, a returning
    [MapConfigToControllers] leaves [FanMap] consistent with the fans: every
    id it binds refers to a stored fan whose configuration carries that id,
    and every configured fan has its id bound.  So the RPM monitor that
    [Run] starts for a configured fan finds a fan with a configuration
    behind its id. *)
Theorem MapConfigToControllers_binds_consistently
    (controllers : list HwMonController) (g g' : Globals) :
  NoDup (controllers ≫= Controller_Fans) →
  FanMap g = ∅ →
  (∀ a fan, fan_store g !! a = Some fan → Config fan = None) →
  MapConfigToControllers cfg GetValue controllers g = Ok g' →
  spec.FanMap_consistent g'.
Proof.
  intros Hnodup Hempty Hunconf Hrun.
  eapply binding_inv_consistent, MapConfigToControllers_binding; eassumption.
Qed.

End fan_bindings.

Lemma MapConfigToControllers_binds_consistently_witness :
  ∃ g', MapConfigToControllers samples.board_config samples.readable samples.board
          samples.board_objects = Ok g' ∧
        spec.FanMap_consistent g'.
Proof.
  eexists. split; [vm_compute; reflexivity |].
  apply (MapConfigToControllers_binds_consistently samples.board_config
           samples.readable samples.board samples.board_objects).
  - cbn. apply NoDup_singleton.
  - reflexivity.
  - intros a fan Hfan. cbn in Hfan.
    apply lookup_singleton_Some in Hfan as [_ <-]. reflexivity.
  - vm_compute. reflexivity.
Defined.

(** ** measureRpm and rpmMonitor: when sampling returns *)

Lemma Append_ready (value : float) (w : rolling.PointPolicy) :
  spec.window_ready w →
  ∃ w', rolling.Append value w = Ok w' ∧ spec.window_ready w'.
Proof.
  intros [Hoff Hlen]. unfold rolling.Append.
  rewrite bool_decide_eq_true_2 by (split; lia).
  eexists. split; [reflexivity |]. split; cbn.
  - pose proof (Z.rem_bound_pos (rolling.offset w + 1) (rolling.windowSize w)). lia.
  - by rewrite length_insert.
Qed.

Lemma createRollingWindow_ready (size : Z) :
  0 < size → ∃ w, createRollingWindow size = Ok w ∧ spec.window_ready w.
Proof.
  intros Hsize. unfold createRollingWindow, rolling.NewPointPolicy.
  replace (size <? 0) with false by (symmetry; apply Z.ltb_ge; lia).
  eexists. split; [reflexivity |]. split; cbn; [lia |]. by rewrite length_replicate.
Qed.

Section sampling_returns.

Variable cfg : Configuration.
Variable updateSimpleMovingAvg : float → Z → float → float.
Hypothesis size_positive : 0 < RpmRollingWindowSize cfg.

Lemma measureRpm_returns (fanId : string) (pwm rpm : Z) (g : Globals) :
  spec.sampling_ready g fanId →
  ∃ g', measureRpm cfg updateSimpleMovingAvg fanId pwm rpm g = Ok g' ∧
        ∀ fanId', spec.sampling_ready g fanId' → spec.sampling_ready g' fanId'.
Proof.
  intros (a & fan & data & Hid & Hfan & [fc Hcfg] & Hdata & Hready).
  unfold measureRpm. rewrite Hid. cbn [mbind option_bind]. rewrite Hfan.
  cbn [fmap option_fmap option_map]. rewrite Hcfg. cbn [FanCurveData SetRpmAvg].
  rewrite Hdata.
  assert (Hwindow : ∃ data1 w1,
    match data !! pwm with
    | Some pointWindow => Ok (data, pointWindow)
    | None =>
        pointWindow ← createRollingWindow (RpmRollingWindowSize cfg);
        Ok (<[pwm := pointWindow]> data, pointWindow)
    end = Ok (data1, w1) ∧ spec.window_ready w1 ∧
    ∀ k w, data1 !! k = Some w → spec.window_ready w).
  { destruct (data !! pwm) as [w|] eqn:Hw.
    - exists data, w. split; [done |]. split; [by eapply Hready | done].
    - destruct (createRollingWindow_ready _ size_positive) as (w & -> & Hw').
      exists (<[pwm := w]> data), w. split; [done |]. split; [done |].
      intros k w0. destruct (decide (pwm = k)) as [<- | Hne].
      + rewrite lookup_insert_eq. by intros [= <-].
      + rewrite lookup_insert_ne by done. apply Hready. }
  destruct Hwindow as (data1 & w1 & -> & Hw1 & Hready1). cbn [mbind result_bind].
  destruct (Append_ready (Float64.of_int rpm) w1 Hw1) as (w2 & -> & Hw2).
  cbn [mbind result_bind]. eexists. split; [reflexivity |].
  intros fanId' (a' & fan' & data' & Hid' & Hfan' & Hcfg' & Hdata' & Hready').
  destruct (decide (a = a')) as [<- | Hne].
  - eexists a, _, _. split; [done |]. cbn. rewrite lookup_insert_eq.
    split; [reflexivity |]. split; [by eexists |]. split; [reflexivity |].
    intros k w. destruct (decide (pwm = k)) as [<- | Hk].
    + rewrite lookup_insert_eq. by intros [= <-].
    + rewrite lookup_insert_ne by done. apply Hready1.
  - exists a', fan', data'. split; [done |]. cbn. rewrite lookup_insert_ne by done. done.
Qed.

(** X6: with a positive [RpmRollingWindowSize], the RPM monitor of a fan
    that is bound to its id, stored, configured and holds ready windows only
    (as the fans do that [createFans] builds and [MapConfigToControllers]
    binds) returns for every sequence of ticks and cancellations: no sample
    panics, and the fan can be sampled again afterwards. *)
Theorem rpmMonitor_returns (fanId : string) (events : list monitor_event) (g : Globals) :
  spec.sampling_ready g fanId →
  ∃ g', backend.rpmMonitor cfg updateSimpleMovingAvg fanId events g = Ok g' ∧
        spec.sampling_ready g' fanId.
Proof.
  revert g. induction events as [|[|pwm rpm] events IH]; intros g Hready.
  - by exists g.
  - by exists g.
  - cbn [backend.rpmMonitor].
    destruct (measureRpm_returns fanId pwm rpm g Hready) as (g1 & -> & Hkeep).
    cbn [mbind result_bind]. apply IH. by apply Hkeep.
Qed.

End sampling_returns.

Lemma one_fan_sampling_ready : spec.sampling_ready samples.one_fan "cpu_fan".
Proof.
  exists 0%nat, samples.auto_fan, ∅. split; [reflexivity |]. split; [reflexivity |].
  split; [by eexists |]. split; [reflexivity |].
  intros k w Hw. by rewrite lookup_empty in Hw.
Qed.

Lemma rpmMonitor_returns_witness :
  ∃ g', backend.rpmMonitor (samples.config_with_window 2) (λ _ _ newValue, newValue)
          "cpu_fan" [Tick 100 1200; Tick 100 1250; Tick 110 1300; CtxDone]
          samples.one_fan = Ok g' ∧
        spec.sampling_ready g' "cpu_fan".
Proof.
  apply (rpmMonitor_returns (samples.config_with_window 2) (λ _ _ newValue, newValue)).
  - simpl. lia.
  - exact one_fan_sampling_ready.
Defined.

(** X7: a sample for an id that [FanMap] does not bind panics on the nil
    fan; and when [RpmRollingWindowSize] is 0, the first sample at a PWM
    that has no window yet panics with an index out of range, because the
    window created for it has no bucket to write to (a negative size panics
    when the window is made). *)
Theorem measureRpm_panics (cfg : Configuration)
    (updateSimpleMovingAvg : float → Z → float → float)
    (fanId : string) (pwm rpm : Z) (g : Globals) :
  (FanMap g !! fanId = None →
   measureRpm cfg updateSimpleMovingAvg fanId pwm rpm g = Panic NilDereference) ∧
  (∀ a fan data,
     FanMap g !! fanId = Some a → fan_store g !! a = Some fan →
     is_Some (Config fan) → FanCurveData fan = Some data → data !! pwm = None →
     (RpmRollingWindowSize cfg = 0 →
      measureRpm cfg updateSimpleMovingAvg fanId pwm rpm g = Panic IndexOutOfRange) ∧
     (RpmRollingWindowSize cfg < 0 →
      measureRpm cfg updateSimpleMovingAvg fanId pwm rpm g
        = Panic MakeSliceLenOutOfRange)).
Proof.
  split.
  - intros Hid. unfold measureRpm. by rewrite Hid.
  - intros a fan data Hid Hfan [fc Hcfg] Hdata Hpwm.
    unfold measureRpm. rewrite Hid. cbn [mbind option_bind]. rewrite Hfan.
    cbn [fmap option_fmap option_map]. rewrite Hcfg. cbn [FanCurveData SetRpmAvg].
    rewrite Hdata, Hpwm. unfold createRollingWindow, rolling.NewPointPolicy. split.
    + intros ->. reflexivity.
    + intros Hneg. by replace (RpmRollingWindowSize cfg <? 0) with true
        by (symmetry; by apply Z.ltb_lt).
Qed.

Lemma measureRpm_panics_witness :
  measureRpm (samples.config_with_window 0) (λ _ _ newValue, newValue)
    "cpu_fan" 100 1200 samples.one_fan = Panic IndexOutOfRange.
Proof.
  apply (measureRpm_panics (samples.config_with_window 0) (λ _ _ newValue, newValue)
           "cpu_fan" 100 1200 samples.one_fan) with (a := 0%nat) (fan := samples.auto_fan)
           (data := ∅); try reflexivity.
  by eexists.
Defined.

(** ** GetPwmBoundaries: what the boundaries depend on *)

Lemma derived_max_pwm_unique (m : gmap Z rolling.PointPolicy) (p p' : Z) :
  spec.derived_max_pwm m p → spec.derived_max_pwm m p' → p = p'.
Proof.
  intros [(w & Hw & Hpos & Hmax) | [-> Hnone]] [(w' & Hw' & Hpos' & Hmax') | [-> Hnone']].
  - destruct (Hmax p' w' Hw') as [Hle Heq]. destruct (Hmax' p w Hw) as [Hle' Heq'].
    assert (avgRpm w = avgRpm w') by lia.
    pose proof (Heq ltac:(lia)). pose proof (Heq' ltac:(lia)). lia.
  - pose proof (Hnone' p w Hw). lia.
  - pose proof (Hnone p' w' Hw'). lia.
  - done.
Qed.

Lemma derived_start_pwm_unique (m : gmap Z rolling.PointPolicy) (s s' : Z) :
  spec.derived_start_pwm m s → spec.derived_start_pwm m s' → s = s'.
Proof.
  intros [(Hlt & w & Hw & Hpos & Hmin) | [-> Hhigh]]
         [(Hlt' & w' & Hw' & Hpos' & Hmin') | [-> Hhigh']].
  - pose proof (Hmin s' w' Hw' Hpos'). pose proof (Hmin' s w Hw Hpos). lia.
  - pose proof (Hhigh' s w Hw Hpos). lia.
  - pose proof (Hhigh s' w' Hw' Hpos'). lia.
  - done.
Qed.

(** The boundaries of a fan with data are those the data derives. *)
Lemma GetPwmBoundaries_characterized (fan : HwMonFan) (m : gmap Z rolling.PointPolicy)
    (startPwm maxPwm : Z) :
  FanCurveData fan = Some m → m ≠ ∅ →
  spec.derived_max_pwm m maxPwm → spec.derived_start_pwm m startPwm →
  GetPwmBoundaries fan = Ok (startPwm, maxPwm).
Proof.
  intros Hdata Hne Hmax Hstart.
  rewrite (GetPwmBoundaries_with_data fan m Hdata Hne).
  destruct (boundaries_of_data m) as (r & p & s & -> & Hmax' & Hstart').
  by rewrite (derived_max_pwm_unique m p maxPwm),
             (derived_start_pwm_unique m s startPwm).
Qed.

(** X8: for every fan with a curve-data map, whatever its keys and windows,
    [GetPwmBoundaries] returns a start PWM that is at most the max PWM and
    at most 255; the max PWM is 255 or a key of the data, and the start PWM
    is 0 (only without data), 255 or a key of the data. *)
Theorem GetPwmBoundaries_start_below_max (fan : HwMonFan)
    (m : gmap Z rolling.PointPolicy) :
  FanCurveData fan = Some m →
  ∃ startPwm maxPwm,
    GetPwmBoundaries fan = Ok (startPwm, maxPwm) ∧
    startPwm ≤ maxPwm ∧ startPwm ≤ 255 ∧
    (maxPwm = 255 ∨ is_Some (m !! maxPwm)) ∧
    (startPwm = 0 ∧ m = ∅ ∨ startPwm = 255 ∨ is_Some (m !! startPwm)).
Proof.
  intros Hdata. destruct (decide (m = ∅)) as [-> | Hne].
  - exists 0, 255. split; [| split; [lia | split; [lia | split; [by left | by left]]]].
    unfold GetPwmBoundaries. rewrite Hdata.
    by replace (sorted_keys ∅) with (@nil Z) by (symmetry; by apply sorted_keys_nil).
  - rewrite (GetPwmBoundaries_with_data fan m Hdata Hne).
    destruct (boundaries_of_data m) as (r & p & s & -> & Hmax & Hstart).
    exists s, p. split; [done |].
    destruct Hmax as [(wp & Hp & Hppos & Hpmax) | [-> Hnone]];
      destruct Hstart as [(Hlt & ws & Hs & Hspos & Hsmin) | [-> Hhigh]].
    + pose proof (Hsmin p wp Hp Hppos). split; [lia |]. split; [lia |]. eauto.
    + pose proof (Hhigh p wp Hp Hppos). split; [lia |]. split; [lia |]. eauto.
    + split; [lia |]. split; [lia |]. eauto.
    + split; [lia |]. split; [lia |]. eauto.
Qed.

Lemma GetPwmBoundaries_start_below_max_witness :
  ∃ startPwm maxPwm,
    GetPwmBoundaries samples.sampled_fan = Ok (startPwm, maxPwm) ∧ startPwm ≤ maxPwm.
Proof.
  destruct (GetPwmBoundaries_start_below_max samples.sampled_fan
              {[ 0 := samples.window_of 0%float;
                 60 := samples.window_of (Float64.of_int 900);
                 200 := samples.window_of (Float64.of_int 900) ]} eq_refl)
    as (startPwm & maxPwm & Hrun & Hle & _).
  exists startPwm, maxPwm. split; [exact Hrun | exact Hle].
Defined.

(** X9: once a fan has data, a new window whose truncated average is not
    positive (the fan stood still at that PWM) does not move the boundaries:
    [GetPwmBoundaries] returns the same start and max PWM with and without
    it.  Without data the first such window moves them from [(0, 255)] to
    [(255, 255)]. *)
Theorem GetPwmBoundaries_ignores_standstill (fan : HwMonFan)
    (m : gmap Z rolling.PointPolicy) (k : Z) (w : rolling.PointPolicy) :
  FanCurveData fan = Some m → m !! k = None → avgRpm w ≤ 0 →
  (m ≠ ∅ →
   GetPwmBoundaries (with_curve_data (<[k := w]> m) fan) = GetPwmBoundaries fan) ∧
  (m = ∅ →
   GetPwmBoundaries fan = Ok (0, 255) ∧
   GetPwmBoundaries (with_curve_data (<[k := w]> m) fan) = Ok (255, 255)).
Proof.
  intros Hdata Hfresh Hstill.
  assert (Hne' : <[k := w]> m ≠ ∅) by apply insert_non_empty.
  split.
  - intros Hne.
    rewrite (GetPwmBoundaries_with_data fan m Hdata Hne).
    destruct (boundaries_of_data m) as (r & p & s & -> & Hmax & Hstart).
    apply (GetPwmBoundaries_characterized _ (<[k := w]> m)); [done | done | |].
    + destruct Hmax as [(wp & Hp & Hppos & Hpmax) | [-> Hnone]].
      * left. exists wp. split; [| split; [done |]].
        { rewrite lookup_insert_ne; [done |]. intros <-. congruence. }
        intros k' w'. destruct (decide (k = k')) as [<- | Hk].
        -- rewrite lookup_insert_eq. intros [= <-]. split; lia.
        -- rewrite lookup_insert_ne by done. apply Hpmax.
      * right. split; [done |]. intros k' w'.
        destruct (decide (k = k')) as [<- | Hk].
        -- rewrite lookup_insert_eq. by intros [= <-].
        -- rewrite lookup_insert_ne by done. apply Hnone.
    + destruct Hstart as [(Hlt & ws & Hs & Hspos & Hsmin) | [-> Hhigh]].
      * left. split; [done |]. exists ws. split; [| split; [done |]].
        { rewrite lookup_insert_ne; [done |]. intros <-. congruence. }
        intros k' w'. destruct (decide (k = k')) as [<- | Hk].
        -- rewrite lookup_insert_eq. intros [= <-]. lia.
        -- rewrite lookup_insert_ne by done. apply Hsmin.
      * right. split; [done |]. intros k' w'.
        destruct (decide (k = k')) as [<- | Hk].
        -- rewrite lookup_insert_eq. intros [= <-]. lia.
        -- rewrite lookup_insert_ne by done. apply Hhigh.
  - intros ->. split.
    + unfold GetPwmBoundaries. rewrite Hdata.
      by replace (sorted_keys ∅) with (@nil Z) by (symmetry; by apply sorted_keys_nil).
    + apply (GetPwmBoundaries_characterized _ (<[k := w]> ∅)); [done | done | |].
      * right. split; [done |]. intros k' w'.
        destruct (decide (k = k')) as [<- | Hk].
        -- rewrite lookup_insert_eq. by intros [= <-].
        -- by rewrite lookup_insert_ne, lookup_empty.
      * right. split; [done |]. intros k' w'.
        destruct (decide (k = k')) as [<- | Hk].
        -- rewrite lookup_insert_eq. intros [= <-]. lia.
        -- by rewrite lookup_insert_ne, lookup_empty.
Qed.

Lemma GetPwmBoundaries_ignores_standstill_witness :
  GetPwmBoundaries
    (with_curve_data
       (<[30 := samples.window_of 0%float]>
          {[ 0 := samples.window_of 0%float;
             60 := samples.window_of (Float64.of_int 900);
             200 := samples.window_of (Float64.of_int 900) ]}) samples.sampled_fan)
  = GetPwmBoundaries samples.sampled_fan.
Proof.
  apply (GetPwmBoundaries_ignores_standstill samples.sampled_fan
           {[ 0 := samples.window_of 0%float;
              60 := samples.window_of (Float64.of_int 900);
              200 := samples.window_of (Float64.of_int 900) ]}
           30 (samples.window_of 0%float)).
  - reflexivity.
  - vm_compute. reflexivity.
  - vm_compute. discriminate.
  - intros Hempty.
    apply (f_equal (λ m : gmap Z rolling.PointPolicy, m !! 0)) in Hempty.
    vm_compute in Hempty. discriminate.
Defined.

(** ** AttachFanCurveData: errors, panics and what it overwrites *)

(** X10: given no data (a nil pointer or an empty map), [AttachFanCurveData]
    returns [os.ErrInvalid] and leaves a configured fan exactly as it was;
    for a fan without configuration the call panics instead, on the
    [fan.GetConfig().Id] of its error message. *)
Theorem AttachFanCurveData_rejects_empty (cfg : Configuration)
    (curveData : option (gmap Z (list float))) (fan : HwMonFan) :
  curveData = None ∨ curveData = Some ∅ →
  (is_Some (Config fan) →
   AttachFanCurveData cfg curveData fan = Ok (Some ErrInvalid, fan)) ∧
  (Config fan = None →
   AttachFanCurveData cfg curveData fan = Panic NilDereference).
Proof.
  intros [-> | ->]; unfold AttachFanCurveData;
    rewrite ?decide_True by done;
    (split; [intros [fc ->] | intros ->]; reflexivity).
Qed.

Lemma AttachFanCurveData_rejects_empty_witness :
  AttachFanCurveData (samples.config_with_window 3) (Some ∅) samples.auto_fan
    = Ok (Some ErrInvalid, samples.auto_fan).
Proof.
  apply (AttachFanCurveData_rejects_empty (samples.config_with_window 3) (Some ∅)
           samples.auto_fan); [by right | by eexists].
Defined.

Lemma for_range_first_panics {S : Type} (body : Z → S → result S) (lo : Z) (n : nat)
    (s : S) (p : panic) :
  body lo s = Panic p → for_range lo (Datatypes.S n) body s = Panic p.
Proof. intros Hbody. cbn [for_range]. by rewrite Hbody. Qed.

(** X11: given data that is not empty, [AttachFanCurveData] panics in its
    first round when [RpmRollingWindowSize] is negative (the window cannot
    be made) and when the fan's curve-data pointer is nil (the filled window
    cannot be stored); in both cases nothing is attached. *)
Theorem AttachFanCurveData_panics (cfg : Configuration)
    (curveData : gmap Z (list float)) (fan : HwMonFan) :
  curveData ≠ ∅ →
  (RpmRollingWindowSize cfg < 0 →
   AttachFanCurveData cfg (Some curveData) fan = Panic MakeSliceLenOutOfRange) ∧
  (0 ≤ RpmRollingWindowSize cfg → FanCurveData fan = None →
   AttachFanCurveData cfg (Some curveData) fan = Panic NilDereference).
Proof.
  intros Hne. unfold AttachFanCurveData. rewrite decide_False by done.
  replace (Z.to_nat (limit + 1)) with (S 255) by reflexivity. split.
  - intros Hneg. rewrite (for_range_first_panics _ _ _ _ MakeSliceLenOutOfRange); [done |].
    unfold attach_round, createRollingWindow, rolling.NewPointPolicy.
    by replace (RpmRollingWindowSize cfg <? 0) with true by (symmetry; by apply Z.ltb_lt).
  - intros Hsize Hnil. rewrite (for_range_first_panics _ _ _ _ NilDereference); [done |].
    unfold attach_round.
    destruct (choose_values curveData 0 _) as [v' pointValues].
    destruct (fill_fresh_window (RpmRollingWindowSize cfg) pointValues Hsize)
      as (w0 & avg & w & -> & Hfill & _).
    cbn [mbind result_bind]. rewrite Hfill. cbn [mbind result_bind]. by rewrite Hnil.
Qed.

Lemma AttachFanCurveData_panics_witness :
  AttachFanCurveData (samples.config_with_window 1) (Some samples.sparse_data)
    samples.fan_without_data = Panic NilDereference.
Proof.
  apply (AttachFanCurveData_panics (samples.config_with_window 1) samples.sparse_data
           samples.fan_without_data).
  - intros Hempty.
    apply (f_equal (λ m : gmap Z (list float), m !! 10)) in Hempty.
    vm_compute in Hempty. discriminate.
  - simpl. lia.
  - reflexivity.
Defined.

(** X12: after [AttachFanCurveData] has attached data, the fan has a window
    for every PWM of 0 to 255, each with exactly [RpmRollingWindowSize]
    buckets; [MinPwm] equals [StartPwm]; and [StartPwm] and [MaxPwm] are
    what [GetPwmBoundaries] returns for the fan as it now is. *)
Theorem AttachFanCurveData_fills_every_pwm (cfg : Configuration)
    (curveData : option (gmap Z (list float))) (fan fan' : HwMonFan) :
  AttachFanCurveData cfg curveData fan = Ok (None, fan') →
  (∃ data', FanCurveData fan' = Some data' ∧
     ∀ i, 0 ≤ i ≤ 255 →
       ∃ w, data' !! i = Some w ∧
            length (rolling.window w) = Z.to_nat (RpmRollingWindowSize cfg)) ∧
  MinPwm fan' = StartPwm fan' ∧
  GetPwmBoundaries fan' = Ok (StartPwm fan', MaxPwm fan').
Proof.
  intros Hrun.
  destruct (AttachFanCurveData_returns_inv _ _ _ _ Hrun)
    as (cd & data0 & -> & Hne & Hsize & Hdata).
  destruct (AttachFanCurveData_attaches cfg cd fan data0 Hsize Hdata Hne)
    as (fan2 & data' & startPwm & maxPwm & Hrun2 & Hdata' & Hfilled & _
        & (Hne' & Hmax & Hstart) & Hmin' & Hstart' & Hmax').
  rewrite Hrun in Hrun2. injection Hrun2 as <-.
  split; [| split].
  - exists data'. split; [done |]. intros i Hi.
    destruct (Hfilled i Hi) as (w & Hw & Hwindow). exists w. split; [done |].
    rewrite Hwindow. unfold spec.window_values. apply length_fill_values.
  - congruence.
  - rewrite Hstart', Hmax'.
    by apply (GetPwmBoundaries_characterized fan' data').
Qed.

Lemma AttachFanCurveData_fills_every_pwm_witness :
  ∃ fan',
    AttachFanCurveData (samples.config_with_window 1) (Some samples.three_points)
      samples.auto_fan = Ok (None, fan') ∧
    MinPwm fan' = StartPwm fan'.
Proof.
  assert (Hrun : ∃ fan',
    AttachFanCurveData (samples.config_with_window 1) (Some samples.three_points)
      samples.auto_fan = Ok (None, fan')).
  { vm_compute. eexists. reflexivity. }
  destruct Hrun as [fan' Hrun]. exists fan'. split; [exact Hrun |].
  apply (AttachFanCurveData_fills_every_pwm (samples.config_with_window 1)
           (Some samples.three_points) samples.auto_fan fan' Hrun).
Defined.

(** X13: the windows [AttachFanCurveData] leaves for PWM 0 to 255 depend on
    the persisted data and the window size only: whatever windows the fan
    held for these PWMs before (the samples of its RPM monitor) are
    replaced, while windows under keys outside 0 to 255 are kept. *)
Theorem AttachFanCurveData_replaces_samples (cfg : Configuration)
    (curveData : gmap Z (list float)) (fan1 fan2 fan1' fan2' : HwMonFan)
    (data1 data2 : gmap Z rolling.PointPolicy) :
  AttachFanCurveData cfg (Some curveData) fan1 = Ok (None, fan1') →
  AttachFanCurveData cfg (Some curveData) fan2 = Ok (None, fan2') →
  FanCurveData fan1 = Some data1 → FanCurveData fan2 = Some data2 →
  ∃ data1' data2',
    FanCurveData fan1' = Some data1' ∧ FanCurveData fan2' = Some data2' ∧
    (∀ i, 0 ≤ i ≤ 255 →
       ∃ w1 w2, data1' !! i = Some w1 ∧ data2' !! i = Some w2 ∧
                rolling.window w1 = rolling.window w2) ∧
    (∀ k, ¬ (0 ≤ k ≤ 255) → data1' !! k = data1 !! k ∧ data2' !! k = data2 !! k).
Proof.
  intros Hrun1 Hrun2 Hdata1 Hdata2.
  destruct (AttachFanCurveData_returns_inv _ _ _ _ Hrun1)
    as (cd & data0 & [= <-] & Hne & Hsize & _).
  destruct (AttachFanCurveData_attaches cfg curveData fan1 data1 Hsize Hdata1 Hne)
    as (f1 & data1' & _ & _ & Hr1 & Hd1 & Hfilled1 & Hother1 & _).
  destruct (AttachFanCurveData_attaches cfg curveData fan2 data2 Hsize Hdata2 Hne)
    as (f2 & data2' & _ & _ & Hr2 & Hd2 & Hfilled2 & Hother2 & _).
  rewrite Hrun1 in Hr1. injection Hr1 as <-.
  rewrite Hrun2 in Hr2. injection Hr2 as <-.
  exists data1', data2'. split; [done |]. split; [done |]. split.
  - intros i Hi. destruct (Hfilled1 i Hi) as (w1 & Hw1 & Hwin1).
    destruct (Hfilled2 i Hi) as (w2 & Hw2 & Hwin2).
    exists w1, w2. split; [done |]. split; [done |]. congruence.
  - intros k Hk. split; [by apply Hother1 | by apply Hother2].
Qed.

Lemma AttachFanCurveData_replaces_samples_witness :
  ∃ fan1' fan2',
    AttachFanCurveData (samples.config_with_window 1) (Some samples.sparse_data)
      samples.auto_fan = Ok (None, fan1') ∧
    AttachFanCurveData (samples.config_with_window 1) (Some samples.sparse_data)
      samples.sampled_fan = Ok (None, fan2').
Proof.
  assert (Hrun1 : ∃ fan',
    AttachFanCurveData (samples.config_with_window 1) (Some samples.sparse_data)
      samples.auto_fan = Ok (None, fan')).
  { vm_compute. eexists. reflexivity. }
  assert (Hrun2 : ∃ fan',
    AttachFanCurveData (samples.config_with_window 1) (Some samples.sparse_data)
      samples.sampled_fan = Ok (None, fan')).
  { vm_compute. eexists. reflexivity. }
  destruct Hrun1 as [fan1' Hrun1]. destruct Hrun2 as [fan2' Hrun2].
  destruct (AttachFanCurveData_replaces_samples (samples.config_with_window 1)
              samples.sparse_data samples.auto_fan samples.sampled_fan fan1' fan2'
              ∅ _ Hrun1 Hrun2 eq_refl eq_refl) as (data1' & data2' & _).
  exists fan1', fan2'. split; [exact Hrun1 | exact Hrun2].
Defined.

(** ** AttachFanCurveData: the ends of the interpolation *)

Lemma keys_from_empty (curveData : gmap Z (list float)) (i : Z) :
  (∀ j, i ≤ j ≤ limit → curveData !! j = None) → spec.keys_from curveData i = [].
Proof.
  intros Hnone. apply elem_of_nil_inv. intros j Hj.
  unfold spec.keys_from in Hj. apply list_elem_of_filter in Hj as [[v Hv] Hin].
  apply elem_of_seqZ in Hin. rewrite Hnone in Hv by lia. discriminate.
Qed.

(** The last persisted key from [i] on is the highest persisted key. *)
Lemma keys_from_last (curveData : gmap Z (list float)) (i h : Z) :
  i ≤ h ≤ limit → is_Some (curveData !! h) →
  (∀ j, h < j ≤ limit → curveData !! j = None) →
  last (spec.keys_from curveData i) = Some h.
Proof.
  intros Hih Hh Hnone. unfold spec.keys_from.
  replace (limit - i + 1) with ((h - i) + (1 + (limit - h))) by lia.
  rewrite seqZ_app by lia. rewrite (seqZ_app _ 1) by lia.
  replace (i + (h - i)) with h by lia.
  rewrite !filter_app.
  replace (filter _ (seqZ (h + 1) (limit - h))) with (@nil Z).
  2: { symmetry. apply elem_of_nil_inv. intros j Hj.
       apply list_elem_of_filter in Hj as [[v Hv] Hin].
       apply elem_of_seqZ in Hin. rewrite Hnone in Hv by lia. discriminate. }
  rewrite app_nil_r. rewrite (seqZ_cons h 1) by lia.
  rewrite (seqZ_nil _ (Z.pred 1)) by lia.
  rewrite filter_cons_True by done. apply last_snoc.
Qed.

Lemma window_values_nil (size : Z) :
  spec.window_values size [] = replicate (Z.to_nat size) 0%float.
Proof.
  unfold spec.window_values. generalize 0 as k. generalize (Z.to_nat size) as n.
  induction n as [|n IH]; intros k; [done |].
  cbn [spec.fill_values replicate length].
  replace (if k <? Z.of_nat 0 then default 0%float (@nil float !! Z.to_nat k)
           else 0%float) with 0%float
    by (destruct (k <? Z.of_nat 0); [by rewrite lookup_nil | done]).
  replace (if k =? 0 then 0%float else ((0 + 0) / 2)%float) with 0%float
    by (by destruct (k =? 0)).
  f_equal. apply IH.
Qed.

(** X14: a PWM without persisted values that has persisted keys above it is
    filled by interpolating toward the highest persisted key, not the
    nearest one: the interpolation runs from the nearest lower PWM with
    values (or from RPM 0 at PWM 0) to the average stored under the highest
    key of the data, whatever keys lie in between. *)
Theorem fill_interpolates_to_highest_key (cfg : Configuration)
    (curveData : gmap Z (list float)) (fan : HwMonFan)
    (data0 : gmap Z rolling.PointPolicy) (i h : Z) :
  0 ≤ RpmRollingWindowSize cfg → FanCurveData fan = Some data0 →
  0 ≤ i → i < h ≤ 255 →
  spec.defined_avg curveData i = None →
  is_Some (curveData !! h) → (∀ j, h < j ≤ 255 → curveData !! j = None) →
  ∃ fan' data' w,
    AttachFanCurveData cfg (Some curveData) fan = Ok (None, fan') ∧
    FanCurveData fan' = Some data' ∧ data' !! i = Some w ∧
    rolling.window w =
      spec.window_values (RpmRollingWindowSize cfg)
        [spec.interpolate i (spec.lower_end curveData i)
           (h, util.Avg (default [] (curveData !! h)))].
Proof.
  intros Hsize Hdata Hi Hh Hundefined Hkey Hnone.
  assert (Hne : curveData ≠ ∅).
  { intros ->. destruct Hkey as [? Hkey]. by rewrite lookup_empty in Hkey. }
  destruct (AttachFanCurveData_attaches cfg curveData fan data0 Hsize Hdata Hne)
    as (fan' & data' & _ & _ & Hrun & Hdata' & Hfilled & _).
  destruct (Hfilled i) as (w & Hw & Hwindow); [unfold limit; lia |].
  exists fan', data', w. split; [done |]. split; [done |]. split; [done |].
  rewrite Hwindow. f_equal. unfold spec.values_for.
  rewrite (keys_from_last curveData i h) by (unfold limit; first [lia | done]).
  replace (h =? i) with false by (symmetry; apply Z.eqb_neq; lia).
  unfold spec.defined_avg in Hundefined.
  by destruct (curveData !! i) as [[|v vs]|].
Qed.

Lemma fill_interpolates_to_highest_key_witness :
  ∃ fan' data' w,
    AttachFanCurveData (samples.config_with_window 1) (Some samples.three_points)
      samples.auto_fan = Ok (None, fan') ∧
    FanCurveData fan' = Some data' ∧ data' !! 15 = Some w ∧
    rolling.window w = [Float64.of_int 250].
Proof.
  destruct (fill_interpolates_to_highest_key (samples.config_with_window 1)
              samples.three_points samples.auto_fan ∅ 15 40)
    as (fan' & data' & w & Hrun & Hdata & Hw & Hwindow).
  - simpl. lia.
  - reflexivity.
  - lia.
  - lia.
  - reflexivity.
  - by eexists.
  - intros j Hj. unfold samples.three_points.
    rewrite !lookup_insert_ne by lia. apply lookup_singleton_ne. lia.
  - exists fan', data', w. split; [exact Hrun |]. split; [exact Hdata |].
    split; [exact Hw |]. rewrite Hwindow. vm_compute. reflexivity.
Defined.

(** X15: a PWM without persisted values that lies above every persisted key
    gets a window of zeros: the copy of the last point is made from the
    empty slice, so nothing of the highest average is carried over. *)
Theorem fill_above_highest_key_is_zero (cfg : Configuration)
    (curveData : gmap Z (list float)) (fan : HwMonFan)
    (data0 : gmap Z rolling.PointPolicy) (i : Z) :
  0 ≤ RpmRollingWindowSize cfg → FanCurveData fan = Some data0 →
  curveData ≠ ∅ → 0 ≤ i ≤ 255 →
  spec.defined_avg curveData i = None →
  (∀ j, i < j ≤ 255 → curveData !! j = None) →
  ∃ fan' data' w,
    AttachFanCurveData cfg (Some curveData) fan = Ok (None, fan') ∧
    FanCurveData fan' = Some data' ∧ data' !! i = Some w ∧
    rolling.window w = replicate (Z.to_nat (RpmRollingWindowSize cfg)) 0%float.
Proof.
  intros Hsize Hdata Hne Hi Hundefined Hnone.
  destruct (AttachFanCurveData_attaches cfg curveData fan data0 Hsize Hdata Hne)
    as (fan' & data' & _ & _ & Hrun & Hdata' & Hfilled & _).
  destruct (Hfilled i) as (w & Hw & Hwindow); [unfold limit; lia |].
  exists fan', data', w. split; [done |]. split; [done |]. split; [done |].
  rewrite Hwindow, <- window_values_nil. f_equal.
  unfold spec.values_for. unfold spec.defined_avg in Hundefined.
  destruct (curveData !! i) as [[|v vs]|] eqn:Hfound; [| done |].
  - rewrite (keys_from_last curveData i i); unfold limit; [| lia | by rewrite Hfound | done].
    by rewrite Z.eqb_refl.
  - rewrite keys_from_empty; [done |]. unfold limit. intros j Hj.
    destruct (decide (j = i)) as [-> | Hne']; [done | apply Hnone; lia].
Qed.

Lemma fill_above_highest_key_is_zero_witness :
  ∃ fan' data' w,
    AttachFanCurveData (samples.config_with_window 2) (Some samples.three_points)
      samples.auto_fan = Ok (None, fan') ∧
    FanCurveData fan' = Some data' ∧ data' !! 41 = Some w ∧
    rolling.window w = [0%float; 0%float].
Proof.
  apply (fill_above_highest_key_is_zero (samples.config_with_window 2)
           samples.three_points samples.auto_fan ∅ 41).
  - simpl. lia.
  - reflexivity.
  - intros Hempty.
    apply (f_equal (λ m : gmap Z (list float), m !! 10)) in Hempty.
    vm_compute in Hempty. discriminate.
  - lia.
  - reflexivity.
  - intros j Hj. unfold samples.three_points.
    rewrite !lookup_insert_ne by lia. apply lookup_singleton_ne. lia.
Defined.

(** ** createSensors *)

Section created_sensors.

Variable FindFilesMatching : string → string → list string.
Variable GetLabel : string → string → string.

Lemma createSensors_loop_appends (devicePath : string) :
  ∀ (inputs : list string) (sensors : list HwmonSensor),
    Forall spec.fifth_byte_digit inputs →
    ∃ news,
      discovery.createSensors_loop GetLabel devicePath inputs sensors
        = Ok (sensors ++ news) ∧
      length news = length inputs ∧
      ∀ k sensor, news !! k = Some sensor →
        inputs !! k = Some (Sensor_Input sensor) ∧
        Sensor_Name sensor = Split_file (Sensor_Input sensor) ∧
        Sensor_Label sensor = GetLabel devicePath (Sensor_Name sensor) ∧
        String.get 4 (Sensor_Name sensor) ≫= Atoi = Some (Sensor_Index sensor) ∧
        Sensor_Config sensor = None.
Proof.
  induction inputs as [|input inputs IH]; intros sensors Hnames.
  - exists []. rewrite app_nil_r. split; [done |]. split; [done |].
    intros k sensor Hk. by rewrite lookup_nil in Hk.
  - apply Forall_cons in Hnames as [(digit & Hget & [index Hatoi]) Hnames].
    cbn [discovery.createSensors_loop]. rewrite Hget, Hatoi.
    match goal with
    | |- context [discovery.createSensors_loop _ _ _ (sensors ++ [?s])] =>
        destruct (IH (sensors ++ [s]) Hnames) as (news & -> & Hlen & Hnews);
        exists (s :: news)
    end.
    split; [by rewrite <- app_assoc |]. split; [cbn; by rewrite Hlen |].
    intros [|k] sensor Hk.
    + injection Hk as <-. cbn. rewrite Hget. cbn. by rewrite Hatoi.
    + by apply Hnews.
Qed.

Lemma createSensors_loop_short_name (devicePath : string) :
  ∀ (pre : list string) (input : string) (post : list string)
    (sensors : list HwmonSensor),
    Forall spec.fifth_byte_digit pre →
    String.get 4 (Split_file input) = None →
    discovery.createSensors_loop GetLabel devicePath (pre ++ input :: post) sensors
      = Panic IndexOutOfRange.
Proof.
  induction pre as [|p pre IH]; intros input post sensors Hpre Hshort.
  - cbn [app discovery.createSensors_loop]. by rewrite Hshort.
  - apply Forall_cons in Hpre as [(digit & Hget & [index Hatoi]) Hpre].
    cbn [app discovery.createSensors_loop]. rewrite Hget, Hatoi. by apply IH.
Qed.

(** X16: when the fifth byte of every temperature input's file name is a
    decimal digit (as [^temp[1-9]_input$] makes it), [createSensors] returns
    one sensor per input file, in order, named by the file name, labelled by
    [GetLabel] of that name, without configuration, and with that digit as
    index; a file name shorter than five bytes makes it panic with an index
    out of range when the loop reaches it. *)
Theorem createSensors_reads_fifth_byte (devicePath : string) :
  let inputs := FindFilesMatching devicePath "^temp[1-9]_input$" in
  (Forall spec.fifth_byte_digit inputs →
   ∃ sensors,
     discovery.createSensors FindFilesMatching GetLabel devicePath = Ok sensors ∧
     length sensors = length inputs ∧
     ∀ k sensor, sensors !! k = Some sensor →
       inputs !! k = Some (Sensor_Input sensor) ∧
       Sensor_Name sensor = Split_file (Sensor_Input sensor) ∧
       Sensor_Label sensor = GetLabel devicePath (Sensor_Name sensor) ∧
       String.get 4 (Sensor_Name sensor) ≫= Atoi = Some (Sensor_Index sensor) ∧
       Sensor_Config sensor = None) ∧
  (∀ pre input post,
     inputs = pre ++ input :: post → Forall spec.fifth_byte_digit pre →
     String.get 4 (Split_file input) = None →
     discovery.createSensors FindFilesMatching GetLabel devicePath
       = Panic IndexOutOfRange).
Proof.
  intros inputs. unfold discovery.createSensors. fold inputs. split.
  - intros Hnames.
    destruct (createSensors_loop_appends devicePath inputs [] Hnames)
      as (news & Hrun & Hlen & Hnews).
    exists news. done.
  - intros pre input post -> Hpre Hshort. by apply createSensors_loop_short_name.
Qed.

End created_sensors.

Lemma createSensors_reads_fifth_byte_witness :
  ∃ sensor,
    discovery.createSensors (λ _ _, ["/sys/class/hwmon/hwmon1/temp3_input"])
      (λ _ _, "SYSTIN") "/sys/class/hwmon/hwmon1" = Ok [sensor] ∧
    Sensor_Index sensor = 3.
Proof.
  destruct (createSensors_reads_fifth_byte
              (λ _ _, ["/sys/class/hwmon/hwmon1/temp3_input"])
              (λ _ _, "SYSTIN") "/sys/class/hwmon/hwmon1") as [Hreturns _].
  destruct Hreturns as (sensors & Hrun & _).
  - repeat constructor. eexists. split; [reflexivity | vm_compute; eauto].
  - rewrite Hrun. vm_compute in Hrun. injection Hrun as <-.
    eexists. split; reflexivity.
Defined.

(** ** The sysfs probe: names and labels *)

Lemma trim_left_starts (s : string) :
  match gostrings.trim_left s with
  | EmptyString => True
  | String c _ => gostrings.is_space c = false
  end.
Proof.
  induction s as [|c s IH]; [done |]. cbn [gostrings.trim_left].
  by destruct (gostrings.is_space c) eqn:Hc.
Qed.

Lemma trim_left_blank (s : string) :
  spec.blank s → gostrings.trim_left s = EmptyString.
Proof.
  induction s as [|c s IH]; [done |]. intros [Hc Hs].
  cbn [gostrings.trim_left]. rewrite Hc. by apply IH.
Qed.

Lemma trim_right_starts (s : string) :
  match s with
  | EmptyString => True
  | String c _ => gostrings.is_space c = false
  end →
  match gostrings.trim_right s with
  | EmptyString => s = EmptyString
  | String c _ => gostrings.is_space c = false
  end.
Proof.
  destruct s as [|c s]; [done |]. intros Hc. cbn [gostrings.trim_right].
  destruct (gostrings.trim_right s); [by rewrite Hc | done].
Qed.

Lemma trim_right_ends (s : string) :
  match last_byte (gostrings.trim_right s) with
  | None => True
  | Some c => gostrings.is_space c = false
  end.
Proof.
  induction s as [|c s IH]; [done |]. cbn [gostrings.trim_right].
  destruct (gostrings.trim_right s) as [|c' rest].
  - by destruct (gostrings.is_space c) eqn:Hc.
  - exact IH.
Qed.

Lemma TrimSpace_no_outer_space (s : string) :
  spec.no_outer_space (gostrings.TrimSpace s).
Proof.
  split; [| apply trim_right_ends]. unfold gostrings.TrimSpace.
  pose proof (trim_right_starts _ (trim_left_starts s)) as Hstarts.
  by destruct (gostrings.trim_right (gostrings.trim_left s)).
Qed.

Lemma length_or_else (s fallback : string) :
  (if Z.of_nat (String.length s) <=? 0 then fallback else s) = spec.or_else s fallback.
Proof. by destruct s. Qed.

(** X17: the name [GetDeviceName] returns never starts or ends with white
    space; it is the trimmed content of the device's [name] file when that
    has any byte, and the trimmed last element of the device path otherwise.
    A [name] file that holds white space only therefore gives the empty
    name, not the last element of the path. *)
Theorem GetDeviceName_trims (ReadFile : string → string) (devicePath : string) :
  let content := ReadFile (devicePath +:+ "/name") in
  spec.no_outer_space (sysfs.GetDeviceName ReadFile devicePath) ∧
  sysfs.GetDeviceName ReadFile devicePath
    = gostrings.TrimSpace (spec.or_else content (Split_file devicePath)) ∧
  (content ≠ EmptyString → spec.blank content →
   sysfs.GetDeviceName ReadFile devicePath = EmptyString).
Proof.
  intros content. unfold sysfs.GetDeviceName. fold content.
  rewrite length_or_else. split; [apply TrimSpace_no_outer_space |].
  split; [done |]. intros Hcontent Hblank.
  destruct content as [|c rest] eqn:E; [done |]. cbn [spec.or_else].
  unfold gostrings.TrimSpace. by rewrite (trim_left_blank _ Hblank).
Qed.

Lemma GetDeviceName_trims_witness :
  let ReadFile := λ _ : string, String "010"%char EmptyString in
  sysfs.GetDeviceName ReadFile "/sys/class/hwmon/hwmon1" = EmptyString.
Proof.
  intros ReadFile.
  apply (GetDeviceName_trims ReadFile "/sys/class/hwmon/hwmon1");
    [discriminate | by vm_compute].
Defined.

Lemma string_app_cons (c : ascii) (s t : string) :
  String c s +:+ t = String c (s +:+ t).
Proof. reflexivity. Qed.

Lemma list_ascii_of_string_app (s t : string) :
  list_ascii_of_string (s +:+ t) = list_ascii_of_string s ++ list_ascii_of_string t.
Proof.
  induction s as [|c s IH]; [done |].
  rewrite string_app_cons. cbn [list_ascii_of_string app]. by rewrite IH.
Qed.

Lemma string_app_assoc (s t u : string) : (s +:+ t) +:+ u = s +:+ t +:+ u.
Proof.
  induction s as [|c s IH]; [done |]. rewrite !string_app_cons. by rewrite IH.
Qed.

Lemma TrimSuffix_app (s suffix : string) :
  gostrings.TrimSuffix (s +:+ suffix) suffix = s.
Proof.
  unfold gostrings.TrimSuffix, gostrings.HasSuffix.
  rewrite list_ascii_of_string_app, length_app.
  replace (length (list_ascii_of_string s) + length (list_ascii_of_string suffix)
           - length (list_ascii_of_string suffix))%nat
    with (length (list_ascii_of_string s)) by lia.
  rewrite drop_app_length, take_app_length.
  rewrite bool_decide_eq_true_2 by lia. rewrite bool_decide_eq_true_2 by done.
  cbn. apply string_of_list_ascii_of_string.
Qed.

Lemma last_byte_list (s : string) :
  last_byte s = last (list_ascii_of_string s).
Proof.
  induction s as [|c s IH]; [done |]. destruct s as [|c' s]; [done |].
  change (last_byte (String c (String c' s))) with (last_byte (String c' s)).
  by rewrite IH.
Qed.

Lemma last_byte_app (s t : string) (c : ascii) :
  last_byte t = Some c → last_byte (s +:+ t) = Some c.
Proof.
  rewrite !last_byte_list, list_ascii_of_string_app. intros Ht.
  destruct (list_ascii_of_string t) as [|x l] eqn:E; [done |].
  rewrite last_app. by rewrite Ht.
Qed.

Lemma TrimSuffix_other_end (s suffix : string) (c d : ascii) :
  last_byte s = Some c → last_byte suffix = Some d → c ≠ d →
  gostrings.TrimSuffix s suffix = s.
Proof.
  rewrite !last_byte_list. intros Hs Hsuffix Hne.
  unfold gostrings.TrimSuffix, gostrings.HasSuffix.
  destruct (bool_decide (length _ ≤ length _)%nat) eqn:Hlen; [| done].
  cbn [andb]. rewrite bool_decide_eq_false_2; [done |]. intros Hdrop.
  apply bool_decide_eq_true in Hlen.
  rewrite <- (take_drop (length (list_ascii_of_string s)
                         - length (list_ascii_of_string suffix))
                        (list_ascii_of_string s)) in Hs.
  rewrite Hdrop in Hs.
  destruct (list_ascii_of_string suffix) as [|x l] eqn:E; [done |].
  rewrite last_app, Hsuffix in Hs. congruence.
Qed.

(** X18: for an input file named [<stem>input], [GetLabel] reads the label
    from [<devicePath>/<stem>label]; for a file whose name ends in a byte
    other than [t] (a PWM output such as [pwm1]) it reads
    [<devicePath>/<name>label].  In both cases the label is the trimmed
    content of that file, or the trimmed last element of the device path
    when the file gives nothing. *)
Theorem GetLabel_label_path (ReadFile : string → string) (devicePath : string) :
  (∀ stem,
     sysfs.GetLabel ReadFile devicePath (stem +:+ "input")
     = gostrings.TrimSpace
         (spec.or_else (ReadFile (devicePath +:+ "/" +:+ stem +:+ "label"))
                       (Split_file devicePath))) ∧
  (∀ input c,
     last_byte input = Some c → c ≠ "t"%char →
     sysfs.GetLabel ReadFile devicePath input
     = gostrings.TrimSpace
         (spec.or_else (ReadFile (devicePath +:+ "/" +:+ input +:+ "label"))
                       (Split_file devicePath))).
Proof.
  split.
  - intros stem. unfold sysfs.GetLabel. rewrite length_or_else.
    rewrite <- !string_app_assoc, TrimSuffix_app. done.
  - intros input c Hlast Hne. unfold sysfs.GetLabel. rewrite length_or_else.
    rewrite (TrimSuffix_other_end _ "input" c "t"%char); [| | done | done].
    + by rewrite <- !string_app_assoc.
    + apply last_byte_app. by apply last_byte_app.
Qed.

Lemma GetLabel_label_path_witness :
  let ReadFile := λ path : string,
    if String.eqb path "/sys/class/hwmon/hwmon1/pwm1label" then "cpu_fan"
    else EmptyString in
  sysfs.GetLabel ReadFile "/sys/class/hwmon/hwmon1" "pwm1" = "cpu_fan".
Proof.
  intros ReadFile.
  destruct (GetLabel_label_path ReadFile "/sys/class/hwmon/hwmon1") as [_ Houtput].
  rewrite (Houtput "pwm1" "1"%char); [by vm_compute | reflexivity | discriminate].
Defined.

(** ** computeIdentifier *)

Lemma prefix_app (s t : string) : String.prefix s (s +:+ t) = true.
Proof.
  induction s as [|c s IH]; [by destruct t |].
  rewrite string_app_cons. cbn [String.prefix].
  destruct (ascii_dec c c); [exact IH | done].
Qed.

Lemma prefix_refl (s : string) : String.prefix s s = true.
Proof.
  induction s as [|c s IH]; [done |]. cbn.
  destruct (ascii_dec c c); [exact IH | done].
Qed.

(** X19: the identifier [computeIdentifier] returns starts with the device
    name, or with the last element of the device path when the name is
    empty; for a path that does not contain [/pci] it is exactly that; and
    it is not empty as long as the device path does not end in a slash. *)
Theorem computeIdentifier_starts_with_name
    (CreateShortPciIdentifier : string → string) (devicePath deviceName : string) :
  let name := spec.or_else deviceName (Split_file devicePath) in
  let identifier :=
    discovery.computeIdentifier CreateShortPciIdentifier devicePath deviceName in
  String.prefix name identifier = true ∧
  (gostrings.Contains devicePath "/pci" = false → identifier = name) ∧
  (Split_file devicePath ≠ EmptyString → identifier ≠ EmptyString).
Proof.
  intros name identifier.
  assert (Hshape : identifier = name ∨ ∃ rest, identifier = name +:+ "-" +:+ rest).
  { subst identifier name. unfold discovery.computeIdentifier.
    cbn [String.length Z.of_nat Z.leb Z.compare]. rewrite length_or_else.
    destruct (gostrings.Contains devicePath "/pci");
      [| left; by destruct deviceName].
    destruct (last _); [right; eexists | left]; by destruct deviceName. }
  split; [| split].
  - destruct Hshape as [-> | [rest ->]]; [apply prefix_refl | apply prefix_app].
  - intros Hpath. subst identifier name. unfold discovery.computeIdentifier.
    rewrite Hpath. by destruct deviceName.
  - intros Hbase. assert (name ≠ EmptyString) as Hname.
    { subst name. by destruct deviceName. }
    destruct Hshape as [-> | [rest ->]]; [done |]. by destruct name.
Qed.

Lemma computeIdentifier_starts_with_name_witness :
  discovery.computeIdentifier (λ s, s) "/sys/class/hwmon/hwmon2" EmptyString = "hwmon2".
Proof.
  apply (computeIdentifier_starts_with_name (λ s, s) "/sys/class/hwmon/hwmon2"
           EmptyString).
  reflexivity.
Defined.

(** ** FindControllers *)

Lemma store_fan_fold (fanList : list HwMonFan) :
  ∀ (acc : list nat) (g : Globals),
    ∃ news g',
      fold_left discovery.store_fan fanList (acc, g) = (acc ++ news, g') ∧
      length news = length fanList ∧ NoDup news ∧
      (∀ a, a ∈ news → fan_store g !! a = None) ∧
      (∀ k a, news !! k = Some a → fan_store g' !! a = fanList !! k) ∧
      (∀ b, b ∉ news → fan_store g' !! b = fan_store g !! b) ∧
      sensor_store g' = sensor_store g ∧
      FanMap g' = FanMap g ∧ SensorMap g' = SensorMap g.
Proof.
  induction fanList as [|fan fanList IH]; intros acc g.
  - exists [], g. rewrite app_nil_r. repeat split; try done; [constructor |].
    intros a Ha. by apply not_elem_of_nil in Ha.
  - cbn [fold_left discovery.store_fan].
    set (a := fresh (dom (fan_store g))).
    assert (Hfresh : fan_store g !! a = None).
    { apply not_elem_of_dom. apply is_fresh. }
    destruct (IH (acc ++ [a]) (with_fan a fan g))
      as (news & g' & -> & Hlen & Hnodup & Hnew & Hat & Hother & Hs & Hf & Hm).
    cbn [with_fan fan_store sensor_store FanMap SensorMap] in *.
    assert (Hnotin : a ∉ news).
    { intros Hin. apply Hnew in Hin. by rewrite lookup_insert_eq in Hin. }
    exists (a :: news), g'. rewrite <- app_assoc.
    split; [done |]. split; [cbn; by rewrite Hlen |].
    split; [by constructor |]. split; [| split; [| split; [| done]]].
    + intros b [-> | Hb]%elem_of_cons; [done |].
      apply Hnew in Hb. destruct (decide (a = b)) as [-> | Hne].
      * by rewrite lookup_insert_eq in Hb.
      * by rewrite lookup_insert_ne in Hb.
    + intros [|k] b Hk.
      * injection Hk as <-. rewrite (Hother a Hnotin). apply lookup_insert_eq.
      * by apply Hat.
    + intros b Hb. apply not_elem_of_cons in Hb as [Hne Hb].
      rewrite (Hother b Hb). by apply lookup_insert_ne.
Qed.

Lemma store_sensor_fold (sensorList : list HwmonSensor) :
  ∀ (acc : list nat) (g : Globals),
    ∃ news g',
      fold_left discovery.store_sensor sensorList (acc, g) = (acc ++ news, g') ∧
      length news = length sensorList ∧ NoDup news ∧
      (∀ a, a ∈ news → sensor_store g !! a = None) ∧
      (∀ k a, news !! k = Some a → sensor_store g' !! a = sensorList !! k) ∧
      (∀ b, b ∉ news → sensor_store g' !! b = sensor_store g !! b) ∧
      fan_store g' = fan_store g ∧
      FanMap g' = FanMap g ∧ SensorMap g' = SensorMap g.
Proof.
  induction sensorList as [|sensor sensorList IH]; intros acc g.
  - exists [], g. rewrite app_nil_r. repeat split; try done; [constructor |].
    intros a Ha. by apply not_elem_of_nil in Ha.
  - cbn [fold_left discovery.store_sensor].
    set (a := fresh (dom (sensor_store g))).
    assert (Hfresh : sensor_store g !! a = None).
    { apply not_elem_of_dom. apply is_fresh. }
    destruct (IH (acc ++ [a]) (with_sensor a sensor g))
      as (news & g' & -> & Hlen & Hnodup & Hnew & Hat & Hother & Hs & Hf & Hm).
    cbn [with_sensor fan_store sensor_store FanMap SensorMap] in *.
    assert (Hnotin : a ∉ news).
    { intros Hin. apply Hnew in Hin. by rewrite lookup_insert_eq in Hin. }
    exists (a :: news), g'. rewrite <- app_assoc.
    split; [done |]. split; [cbn; by rewrite Hlen |].
    split; [by constructor |]. split; [| split; [| split; [| done]]].
    + intros b [-> | Hb]%elem_of_cons; [done |].
      apply Hnew in Hb. destruct (decide (a = b)) as [-> | Hne].
      * by rewrite lookup_insert_eq in Hb.
      * by rewrite lookup_insert_ne in Hb.
    + intros [|k] b Hk.
      * injection Hk as <-. rewrite (Hother a Hnotin). apply lookup_insert_eq.
      * by apply Hat.
    + intros b Hb. apply not_elem_of_cons in Hb as [Hne Hb].
      rewrite (Hother b Hb). by apply lookup_insert_ne.
Qed.

Lemma createSensors_loop_unconfigured (GetLabel : string → string → string)
    (devicePath : string) :
  ∀ (inputs : list string) (sensors sensors' : list HwmonSensor),
    discovery.createSensors_loop GetLabel devicePath inputs sensors = Ok sensors' →
    Forall (λ sensor, Sensor_Config sensor = None) sensors →
    Forall (λ sensor, Sensor_Config sensor = None) sensors'.
Proof.
  induction inputs as [|input inputs IH]; intros sensors sensors' Hrun Hnone.
  - by injection Hrun as <-.
  - cbn [discovery.createSensors_loop] in Hrun.
    destruct (String.get 4 (Split_file input)) as [digit|]; [| discriminate].
    destruct (Atoi digit) as [index|]; [| discriminate].
    apply IH in Hrun; [done |]. apply Forall_app. split; [done |].
    by repeat constructor.
Qed.

Lemma created_fan_in_range (label output rpmInput : string) (fan : HwMonFan) :
  spec.created_from label output rpmInput fan →
  Config fan = None ∧ spec.pwm_ordered fan ∧ spec.keys_in_range fan.
Proof.
  intros (_ & _ & _ & _ & _ & _ & Hmin & Hstart & Hmax & Hdata & _ & Hcfg).
  unfold MinPwmValue, MaxPwmValue in *. split; [done |]. split.
  - unfold spec.pwm_ordered. lia.
  - intros m key Hm [w Hw]. rewrite Hdata in Hm. injection Hm as <-.
    by rewrite lookup_empty in Hw.
Qed.

Section found_controllers.

Variable ReadFile : string → string.
Variable Stat : string → bool.
Variable FindFilesMatching : string → string → list string.
Variable GetPwmEnabled : HwMonFan → option Z.
Variable CreateShortPciIdentifier : string → string.

Lemma FindControllers_device_discovered (g0 : Globals) (devicePath : string)
    (controllers controllers' : list HwMonController) (g g' : Globals) :
  discovery.FindControllers_device ReadFile FindFilesMatching GetPwmEnabled
    CreateShortPciIdentifier devicePath (controllers, g) = Ok (controllers', g') →
  spec.discovered g0 controllers g →
  spec.discovered g0 controllers' g' ∧
  (controllers' = controllers ∨
   ∃ controller,
     controllers' = controllers ++ [controller] ∧ Path controller = devicePath ∧
     Controller_Name controller
       = discovery.computeIdentifier CreateShortPciIdentifier devicePath
           (sysfs.GetDeviceName ReadFile devicePath) ∧
     Platform controller = controller_platform devicePath (Controller_Name controller)).
Proof.
  intros Hrun Hinv. unfold discovery.FindControllers_device in Hrun.
  destruct (createFans _ _ _ devicePath) as [fanList| |] eqn:Hfans;
    cbn [mbind result_bind] in Hrun; try discriminate.
  destruct (discovery.createSensors _ _ devicePath) as [sensorList| |] eqn:Hsensors;
    cbn [mbind result_bind] in Hrun; try discriminate.
  destruct ((Z.of_nat (length fanList) <=? 0) && (Z.of_nat (length sensorList) <=? 0))
    eqn:Hempty.
  { injection Hrun as <- <-. split; [done | by left]. }
  destruct (store_fan_fold fanList [] g)
    as (fnews & g1 & Hf & Hflen & Hfnodup & Hfnew & Hfat & Hfother & Hfs & Hfm & Hfsm).
  rewrite Hf in Hrun. cbn [app] in Hrun.
  destruct (store_sensor_fold sensorList [] g1)
    as (snews & g2 & Hs & Hslen & Hsnodup & Hsnew & Hsat & Hsother & Hsf & Hsm & Hssm).
  rewrite Hs in Hrun. cbn [app] in Hrun. injection Hrun as <- <-.
  split; [| right; eexists; split; [reflexivity | done]].
  destruct Hinv as [Hobj Hfd Hsd Hfn Hsn Hfk Hsk Hfl Hsl HFM HSM].
  match goal with
  | |- spec.discovered _ (_ ++ [?c]) _ => set (controller := c)
  end.
  assert (Hfbind : (controllers ++ [controller]) ≫= Controller_Fans
                   = (controllers ≫= Controller_Fans) ++ fnews).
  { rewrite bind_app, bind_cons.
    change ([] ≫= Controller_Fans) with (@nil nat). by rewrite app_nil_r. }
  assert (Hsbind : (controllers ++ [controller]) ≫= Controller_Sensors
                   = (controllers ≫= Controller_Sensors) ++ snews).
  { rewrite bind_app, bind_cons.
    change ([] ≫= Controller_Sensors) with (@nil nat). by rewrite app_nil_r. }
  assert (Hfold : ∀ a, a ∈ controllers ≫= Controller_Fans → a ∉ fnews).
  { intros a Ha Hin. destruct (Hfn a Ha) as (_ & fan & Hfan & _).
    by rewrite (Hfnew a Hin) in Hfan. }
  assert (Hsold : ∀ a, a ∈ controllers ≫= Controller_Sensors → a ∉ snews).
  { intros a Ha Hin. destruct (Hsn a Ha) as (_ & sensor & Hsensor & _).
    pose proof (Hsnew a Hin) as Hnone. rewrite Hfs in Hnone.
    by rewrite Hnone in Hsensor. }
  assert (Hfkept : ∀ a, is_Some (fan_store g0 !! a) → a ∉ fnews).
  { intros a Ha Hin. rewrite <- (Hfk a Ha), (Hfnew a Hin) in Ha. by destruct Ha. }
  assert (Hskept : ∀ a, is_Some (sensor_store g0 !! a) → a ∉ snews).
  { intros a Ha Hin. pose proof (Hsnew a Hin) as Hnone. rewrite Hfs in Hnone.
    rewrite <- (Hsk a Ha), Hnone in Ha. by destruct Ha. }
  split.
  - intros c [Hc | ->%list_elem_of_singleton]%elem_of_app; [by apply Hobj |].
    cbn. destruct fnews; [| by left]. destruct snews; [| by right].
    cbn in Hflen, Hslen. rewrite <- Hflen, <- Hslen in Hempty. discriminate.
  - rewrite Hfbind. apply NoDup_app. split; [done |]. split; [exact Hfold | done].
  - rewrite Hsbind. apply NoDup_app. split; [done |]. split; [exact Hsold | done].
  - rewrite Hfbind. intros a [Ha | Ha]%elem_of_app.
    + rewrite Hsf, (Hfother a (Hfold a Ha)). by apply Hfn.
    + split.
      { destruct (fan_store g0 !! a) eqn:E; [| done].
        exfalso. by apply (Hfkept a). }
      apply list_elem_of_lookup in Ha as [k Hk].
      rewrite Hsf, (Hfat k a Hk).
      destruct (lookup_lt_is_Some_2 fanList k) as [fan Hfan].
      { rewrite <- Hflen. by eapply lookup_lt_Some. }
      exists fan. split; [done |]. unfold createFans in Hfans.
      apply createFans_loop_appends in Hfans as (news & -> & _ & Hcreated).
      destruct (Hcreated k fan Hfan) as (o & r & _ & _ & Hfrom & _).
      by eapply created_fan_in_range.
  - rewrite Hsbind. intros a [Ha | Ha]%elem_of_app.
    + rewrite (Hsother a (Hsold a Ha)), Hfs. by apply Hsn.
    + split.
      { destruct (sensor_store g0 !! a) eqn:E; [| done].
        exfalso. by apply (Hskept a). }
      apply list_elem_of_lookup in Ha as [k Hk].
      rewrite (Hsat k a Hk).
      destruct (lookup_lt_is_Some_2 sensorList k) as [sensor Hsensor].
      { rewrite <- Hslen. by eapply lookup_lt_Some. }
      exists sensor. split; [done |]. unfold discovery.createSensors in Hsensors.
      apply createSensors_loop_unconfigured in Hsensors; [| constructor].
      rewrite Forall_forall in Hsensors. apply Hsensors.
      apply list_elem_of_lookup. eauto.
  - intros a Ha. rewrite Hsf, (Hfother a (Hfkept a Ha)). by apply Hfk.
  - intros a Ha. rewrite (Hsother a (Hskept a Ha)), Hfs. by apply Hsk.
  - rewrite Hfbind. intros a Hnone Hsome. apply elem_of_app.
    destruct (decide (a ∈ fnews)) as [Hin | Hout]; [by right | left].
    apply Hfl; [done |]. by rewrite Hsf, (Hfother a Hout) in Hsome.
  - rewrite Hsbind. intros a Hnone Hsome. apply elem_of_app.
    destruct (decide (a ∈ snews)) as [Hin | Hout]; [by right | left].
    apply Hsl; [done |]. by rewrite (Hsother a Hout), Hfs in Hsome.
  - by rewrite Hsm, Hfm.
  - by rewrite Hssm, Hfsm.
Qed.

Lemma FindControllers_invariant (g0 : Globals)
    (controllers : list HwMonController) (g : Globals) :
  discovery.FindControllers ReadFile Stat FindFilesMatching GetPwmEnabled
    CreateShortPciIdentifier g0 = Ok (controllers, g) →
  spec.discovered g0 controllers g ∧
  Path <$> controllers
    `sublist_of` sysfs.FindHwmonDevicePaths Stat FindFilesMatching
                 ++ sysfs.FindI2cDevicePaths Stat FindFilesMatching ∧
  ∀ controller, controller ∈ controllers →
    Controller_Name controller
      = discovery.computeIdentifier CreateShortPciIdentifier (Path controller)
          (sysfs.GetDeviceName ReadFile (Path controller)) ∧
    Platform controller
      = controller_platform (Path controller) (Controller_Name controller).
Proof.
  intros Hrun. unfold discovery.FindControllers in Hrun.
  apply (for_each_returns_inv _
           (λ pre st,
              spec.discovered g0 st.1 st.2 ∧ Path <$> st.1 `sublist_of` pre ∧
              ∀ controller, controller ∈ st.1 →
                Controller_Name controller
                  = discovery.computeIdentifier CreateShortPciIdentifier
                      (Path controller)
                      (sysfs.GetDeviceName ReadFile (Path controller)) ∧
                Platform controller
                  = controller_platform (Path controller) (Controller_Name controller))
           _ _ _ Hrun).
  - cbn [fst snd]. split; [| split].
    + split; try done.
      * intros c Hc. by apply not_elem_of_nil in Hc.
      * constructor.
      * constructor.
      * intros a Ha. by apply not_elem_of_nil in Ha.
      * intros a Ha. by apply not_elem_of_nil in Ha.
      * intros a Hnone Hsome. rewrite Hnone in Hsome. by destruct Hsome.
      * intros a Hnone Hsome. rewrite Hnone in Hsome. by destruct Hsome.
    + constructor.
    + intros c Hc. by apply not_elem_of_nil in Hc.
  - intros pre devicePath post [cs0 gs0] [cs1 gs1] _ (Hinv & Hsub & Hnames) Hbody.
    cbn [fst snd] in *.
    destruct (FindControllers_device_discovered g0 devicePath cs0 cs1 gs0 gs1 Hbody Hinv)
      as [Hinv' [-> | (c & -> & Hpath & Hname & Hplatform)]].
    + split; [done |]. split; [| done]. by apply sublist_inserts_r.
    + split; [done |]. split.
      * rewrite fmap_app. apply sublist_app; [done |]. cbn. by rewrite Hpath.
      * intros c' [Hc' | ->%list_elem_of_singleton]%elem_of_app; [by apply Hnames |].
        by rewrite Hpath.
Qed.

(** X20: what [FindControllers] returns.  The controllers follow the order
    of the hwmon device paths, then the i2c device paths, at most one per
    path; each lists at least one fan or sensor; its name is the identifier
    computed from the device name, and its platform is that name whenever
    the device path holds no brace.  The fans and sensors listed are new
    objects, no object is listed twice, every fan is without configuration
    and has an ordered PWM range within 0 to 255; the objects that existed
    before and the two maps are untouched. *)
Theorem FindControllers_discovers (g0 : Globals)
    (controllers : list HwMonController) (g : Globals) :
  discovery.FindControllers ReadFile Stat FindFilesMatching GetPwmEnabled
    CreateShortPciIdentifier g0 = Ok (controllers, g) →
  spec.discovered g0 controllers g ∧
  Path <$> controllers
    `sublist_of` sysfs.FindHwmonDevicePaths Stat FindFilesMatching
                 ++ sysfs.FindI2cDevicePaths Stat FindFilesMatching ∧
  ∀ controller, controller ∈ controllers →
    Controller_Name controller
      = discovery.computeIdentifier CreateShortPciIdentifier (Path controller)
          (sysfs.GetDeviceName ReadFile (Path controller)) ∧
    (brace ∉ list_ascii_of_string (Path controller) →
     Platform controller = Controller_Name controller).
Proof.
  intros Hrun. apply FindControllers_invariant in Hrun as (Hinv & Hsub & Hnames).
  split; [done |]. split; [done |]. intros controller Hin.
  destruct (Hnames controller Hin) as [Hname Hplatform]. split; [done |].
  intros Hbrace. rewrite Hplatform. unfold controller_platform.
  by rewrite (findPlatform_without_brace _ Hbrace).
Qed.

(** X21: the binder takes what discovery returns.  Started without
    configured fans and with an empty [FanMap], [FindControllers] followed
    by [MapConfigToControllers] does not panic on a missing object: for a
    configuration whose hwmon parameters unmarshal and sensors that can be
    read the binder returns, it configures exactly the discovered fans that
    an entry matches, and [FanMap] then binds every id to the fan
    configured under it. *)
Theorem FindControllers_feeds_binder (cfg : Configuration)
    (GetValue : HwmonSensor → option float) (g0 : Globals)
    (controllers : list HwMonController) (g : Globals) :
  discovery.FindControllers ReadFile Stat FindFilesMatching GetPwmEnabled
    CreateShortPciIdentifier g0 = Ok (controllers, g) →
  (∀ a fan, fan_store g0 !! a = Some fan → Config fan = None) →
  FanMap g0 = ∅ →
  (∀ fanConfig, fanConfig ∈ Fans cfg → FanConfig_Params fanConfig ≠ MalformedParams) →
  (∀ sensorConfig, sensorConfig ∈ Sensors cfg →
     SensorConfig_Params sensorConfig ≠ MalformedParams) →
  (∀ sensor, is_Some (GetValue sensor)) →
  spec.binder_input cfg GetValue controllers g ∧
  ∃ g', MapConfigToControllers cfg GetValue controllers g = Ok g' ∧
        spec.bound_from g
          (λ b, ∃ controller, controller ∈ controllers ∧
                              b ∈ Controller_Fans controller ∧
                              spec.matched cfg g controller b) g' ∧
        spec.FanMap_consistent g'.
Proof.
  intros Hrun Hunconf Hmap Hfp Hsp Hread.
  apply FindControllers_invariant in Hrun as (Hinv & _ & _).
  destruct Hinv as [Hobj Hfd Hsd Hfn Hsn Hfk Hsk Hfl Hsl HFM HSM].
  assert (Hfans : ∀ controller a, controller ∈ controllers →
            a ∈ Controller_Fans controller → is_Some (fan_store g !! a)).
  { intros c a Hc Ha. destruct (Hfn a) as (_ & fan & -> & _); [| done].
    apply list_elem_of_bind. eauto. }
  assert (Hsensors : ∀ controller a, controller ∈ controllers →
            a ∈ Controller_Sensors controller → is_Some (sensor_store g !! a)).
  { intros c a Hc Ha. destruct (Hsn a) as (_ & sensor & -> & _); [| done].
    apply list_elem_of_bind. eauto. }
  assert (Hnone : ∀ a fan, fan_store g !! a = Some fan → Config fan = None).
  { intros a fan Hfan. destruct (fan_store g0 !! a) as [fan0|] eqn:Hold.
    - apply (Hunconf a). rewrite <- (Hfk a); [exact Hfan | by rewrite Hold].
    - destruct (Hfn a) as (_ & fan' & Hfan' & Hcfg & _).
      + apply Hfl; [done |]. by rewrite Hfan.
      + congruence. }
  split; [by split |].
  destruct (MapConfigToControllers_bound cfg GetValue Hfp Hsp Hread controllers g
              Hfans Hsensors) as (g' & Hbind & Hbound).
  exists g'. split; [done |]. split; [done |].
  eapply binding_inv_consistent, MapConfigToControllers_binding;
    [exact Hfd | by rewrite HFM | exact Hnone | exact Hbind].
Qed.

End found_controllers.

Lemma FindControllers_discovers_witness :
  ∃ controllers g,
    discovery.FindControllers samples.sysfs_files samples.sysfs_stat
      samples.sysfs_dirs (λ _, Some 2) (λ s, s) samples.no_objects
      = Ok (controllers, g) ∧
    length controllers = 1%nat ∧
    spec.discovered samples.no_objects controllers g.
Proof.
  assert (Hrun : ∃ controller g,
            discovery.FindControllers samples.sysfs_files samples.sysfs_stat
              samples.sysfs_dirs (λ _, Some 2) (λ s, s) samples.no_objects
              = Ok ([controller], g)) by (vm_compute; eauto).
  destruct Hrun as (controller & g & Hrun).
  exists [controller], g. split; [exact Hrun |]. split; [reflexivity |].
  apply (FindControllers_discovers samples.sysfs_files samples.sysfs_stat
           samples.sysfs_dirs (λ _, Some 2) (λ s, s) samples.no_objects
           [controller] g Hrun).
Defined.

Lemma FindControllers_feeds_binder_witness :
  ∃ controllers g g',
    discovery.FindControllers samples.sysfs_files samples.sysfs_stat
      samples.sysfs_dirs (λ _, Some 2) (λ s, s) samples.no_objects
      = Ok (controllers, g) ∧
    MapConfigToControllers samples.board_config samples.readable controllers g
      = Ok g' ∧
    spec.FanMap_consistent g'.
Proof.
  assert (Hrun : ∃ controllers g,
            discovery.FindControllers samples.sysfs_files samples.sysfs_stat
              samples.sysfs_dirs (λ _, Some 2) (λ s, s) samples.no_objects
              = Ok (controllers, g)) by (vm_compute; eauto).
  destruct Hrun as (controllers & g & Hrun).
  destruct board_is_binder_input as [_ _ Hfp Hsp Hread _].
  destruct (FindControllers_feeds_binder samples.sysfs_files samples.sysfs_stat
              samples.sysfs_dirs (λ _, Some 2) (λ s, s) samples.board_config
              samples.readable samples.no_objects controllers g Hrun)
    as (_ & g' & Hbind & _ & Hconsistent); try done.
  exists controllers, g, g'. done.
Defined.

(** ** The detect command: createFans *)

Lemma index_paths_fold (idx : Z) :
  ∀ (paths : list string) (m : gmap Z string),
    fold_left detect.index_path paths m !! idx
    = match spec.last_numbered paths idx with
      | Some path => Some path
      | None => m !! idx
      end.
Proof.
  unfold spec.last_numbered.
  induction paths as [|path paths IH]; intros m; [done |].
  cbn [fold_left]. rewrite IH. rewrite filter_cons.
  unfold detect.index_path. fold (spec.number_of path).
  destruct (decide (spec.number_of path = Some idx)) as [Hnum | Hnum].
  - rewrite Hnum, last_cons.
    destruct (last (filter _ paths)); [done |]. apply lookup_insert_eq.
  - destruct (last (filter _ paths)); [done |].
    destruct (spec.number_of path) as [index|]; [| done].
    apply lookup_insert_ne. congruence.
Qed.

Lemma index_paths_last (paths : list string) (idx : Z) :
  detect.index_paths paths !! idx = spec.last_numbered paths idx.
Proof.
  unfold detect.index_paths. rewrite index_paths_fold, lookup_empty.
  by destruct (spec.last_numbered paths idx).
Qed.

Lemma last_numbered_Some (paths : list string) (idx : Z) :
  is_Some (spec.last_numbered paths idx) ↔
  ∃ path, path ∈ paths ∧ spec.number_of path = Some idx.
Proof.
  unfold spec.last_numbered. split.
  - intros [path Hlast]. exists path. apply last_Some in Hlast as [l' Hl].
    assert (Hin : path ∈ filter (λ p, spec.number_of p = Some idx) paths).
    { rewrite Hl. apply elem_of_app. right. by left. }
    by apply list_elem_of_filter in Hin as [? ?].
  - intros (path & Hin & Hnum).
    assert (Hf : path ∈ filter (λ p, spec.number_of p = Some idx) paths).
    { by apply list_elem_of_filter. }
    destruct (filter _ paths) as [|x l] eqn:E; [by apply not_elem_of_nil in Hf |].
    rewrite last_cons. destruct (last l); eauto.
Qed.

Section detected_fans.

Variable FindFilesMatching : string → string → list string.
Variable GetLabel : string → string → string.
Variable GetPwmEnabled : detect.HwMonFan → option Z.
Variables FanInputRegex PwmRegex : string.
Variables MinPwmValue MaxPwmValue InitialLastSetPwm : Z.

Lemma detect_createFans_loop_returns (devicePath : string) (rpmInputs : gmap Z string) :
  (∀ fan, is_Some (GetPwmEnabled fan)) →
  ∀ (outputs : list (Z * string)) (fanList : list detect.HwMonFan),
    ∃ news,
      detect.createFans_loop GetLabel GetPwmEnabled MinPwmValue MaxPwmValue
        InitialLastSetPwm devicePath rpmInputs outputs fanList
        = Ok (fanList ++ news) ∧
      Forall2 (λ entry fan,
                 detect.Index fan = entry.1 ∧ detect.PwmOutput fan = entry.2 ∧
                 detect.RpmInput fan = default EmptyString (rpmInputs !! entry.1) ∧
                 detect.Label fan = GetLabel devicePath (Split_file entry.2) ∧
                 detect.MinPwm fan = MinPwmValue ∧ detect.MaxPwm fan = MaxPwmValue ∧
                 detect.FanCurveData fan = Some ∅ ∧
                 detect.LastSetPwm fan = InitialLastSetPwm ∧
                 GetPwmEnabled (detect.SetOriginalPwmEnabled 0 fan)
                   = Some (detect.OriginalPwmEnabled fan))
              outputs news.
Proof.
  intros Hread. induction outputs as [|[idx output] outputs IH]; intros fanList.
  - exists []. rewrite app_nil_r. split; [done | constructor].
  - cbn [detect.createFans_loop].
    match goal with
    | |- context [GetPwmEnabled ?f] =>
        set (fan0 := f); destruct (Hread fan0) as [pwmEnabled Hen]; rewrite Hen
    end.
    destruct (IH (fanList ++ [detect.SetOriginalPwmEnabled pwmEnabled fan0]))
      as (news & -> & Hnews).
    exists (detect.SetOriginalPwmEnabled pwmEnabled fan0 :: news).
    split; [by rewrite <- app_assoc |]. constructor; [| done].
    cbn. repeat (split; [done |]). exact Hen.
Qed.

(** X22: the [detect] command pairs by number, not by position.  When
    every [pwm_enable] can be read, its [createFans] returns, however many
    fan inputs and pwm files the device has; the fans have pairwise
    distinct indices, one for every number a pwm file name carries (a pwm
    file without a number is passed over); a fan of index [n] has the last
    pwm file numbered [n] as output, the last fan input numbered [n] as rpm
    input, or the empty path when there is none, and the label of its pwm
    file name. *)
Theorem detect_createFans_pairs_by_number (devicePath : string) :
  let inputPaths := FindFilesMatching devicePath FanInputRegex in
  let pwmPaths := FindFilesMatching devicePath PwmRegex in
  (∀ fan, is_Some (GetPwmEnabled fan)) →
  ∃ fanList,
    detect.createFans FindFilesMatching GetLabel GetPwmEnabled FanInputRegex PwmRegex
      MinPwmValue MaxPwmValue InitialLastSetPwm devicePath = Ok fanList ∧
    NoDup (detect.Index <$> fanList) ∧
    (∀ idx, idx ∈ detect.Index <$> fanList ↔
            ∃ path, path ∈ pwmPaths ∧ spec.number_of path = Some idx) ∧
    ∀ fan, fan ∈ fanList →
      spec.last_numbered pwmPaths (detect.Index fan) = Some (detect.PwmOutput fan) ∧
      detect.RpmInput fan
        = default EmptyString (spec.last_numbered inputPaths (detect.Index fan)) ∧
      detect.Label fan = GetLabel devicePath (Split_file (detect.PwmOutput fan)) ∧
      GetPwmEnabled (detect.SetOriginalPwmEnabled 0 fan)
        = Some (detect.OriginalPwmEnabled fan).
Proof.
  intros inputPaths pwmPaths Hread. unfold detect.createFans. fold inputPaths pwmPaths.
  destruct (detect_createFans_loop_returns devicePath (detect.index_paths inputPaths)
              Hread (map_to_list (detect.index_paths pwmPaths)) [])
    as (fanList & Hrun & Hfans).
  exists fanList. split; [exact Hrun |].
  assert (Hidx : detect.Index <$> fanList = (map_to_list (detect.index_paths pwmPaths)).*1).
  { clear Hrun. induction Hfans as [|entry fan entries fans (Hi & _) _ IH]; [done |].
    cbn. by rewrite Hi, IH. }
  split; [| split].
  - rewrite Hidx. apply NoDup_fst_map_to_list.
  - intros idx. rewrite Hidx, <- last_numbered_Some, <- index_paths_last.
    rewrite list_elem_of_fmap. split.
    + intros ([i path] & -> & Hin). apply elem_of_map_to_list in Hin. by eexists.
    + intros [path Hpath]. exists (idx, path). split; [done |].
      by apply elem_of_map_to_list.
  - intros fan Hfan. apply list_elem_of_lookup in Hfan as [k Hk].
    destruct (Forall2_lookup_r _ _ _ _ _ Hfans Hk)
      as ([idx output] & Hentry & Hi & Ho & Hr & Hl & _ & _ & _ & _ & Hen).
    cbn [fst snd] in *.
    apply list_elem_of_lookup_2, elem_of_map_to_list in Hentry.
    rewrite index_paths_last in Hentry, Hr.
    rewrite Hi, Ho, Hr, Hl. done.
Qed.

End detected_fans.

Lemma detect_createFans_pairs_by_number_witness :
  let probe := λ (_ pattern : string),
    if String.eqb pattern "^pwm[1-9]$"
    then ["/sys/class/hwmon/hwmon1/pwm2"]
    else ["/sys/class/hwmon/hwmon1/fan1_input"; "/sys/class/hwmon/hwmon1/fan2_input"] in
  ∃ fan,
    detect.createFans probe (λ _ _, "label") (λ _, Some 2) "^fan[1-9]_input$"
      "^pwm[1-9]$" 0 255 (-10) "/sys/class/hwmon/hwmon1" = Ok [fan] ∧
    detect.Index fan = 2 ∧
    detect.RpmInput fan = "/sys/class/hwmon/hwmon1/fan2_input".
Proof.
  cbv zeta.
  destruct (detect_createFans_pairs_by_number
              (λ (_ pattern : string),
                 if String.eqb pattern "^pwm[1-9]$"
                 then ["/sys/class/hwmon/hwmon1/pwm2"]
                 else ["/sys/class/hwmon/hwmon1/fan1_input";
                       "/sys/class/hwmon/hwmon1/fan2_input"])
              (λ _ _, "label") (λ _, Some 2) "^fan[1-9]_input$" "^pwm[1-9]$"
              0 255 (-10) "/sys/class/hwmon/hwmon1")
    as (fanList & Hrun & _).
  - intros fan. eauto.
  - rewrite Hrun. vm_compute in Hrun. injection Hrun as <-.
    eexists. split; [reflexivity |]. split; reflexivity.
Defined.

(** ** Second revision: FindControllers *)

Section found_devices.

Variable ReadFile : string → string.
Variable Stat : string → bool.
Variable FindFilesMatching : string → string → list string.
Variable CreateShortPciIdentifier : string → string.
Variables FanInputRegex PwmRegex TempInputRegex : string.

Lemma objects_FindControllers_device_cases (controllers : list hwmon.HwMonController)
    (devicePath : string) :
  let has_files :=
    FindFilesMatching devicePath FanInputRegex ≠ [] ∨
    FindFilesMatching devicePath PwmRegex ≠ [] ∨
    FindFilesMatching devicePath TempInputRegex ≠ [] in
  let found :=
    objects.FindControllers_device ReadFile FindFilesMatching
      CreateShortPciIdentifier FanInputRegex PwmRegex TempInputRegex
      controllers devicePath in
  (¬ has_files ∧ found = controllers) ∨
  (has_files ∧
   ∃ controller,
     found = controllers ++ [controller] ∧ hwmon.Path controller = devicePath ∧
     hwmon.FanInputs controller = FindFilesMatching devicePath FanInputRegex ∧
     hwmon.PwmInputs controller = FindFilesMatching devicePath PwmRegex ∧
     hwmon.TempInputs controller = FindFilesMatching devicePath TempInputRegex ∧
     hwmon.Name controller
       = discovery.computeIdentifier CreateShortPciIdentifier devicePath
           (sysfs.GetDeviceName ReadFile devicePath) ∧
     (brace ∉ list_ascii_of_string devicePath →
      hwmon.Platform controller = hwmon.Name controller)).
Proof.
  intros has_files found. subst has_files found.
  unfold objects.FindControllers_device.
  destruct ((Z.of_nat (length (FindFilesMatching devicePath FanInputRegex)) <=? 0)
            && (Z.of_nat (length (FindFilesMatching devicePath PwmRegex)) <=? 0)
            && (Z.of_nat (length (FindFilesMatching devicePath TempInputRegex)) <=? 0))
    eqn:Hempty.
  - left. split; [| done].
    apply andb_true_iff in Hempty as [[Hf Hp]%andb_true_iff Ht].
    apply Z.leb_le in Hf, Hp, Ht.
    intros [H | [H | H]]; apply H; apply length_zero_iff_nil; lia.
  - right. split.
    + destruct (FindFilesMatching devicePath FanInputRegex); [| by left].
      destruct (FindFilesMatching devicePath PwmRegex); [| by right; left].
      destruct (FindFilesMatching devicePath TempInputRegex); [| by right; right].
      discriminate.
    + eexists. split; [reflexivity |]. cbn. repeat (split; [done |]).
      intros Hbrace.
      change (backend_rev2.findPlatform devicePath) with (findPlatform devicePath).
      by rewrite (findPlatform_without_brace _ Hbrace).
Qed.

Lemma objects_FindControllers_fold (devices : list string) :
  ∀ controllers : list hwmon.HwMonController,
    ∃ news,
      fold_left (objects.FindControllers_device ReadFile FindFilesMatching
                   CreateShortPciIdentifier FanInputRegex PwmRegex TempInputRegex)
                devices controllers = controllers ++ news ∧
      hwmon.Path <$> news
        = filter (λ devicePath,
                    FindFilesMatching devicePath FanInputRegex ≠ [] ∨
                    FindFilesMatching devicePath PwmRegex ≠ [] ∨
                    FindFilesMatching devicePath TempInputRegex ≠ []) devices ∧
      ∀ controller, controller ∈ news →
        hwmon.FanInputs controller
          = FindFilesMatching (hwmon.Path controller) FanInputRegex ∧
        hwmon.PwmInputs controller
          = FindFilesMatching (hwmon.Path controller) PwmRegex ∧
        hwmon.TempInputs controller
          = FindFilesMatching (hwmon.Path controller) TempInputRegex ∧
        hwmon.Name controller
          = discovery.computeIdentifier CreateShortPciIdentifier (hwmon.Path controller)
              (sysfs.GetDeviceName ReadFile (hwmon.Path controller)) ∧
        (brace ∉ list_ascii_of_string (hwmon.Path controller) →
         hwmon.Platform controller = hwmon.Name controller).
Proof.
  induction devices as [|devicePath devices IH]; intros controllers.
  - exists []. rewrite app_nil_r. split; [done |]. split; [done |].
    intros c Hc. by apply not_elem_of_nil in Hc.
  - cbn [fold_left]. rewrite filter_cons.
    destruct (objects_FindControllers_device_cases controllers devicePath)
      as [[Hno ->] | [Hhas (c & -> & Hpath & Hc)]].
    + destruct (IH controllers) as (news & -> & Hpaths & Hnews).
      exists news. split; [done |]. split; [| done]. by rewrite decide_False.
    + destruct (IH (controllers ++ [c])) as (news & -> & Hpaths & Hnews).
      exists (c :: news). split; [by rewrite <- app_assoc |]. split.
      * rewrite decide_True by done. cbn. by rewrite Hpath, Hpaths.
      * intros c' [-> | Hc']%elem_of_cons; [| by apply Hnews]. by rewrite Hpath.
Qed.

(** X23: what [FindControllers] of the second revision returns, which
    cannot fail: one controller for every device path that has a fan input,
    a pwm file or a temperature input, in the order of the hwmon device
    paths, then the i2c device paths; the controller holds the three file
    lists of its path, its name is the identifier computed from the device
    name, and its platform is that name whenever the path holds no brace. *)
Theorem objects_FindControllers_lists_devices :
  let allDevices :=
    sysfs.FindHwmonDevicePaths Stat FindFilesMatching
    ++ sysfs.FindI2cDevicePaths Stat FindFilesMatching in
  let controllers :=
    objects.FindControllers ReadFile Stat FindFilesMatching CreateShortPciIdentifier
      FanInputRegex PwmRegex TempInputRegex in
  hwmon.Path <$> controllers
    = filter (λ devicePath,
                FindFilesMatching devicePath FanInputRegex ≠ [] ∨
                FindFilesMatching devicePath PwmRegex ≠ [] ∨
                FindFilesMatching devicePath TempInputRegex ≠ []) allDevices ∧
  ∀ controller, controller ∈ controllers →
    hwmon.FanInputs controller
      = FindFilesMatching (hwmon.Path controller) FanInputRegex ∧
    hwmon.PwmInputs controller
      = FindFilesMatching (hwmon.Path controller) PwmRegex ∧
    hwmon.TempInputs controller
      = FindFilesMatching (hwmon.Path controller) TempInputRegex ∧
    hwmon.Name controller
      = discovery.computeIdentifier CreateShortPciIdentifier (hwmon.Path controller)
          (sysfs.GetDeviceName ReadFile (hwmon.Path controller)) ∧
    (brace ∉ list_ascii_of_string (hwmon.Path controller) →
     hwmon.Platform controller = hwmon.Name controller).
Proof.
  intros allDevices controllers. subst controllers. unfold objects.FindControllers.
  fold allDevices. destruct (objects_FindControllers_fold allDevices []) as (news & -> & H).
  exact H.
Qed.

End found_devices.

(** ** Second revision: InitializeObjects and Run *)

Lemma resolve_skips (pre rest : list hwmon.HwMonController)
    (hw : objects.HwMonFanConfig) :
  (∀ c, c ∈ pre → hwmon.Platform c ≠ objects.HwMon_Platform hw) →
  objects.resolve (pre ++ rest) hw = objects.resolve rest hw.
Proof.
  induction pre as [|c pre IH]; intros Hpre; [done |].
  cbn [app objects.resolve].
  rewrite (proj2 (String.eqb_neq _ _)) by (apply Hpre; by left).
  apply IH. intros c' Hc'. apply Hpre. by right.
Qed.

Lemma for_each_rounds_return {A S : Type} (body : A → S → result S) (l : list A) :
  ∀ s s' : S, for_each body l s = Ok s' →
    ∀ x, x ∈ l → ∃ s0 s1, body x s0 = Ok s1.
Proof.
  induction l as [|y l IH]; intros s s' Hrun x Hx; [by apply not_elem_of_nil in Hx |].
  cbn [for_each] in Hrun.
  destruct (body y s) as [s1| |] eqn:Hbody; cbn [mbind result_bind] in Hrun;
    try discriminate.
  apply elem_of_cons in Hx as [-> | Hx]; [by eauto |]. by eapply IH.
Qed.

Lemma union_insert_last (D L : gset string) (k : string) :
  {[k]} ∪ (D ∪ L) = D ∪ (L ∪ list_to_set [k]).
Proof.
  apply set_eq. intros x.
  rewrite !elem_of_union, elem_of_list_to_set, list_elem_of_singleton, elem_of_singleton.
  tauto.
Qed.

Lemma union_nothing (D : gset string) : D = D ∪ list_to_set [].
Proof. by rewrite list_to_set_nil, (right_id_L ∅ (∪)). Qed.

Lemma for_each_app {A S : Type} (body : A → S → result S) (l1 l2 : list A) :
  ∀ s s' : S, for_each body (l1 ++ l2) s = Ok s' →
    ∃ s1, for_each body l1 s = Ok s1 ∧ for_each body l2 s1 = Ok s'.
Proof.
  induction l1 as [|x l1 IH]; intros s s' Hrun; [by exists s |].
  cbn [app for_each] in *.
  destruct (body x s) as [s0| |]; cbn [mbind result_bind] in *; try discriminate.
  by apply IH.
Qed.

Section tasks_of_maps.

Variables Sensor Fan : Type.

Lemma fan_tasks_count (entries : list (string * Fan)) :
  let fanTasks : list (objects.task Sensor Fan) :=
    entries ≫= λ '(fanId, fan), [objects.RpmMonitorTask; objects.FanControllerTask fan] in
  filter (λ t, objects.is_sensor_monitor t = true) fanTasks = [] ∧
  length (filter (λ t, objects.is_rpm_monitor t = true) fanTasks) = length entries ∧
  length (filter (λ t, objects.is_fan_controller t = true) fanTasks) = length entries.
Proof.
  cbv zeta. induction entries as [|[fanId fan] entries (IHs & IHr & IHf)];
    [repeat split; reflexivity |].
  rewrite bind_cons, !filter_app, !length_app, IHs, IHr, IHf.
  rewrite !filter_cons, !filter_nil.
  cbn [objects.is_sensor_monitor objects.is_rpm_monitor objects.is_fan_controller].
  repeat case_decide; done.
Qed.

Lemma sensor_tasks_count (entries : list (string * Sensor)) :
  let sensorTasks : list (objects.task Sensor Fan) :=
    (λ entry, objects.SensorMonitorTask entry.2) <$> entries in
  length (filter (λ t, objects.is_sensor_monitor t = true) sensorTasks)
    = length entries ∧
  filter (λ t, objects.is_rpm_monitor t = true) sensorTasks = [] ∧
  filter (λ t, objects.is_fan_controller t = true) sensorTasks = [].
Proof.
  cbv zeta. induction entries as [|entry entries (IHs & IHr & IHf)]; [done |].
  rewrite fmap_cons, !filter_cons.
  cbn [objects.is_sensor_monitor objects.is_rpm_monitor objects.is_fan_controller].
  repeat case_decide; try done.
  rewrite IHr, IHf. split; [| done]. cbn [length]. by rewrite IHs.
Qed.

End tasks_of_maps.

Section initialized.

Variables SensorConfig CurveConfig Sensor SpeedCurve Fan : Type.
Variable SensorConfig_ID : SensorConfig → string.
Variable CurveConfig_ID : CurveConfig → string.
Variable NewSensor : SensorConfig → list hwmon.HwMonController → option Sensor.
Variable GetValue : Sensor → option float.
Variable SetMovingAvg : float → Sensor → Sensor.
Variable NewSpeedCurve : CurveConfig → option SpeedCurve.
Variable NewFan : objects.FanConfig → option Fan.

(** X24: the hwmon index of a fan entry is a position in the file lists,
    counted from zero, of the first controller whose platform the entry
    names; controllers after it play no part.  When the position exists in
    both lists, the entry handed to [NewFan] carries the pwm file and the
    fan input at that position.  When it does not (the index is negative,
    or not below the number of pwm files or of fan inputs), the round
    panics with an index out of range, and [InitializeObjects] cannot
    return for a configuration that holds such an entry. *)
Theorem InitializeObjects_indexes_from_zero
    (cfg : objects.Configuration SensorConfig CurveConfig)
    (pre post : list hwmon.HwMonController) (c : hwmon.HwMonController)
    (config : objects.FanConfig) (hw : objects.HwMonFanConfig) :
  (∀ c', c' ∈ pre → hwmon.Platform c' ≠ objects.HwMon_Platform hw) →
  hwmon.Platform c = objects.HwMon_Platform hw →
  objects.FanConfig_HwMon config = Some hw →
  let controllers := pre ++ c :: post in
  let i := objects.HwMon_Index hw in
  (∀ pwmOutput rpmInput,
     0 ≤ i →
     hwmon.PwmInputs c !! Z.to_nat i = Some pwmOutput →
     hwmon.FanInputs c !! Z.to_nat i = Some rpmInput →
     objects.resolved controllers config
     = Ok {| objects.FanConfig_ID := objects.FanConfig_ID config;
             objects.FanConfig_HwMon :=
               Some {| objects.HwMon_Platform := objects.HwMon_Platform hw;
                       objects.HwMon_Index := i;
                       objects.HwMon_PwmOutput := pwmOutput;
                       objects.HwMon_RpmInput := rpmInput |} |}) ∧
  (¬ (0 ≤ i < Z.of_nat (length (hwmon.PwmInputs c)) ∧
      i < Z.of_nat (length (hwmon.FanInputs c))) →
   (∀ m : objects.Maps Sensor SpeedCurve Fan,
      objects.init_fan NewFan controllers config m = Panic IndexOutOfRange) ∧
   (config ∈ objects.Fans cfg →
    ∀ m m', objects.InitializeObjects SensorConfig_ID CurveConfig_ID NewSensor
              GetValue SetMovingAvg NewSpeedCurve NewFan cfg controllers m
            ≠ Ok m')).
Proof.
  intros Hpre Hplatform Hhw controllers i.
  assert (Hresolve : objects.resolve controllers hw
            = match objects.slice_at (hwmon.PwmInputs c) i with
              | None => Panic IndexOutOfRange
              | Some pwmOutput =>
                  match objects.slice_at (hwmon.FanInputs c) i with
                  | None => Panic IndexOutOfRange
                  | Some rpmInput =>
                      Ok {| objects.HwMon_Platform := objects.HwMon_Platform hw;
                            objects.HwMon_Index := i;
                            objects.HwMon_PwmOutput := pwmOutput;
                            objects.HwMon_RpmInput := rpmInput |}
                  end
              end).
  { subst controllers. rewrite (resolve_skips pre _ hw Hpre).
    cbn [objects.resolve]. by rewrite (proj2 (String.eqb_eq _ _) Hplatform). }
  split.
  - intros pwmOutput rpmInput Hi Hpwm Hrpm. unfold objects.resolved.
    rewrite Hhw, Hresolve. unfold objects.slice_at.
    rewrite (proj2 (Z.ltb_ge i 0)) by lia. by rewrite Hpwm, Hrpm.
  - intros Hout.
    assert (Hpanic : ∀ m : objects.Maps Sensor SpeedCurve Fan,
              objects.init_fan NewFan controllers config m = Panic IndexOutOfRange).
    { intros m. unfold objects.init_fan, objects.resolved.
      rewrite Hhw, Hresolve. unfold objects.slice_at.
      destruct (i <? 0) eqn:Hneg; [done |]. apply Z.ltb_ge in Hneg.
      destruct (hwmon.PwmInputs c !! Z.to_nat i) as [pwmOutput|] eqn:Hpwm; [| done].
      destruct (hwmon.FanInputs c !! Z.to_nat i) as [rpmInput|] eqn:Hrpm; [| done].
      exfalso. apply Hout.
      apply lookup_lt_Some in Hpwm, Hrpm. lia. }
    split; [exact Hpanic |]. intros Hin m m' Hrun.
    unfold objects.InitializeObjects in Hrun.
    destruct (for_each _ (objects.Sensors cfg) m) as [m1| |];
      cbn [mbind result_bind] in Hrun; try discriminate.
    destruct (for_each _ (objects.Curves cfg) m1) as [m2| |];
      cbn [mbind result_bind] in Hrun; try discriminate.
    destruct (for_each_rounds_return _ _ _ _ Hrun config Hin) as (s0 & s1 & Hbody).
    by rewrite Hpanic in Hbody.
Qed.

Lemma resolved_ID (controllers : list hwmon.HwMonController)
    (config config' : objects.FanConfig) :
  objects.resolved controllers config = Ok config' →
  objects.FanConfig_ID config' = objects.FanConfig_ID config.
Proof.
  unfold objects.resolved. destruct (objects.FanConfig_HwMon config) as [hw|].
  - destruct (objects.resolve controllers hw); cbn [mbind result_bind];
      intros Heq; try discriminate. by injection Heq as <-.
  - intros Heq. by injection Heq as <-.
Qed.

Lemma InitializeObjects_domains
    (cfg : objects.Configuration SensorConfig CurveConfig)
    (controllers : list hwmon.HwMonController)
    (m m' : objects.Maps Sensor SpeedCurve Fan) :
  objects.InitializeObjects SensorConfig_ID CurveConfig_ID NewSensor GetValue
    SetMovingAvg NewSpeedCurve NewFan cfg controllers m = Ok m' →
  dom (objects.SensorMap m')
    = dom (objects.SensorMap m) ∪ list_to_set (SensorConfig_ID <$> objects.Sensors cfg) ∧
  dom (objects.SpeedCurveMap m')
    = dom (objects.SpeedCurveMap m) ∪ list_to_set (CurveConfig_ID <$> objects.Curves cfg) ∧
  dom (objects.FanMap m')
    = dom (objects.FanMap m) ∪ list_to_set (objects.FanConfig_ID <$> objects.Fans cfg).
Proof.
  intros Hrun. unfold objects.InitializeObjects in Hrun.
  destruct (for_each _ (objects.Sensors cfg) m) as [m1| |] eqn:Hsensors;
    cbn [mbind result_bind] in Hrun; try discriminate.
  destruct (for_each _ (objects.Curves cfg) m1) as [m2| |] eqn:Hcurves;
    cbn [mbind result_bind] in Hrun; try discriminate.
  assert (H1 : dom (objects.SensorMap m1)
                 = dom (objects.SensorMap m)
                   ∪ list_to_set (SensorConfig_ID <$> objects.Sensors cfg) ∧
               objects.SpeedCurveMap m1 = objects.SpeedCurveMap m ∧
               objects.FanMap m1 = objects.FanMap m).
  { apply (for_each_returns_inv _
             (λ pre m1, dom (objects.SensorMap m1)
                          = dom (objects.SensorMap m) ∪ list_to_set (SensorConfig_ID <$> pre) ∧
                        objects.SpeedCurveMap m1 = objects.SpeedCurveMap m ∧
                        objects.FanMap m1 = objects.FanMap m) _ _ _ Hsensors).
    - split; [apply union_nothing | done].
    - intros pre config post s0 s1 _ (Hd & Hc & Hf) Hbody.
      unfold objects.init_sensor in Hbody.
      destruct (NewSensor config controllers) as [sensor|]; [| discriminate].
      destruct (GetValue sensor) as [value|]; [| discriminate].
      injection Hbody as <-. cbn. split; [| done].
      rewrite dom_insert_L, Hd, fmap_app, list_to_set_app_L. apply union_insert_last. }
  assert (H2 : objects.SensorMap m2 = objects.SensorMap m1 ∧
               dom (objects.SpeedCurveMap m2)
                 = dom (objects.SpeedCurveMap m1)
                   ∪ list_to_set (CurveConfig_ID <$> objects.Curves cfg) ∧
               objects.FanMap m2 = objects.FanMap m1).
  { apply (for_each_returns_inv _
             (λ pre m2, objects.SensorMap m2 = objects.SensorMap m1 ∧
                        dom (objects.SpeedCurveMap m2)
                          = dom (objects.SpeedCurveMap m1)
                            ∪ list_to_set (CurveConfig_ID <$> pre) ∧
                        objects.FanMap m2 = objects.FanMap m1) _ _ _ Hcurves).
    - split; [done |]. split; [apply union_nothing | done].
    - intros pre config post s0 s1 _ (Hs & Hd & Hf) Hbody.
      unfold objects.init_curve in Hbody.
      destruct (NewSpeedCurve config) as [curve|]; [| discriminate].
      injection Hbody as <-. cbn. split; [done |]. split; [| done].
      rewrite dom_insert_L, Hd, fmap_app, list_to_set_app_L. apply union_insert_last. }
  assert (H3 : objects.SensorMap m' = objects.SensorMap m2 ∧
               objects.SpeedCurveMap m' = objects.SpeedCurveMap m2 ∧
               dom (objects.FanMap m')
                 = dom (objects.FanMap m2)
                   ∪ list_to_set (objects.FanConfig_ID <$> objects.Fans cfg)).
  { apply (for_each_returns_inv _
             (λ pre m3, objects.SensorMap m3 = objects.SensorMap m2 ∧
                        objects.SpeedCurveMap m3 = objects.SpeedCurveMap m2 ∧
                        dom (objects.FanMap m3)
                          = dom (objects.FanMap m2)
                            ∪ list_to_set (objects.FanConfig_ID <$> pre)) _ _ _ Hrun).
    - split; [done |]. split; [done | apply union_nothing].
    - intros pre config post s0 s1 _ (Hs & Hc & Hd) Hbody.
      unfold objects.init_fan in Hbody.
      destruct (objects.resolved controllers config) as [config'| |] eqn:Hres;
        cbn [mbind result_bind] in Hbody; try discriminate.
      destruct (NewFan config') as [fan|]; [| discriminate].
      injection Hbody as <-. cbn. split; [done |]. split; [done |].
      rewrite dom_insert_L, Hd, fmap_app, list_to_set_app_L.
      rewrite (resolved_ID _ _ _ Hres). apply union_insert_last. }
  destruct H1 as (Hs1 & Hc1 & Hf1), H2 as (Hs2 & Hc2 & Hf2), H3 as (Hs3 & Hc3 & Hf3).
  rewrite Hs3, Hs2, Hc3, Hf3, Hf2, Hf1, Hc2, Hc1. done.
Qed.

Lemma init_fan_loop_keeps (controllers : list hwmon.HwMonController) (id : string)
    (entries : list objects.FanConfig) (m m' : objects.Maps Sensor SpeedCurve Fan) :
  for_each (objects.init_fan NewFan controllers) entries m = Ok m' →
  (∀ later, later ∈ entries → objects.FanConfig_ID later ≠ id) →
  objects.FanMap m' !! id = objects.FanMap m !! id.
Proof.
  intros Hrun Hlater.
  apply (for_each_returns_inv _
           (λ _ m1, objects.FanMap m1 !! id = objects.FanMap m !! id) _ _ _ Hrun);
    [done |].
  intros pre config post s0 s1 Hsplit Hinv Hbody.
  unfold objects.init_fan in Hbody.
  destruct (objects.resolved controllers config) as [config'| |] eqn:Hres;
    cbn [mbind result_bind] in Hbody; try discriminate.
  destruct (NewFan config') as [fan|]; [| discriminate].
  injection Hbody as <-. cbn. rewrite lookup_insert_ne; [done |].
  rewrite (resolved_ID _ _ _ Hres). apply Hlater. rewrite Hsplit.
  apply elem_of_app. right. by left.
Qed.

(** X25: in the second revision every fan id of the configuration counts,
    whether or not a controller has the platform of its entry.  When
    [InitializeObjects] returns, the three maps bind, besides what they
    bound before, exactly the ids of the configured sensors, curves and
    fans, and [FanMap] binds an id to the fan built from the last entry
    that carries it.  [Run], started with an empty [FanMap], ends in "No
    valid fan configurations" when the configuration lists no fan, and
    otherwise returns with one sensor monitor for every id of [SensorMap]
    and one RPM monitor and one fan controller for every id of [FanMap]:
    one of each for every fan entry when the entries have distinct ids, one
    for all the entries that share an id otherwise. *)
Theorem Run_starts_every_fan_id
    (cfg : objects.Configuration SensorConfig CurveConfig)
    (controllers : list hwmon.HwMonController)
    (m m' : objects.Maps Sensor SpeedCurve Fan) :
  objects.InitializeObjects SensorConfig_ID CurveConfig_ID NewSensor GetValue
    SetMovingAvg NewSpeedCurve NewFan cfg controllers m = Ok m' →
  let run := objects.Run SensorConfig_ID CurveConfig_ID NewSensor GetValue
               SetMovingAvg NewSpeedCurve NewFan "root" cfg controllers m in
  (dom (objects.SensorMap m')
     = dom (objects.SensorMap m) ∪ list_to_set (SensorConfig_ID <$> objects.Sensors cfg) ∧
   dom (objects.SpeedCurveMap m')
     = dom (objects.SpeedCurveMap m) ∪ list_to_set (CurveConfig_ID <$> objects.Curves cfg) ∧
   dom (objects.FanMap m')
     = dom (objects.FanMap m) ∪ list_to_set (objects.FanConfig_ID <$> objects.Fans cfg)) ∧
  (∀ pre config post,
     objects.Fans cfg = pre ++ config :: post →
     (∀ later, later ∈ post →
        objects.FanConfig_ID later ≠ objects.FanConfig_ID config) →
     ∃ config' fan,
       objects.resolved controllers config = Ok config' ∧
       NewFan config' = Some fan ∧
       objects.FanMap m' !! objects.FanConfig_ID config = Some fan) ∧
  (objects.FanMap m = ∅ → NoDup (objects.FanConfig_ID <$> objects.Fans cfg) →
   size (objects.FanMap m') = length (objects.Fans cfg)) ∧
  (objects.Fans cfg = [] → objects.FanMap m = ∅ →
   run = Fatal "No valid fan configurations, exiting.") ∧
  (objects.Fans cfg ≠ [] →
   ∃ tasks, run = Ok (m', tasks) ∧
     length (filter (λ t, objects.is_sensor_monitor t = true) tasks)
       = size (objects.SensorMap m') ∧
     length (filter (λ t, objects.is_rpm_monitor t = true) tasks)
       = size (objects.FanMap m') ∧
     length (filter (λ t, objects.is_fan_controller t = true) tasks)
       = size (objects.FanMap m') ∧
     (∀ sensor, objects.SensorMonitorTask sensor ∈ tasks ↔
                ∃ id, objects.SensorMap m' !! id = Some sensor) ∧
     (∀ fan, objects.FanControllerTask fan ∈ tasks ↔
             ∃ id, objects.FanMap m' !! id = Some fan)).
Proof.
  intros Hrun run. pose proof (InitializeObjects_domains _ _ _ _ Hrun) as Hdom.
  split; [exact Hdom |]. destruct Hdom as (_ & _ & Hfans).
  split; [| split].
  { intros pre config post Hsplit Hlater.
    unfold objects.InitializeObjects in Hrun.
    destruct (for_each _ (objects.Sensors cfg) m) as [m1| |];
      cbn [mbind result_bind] in Hrun; try discriminate.
    destruct (for_each _ (objects.Curves cfg) m1) as [m2| |];
      cbn [mbind result_bind] in Hrun; try discriminate.
    rewrite Hsplit in Hrun.
    apply for_each_app in Hrun as (s1 & _ & Hrest). cbn [for_each] in Hrest.
    destruct (objects.init_fan NewFan controllers config s1) as [s2| |] eqn:Hround;
      cbn [mbind result_bind] in Hrest; try discriminate.
    unfold objects.init_fan in Hround.
    destruct (objects.resolved controllers config) as [config'| |] eqn:Hres;
      cbn [mbind result_bind] in Hround; try discriminate.
    destruct (NewFan config') as [fan|] eqn:Hnew; [| discriminate].
    injection Hround as <-. exists config', fan. split; [done |]. split; [done |].
    rewrite (init_fan_loop_keeps _ _ _ _ _ Hrest Hlater). cbn.
    rewrite (resolved_ID _ _ _ Hres). apply lookup_insert_eq. }
  { intros Hempty Hnodup. rewrite <- size_dom, Hfans, Hempty, dom_empty_L.
    rewrite (left_id_L ∅ (∪)), size_list_to_set by done. apply length_fmap. }
  subst run. unfold objects.Run. rewrite bool_decide_eq_true_2 by done.
  cbn [negb]. rewrite Hrun. cbn [mbind result_bind]. split.
  - intros Hnone Hempty. rewrite Hnone, Hempty in Hfans.
    assert (Hm' : objects.FanMap m' = ∅).
    { apply dom_empty_iff_L. rewrite Hfans, dom_empty_L.
      apply (left_id_L ∅ (∪)). }
    by rewrite Hm', map_size_empty.
  - intros Hsome.
    assert (Hsize : (Z.of_nat (size (objects.FanMap m')) =? 0) = false).
    { apply Z.eqb_neq. intros Hzero.
      destruct (objects.Fans cfg) as [|config rest] eqn:E; [done |].
      assert (Hin : objects.FanConfig_ID config ∈ dom (objects.FanMap m')).
      { rewrite Hfans. apply elem_of_union_r, elem_of_list_to_set. by left. }
      apply elem_of_dom in Hin as [fan Hfan].
      assert (Hm' : objects.FanMap m' = ∅) by (apply map_size_empty_iff; lia).
      by rewrite Hm', lookup_empty in Hfan. }
    rewrite Hsize. eexists. split; [reflexivity |].
    destruct (sensor_tasks_count Sensor Fan (map_to_list (objects.SensorMap m')))
      as (Hss & Hsr & Hsf).
    destruct (fan_tasks_count Sensor Fan (map_to_list (objects.FanMap m')))
      as (Hfs & Hfr & Hff).
    rewrite !filter_app, !length_app, Hss, Hsr, Hsf, Hfs, Hfr, Hff.
    rewrite !filter_cons, !filter_nil.
    cbn [objects.is_sensor_monitor objects.is_rpm_monitor objects.is_fan_controller].
    repeat case_decide; try done. cbn [length].
    rewrite !length_map_to_list.
    split; [lia |]. split; [lia |]. split; [lia |]. split.
    + intros sensor. rewrite !elem_of_app, list_elem_of_fmap, list_elem_of_bind. split.
      * intros [([id s] & Heq & Hin) | [([id f] & Hin & _) | Hin]].
        -- injection Heq as ->. exists id. by apply elem_of_map_to_list.
        -- apply elem_of_cons in Hin as [? | Hin]; [done |].
           by apply list_elem_of_singleton in Hin.
        -- by apply list_elem_of_singleton in Hin.
      * intros [id Hid]. left. exists (id, sensor). split; [done |].
        by apply elem_of_map_to_list.
    + intros fan. rewrite !elem_of_app, list_elem_of_fmap, list_elem_of_bind. split.
      * intros [([id s] & Heq & _) | [([id f] & Hin & Hentry) | Hin]].
        -- done.
        -- apply elem_of_cons in Hin as [? | Hin]; [done |].
           apply list_elem_of_singleton in Hin. injection Hin as ->.
           exists id. by apply elem_of_map_to_list.
        -- by apply list_elem_of_singleton in Hin.
      * intros [id Hid]. right. left. exists (id, fan).
        split; [| by apply elem_of_map_to_list]. right. by left.
Qed.

End initialized.

Lemma InitializeObjects_indexes_from_zero_witness :
  objects.init_fan Some [samples.chip] (samples.fan_entry "nct6798" 1) samples.no_maps
  = Panic IndexOutOfRange.
Proof.
  destruct (InitializeObjects_indexes_from_zero string string string string
              objects.FanConfig id id (λ _ _, None) (λ _, None) (λ _ sensor, sensor)
              (λ _, None) Some
              (samples.one_entry (samples.fan_entry "nct6798" 1))
              [] [] samples.chip (samples.fan_entry "nct6798" 1)
              {| objects.HwMon_Platform := "nct6798"; objects.HwMon_Index := 1;
                 objects.HwMon_PwmOutput := EmptyString;
                 objects.HwMon_RpmInput := EmptyString |})
    as [_ Hout].
  - intros c Hc. by apply not_elem_of_nil in Hc.
  - reflexivity.
  - reflexivity.
  - destruct Hout as [Hpanic _]; [cbn; lia | exact (Hpanic samples.no_maps)].
Defined.

Lemma Run_starts_every_fan_id_witness :
  ∃ m' tasks,
    objects.Run id id (λ _ _, None) (λ _ : string, None) (λ _ sensor, sensor)
      (λ _, None) Some "root" samples.twin_entries [samples.chip] samples.no_maps
      = Ok (m', tasks) ∧
    length (filter (λ t, objects.is_rpm_monitor t = true) tasks) = 1%nat ∧
    length (filter (λ t, objects.is_fan_controller t = true) tasks) = 1%nat.
Proof.
  assert (Hinit : ∃ m',
            objects.InitializeObjects id id (λ _ _, None) (λ _ : string, None)
              (λ _ sensor, sensor) (λ _, None) Some samples.twin_entries
              [samples.chip] samples.no_maps = Ok m') by (vm_compute; eauto).
  destruct Hinit as [m' Hinit].
  destruct (Run_starts_every_fan_id _ _ _ _ _ _ _ _ _ _ _ _ _ _ _ _ Hinit)
    as (_ & _ & _ & _ & Hsome).
  destruct Hsome as (tasks & Hrun & _ & Hmonitors & Hcontrollers & _); [done |].
  exists m', tasks. split; [exact Hrun |].
  rewrite Hmonitors, Hcontrollers.
  vm_compute in Hinit. injection Hinit as <-. split; reflexivity.
Defined.

Lemma objects_FindControllers_lists_devices_witness :
  hwmon.Path <$> objects.FindControllers samples.sysfs_files samples.sysfs_stat
                   samples.sysfs_dirs (λ s, s) "^fan[1-9]_input$" "^pwm[1-9]$"
                   "^temp[1-9]_input$"
  = ["/sys/class/hwmon/hwmon1"].
Proof.
  rewrite (proj1 (objects_FindControllers_lists_devices samples.sysfs_files
                    samples.sysfs_stat samples.sysfs_dirs (λ s, s)
                    "^fan[1-9]_input$" "^pwm[1-9]$" "^temp[1-9]_input$")).
  vm_compute. reflexivity.
Defined.

(** ** Binding a sensor *)

Lemma findSensorConfig_in_skips (pre rest : list SensorConfig)
    (controller : HwMonController) (sensor : HwmonSensor) :
  (∀ e, e ∈ pre →
     ¬ spec.sensor_entry_matches controller (Sensor_Index sensor) e ∧
     (SensorConfig_Type e = TypeHwMon → SensorConfig_Params e ≠ MalformedParams)) →
  findSensorConfig_in (pre ++ rest) controller sensor
  = findSensorConfig_in rest controller sensor.
Proof.
  induction pre as [|e pre IH]; intros Hpre; [done |].
  assert (Htail : ∀ e', e' ∈ pre →
            ¬ spec.sensor_entry_matches controller (Sensor_Index sensor) e' ∧
            (SensorConfig_Type e' = TypeHwMon → SensorConfig_Params e' ≠ MalformedParams)).
  { intros e' Hin. apply Hpre. by right. }
  destruct (Hpre e) as [Hno Hwf]; [by left |].
  cbn [app findSensorConfig_in].
  destruct (SensorConfig_Type e) eqn:Htype; try by apply IH.
  destruct (SensorConfig_Params e) as [platform index|] eqn:Hparams;
    [| by destruct Hwf].
  destruct (bool_decide (Platform controller = platform)) eqn:Hp;
    [apply bool_decide_eq_true in Hp | by apply IH].
  destruct (bool_decide (Sensor_Index sensor = index)) eqn:Hi;
    [apply bool_decide_eq_true in Hi | by apply IH].
  destruct Hno. subst. done.
Qed.

(** X26: binding one sensor.  A sensor that no entry of the configuration
    matches is left as it is and is not read.  A sensor that entries match
    gets the first matching entry as configuration, [SensorMap] binds the id
    of that entry to it, and then it is read once, as the configured sensor:
    when the read fails the process ends with "Error reading sensor";
    otherwise the value read becomes its moving average, and the other
    sensors, the other ids, the fans and [FanMap] are untouched. *)
Theorem map_sensor_binds_first_match (cfg : Configuration)
    (GetValue : HwmonSensor → option float) (controller : HwMonController)
    (a : nat) (g : Globals) (sensor : HwmonSensor) :
  sensor_store g !! a = Some sensor →
  ((∀ e, e ∈ Sensors cfg →
      ¬ spec.sensor_entry_matches controller (Sensor_Index sensor) e ∧
      (SensorConfig_Type e = TypeHwMon → SensorConfig_Params e ≠ MalformedParams)) →
   map_sensor cfg GetValue controller a g = Ok g) ∧
  (∀ pre entry post,
     Sensors cfg = pre ++ entry :: post →
     (∀ e, e ∈ pre →
        ¬ spec.sensor_entry_matches controller (Sensor_Index sensor) e ∧
        (SensorConfig_Type e = TypeHwMon → SensorConfig_Params e ≠ MalformedParams)) →
     spec.sensor_entry_matches controller (Sensor_Index sensor) entry →
     match GetValue (Sensor_SetConfig entry sensor) with
     | None =>
         map_sensor cfg GetValue controller a g = Fatal "Error reading sensor %s: %v"
     | Some currentValue =>
         ∃ g',
           map_sensor cfg GetValue controller a g = Ok g' ∧
           SensorMap g' !! SensorConfig_Id entry = Some a ∧
           sensor_store g' !! a
             = Some (Sensor_SetMovingAvg currentValue (Sensor_SetConfig entry sensor)) ∧
           (∀ b, b ≠ a → sensor_store g' !! b = sensor_store g !! b) ∧
           (∀ id, id ≠ SensorConfig_Id entry → SensorMap g' !! id = SensorMap g !! id) ∧
           fan_store g' = fan_store g ∧ FanMap g' = FanMap g
     end).
Proof.
  intros Hsensor. unfold map_sensor, findSensorConfig. rewrite Hsensor. split.
  - intros Hnone.
    rewrite <- (app_nil_r (Sensors cfg)).
    by rewrite (findSensorConfig_in_skips _ [] controller sensor Hnone).
  - intros pre entry post -> Hpre [Htype Hparams].
    rewrite (findSensorConfig_in_skips pre _ controller sensor Hpre).
    cbn [findSensorConfig_in]. rewrite Htype, Hparams.
    rewrite !bool_decide_eq_true_2 by done. cbn [andb mbind result_bind]. cbv zeta.
    destruct (GetValue (Sensor_SetConfig entry sensor)) as [currentValue|]; [| done].
    eexists. split; [reflexivity |]. cbn.
    split; [apply lookup_insert_eq |]. split; [apply lookup_insert_eq |].
    split; [| split; [| done]].
    + intros b Hb. by rewrite !lookup_insert_ne.
    + intros id Hid. by apply lookup_insert_ne.
Qed.

Lemma map_sensor_binds_first_match_witness :
  ∃ g', map_sensor samples.board_config samples.readable_once_configured
          samples.gpu 0%nat samples.gpu_objects = Ok g' ∧
        SensorMap g' !! "gpu_temp" = Some 0%nat.
Proof.
  destruct (map_sensor_binds_first_match samples.board_config
              samples.readable_once_configured samples.gpu 0%nat
              samples.gpu_objects samples.gpu_sensor)
    as [_ Hmatch]; [reflexivity |].
  destruct (Hmatch [] samples.ghost_sensor []) as (g' & Hrun & Hbound & _);
    [reflexivity | | by split |].
  - intros e He. by apply not_elem_of_nil in He.
  - exists g'. split; [exact Hrun | exact Hbound].
Defined.

(** ** Interrupting the task group *)

Lemma interrupt_all_sensor (answer : nat → action → option error) (g : Globals)
    (err : option error) (sensor : nat) (tasks : list task) :
  interrupt_all answer g err (SensorMonitorTask sensor :: tasks)
  = ([], Fatal "Error monitoring sensor: %v").
Proof. reflexivity. Qed.

Lemma interrupt_all_fans (answer : nat → action → option error) (g : Globals)
    (err : option error) (rest : list task) :
  ∀ entries : list (string * nat),
    (∀ id a, (id, a) ∈ entries → is_Some (fan_store g !! a)) →
    interrupt_all answer g err
      ((entries ≫= λ '(fanId, a), [RpmMonitorTask fanId; FanControllerTask fanId a])
       ++ rest)
    = (spec.restorations answer g err entries ++ (interrupt_all answer g err rest).1,
       (interrupt_all answer g err rest).2).
Proof.
  induction entries as [|[fanId a] entries IH]; intros Hstored.
  - change (interrupt_all answer g err rest
            = ((interrupt_all answer g err rest).1, (interrupt_all answer g err rest).2)).
    by destruct (interrupt_all answer g err rest).
  - unfold spec.restorations. rewrite !bind_cons. fold (spec.restorations answer g err entries).
    destruct (Hstored fanId a) as [fan Hfan]; [by left |].
    rewrite <- app_assoc.
    change ([RpmMonitorTask fanId; FanControllerTask fanId a] ++ ?l)
      with (RpmMonitorTask fanId :: FanControllerTask fanId a :: l).
    cbn [interrupt_all interrupt app]. rewrite Hfan.
    rewrite IH by (intros id b Hin; apply (Hstored id b); by right).
    by rewrite <- app_assoc.
Qed.

Lemma restorations_addresses (answer : nat → action → option error) (g : Globals)
    (err : option error) (entries : list (string * nat)) (e : nat * action) :
  e ∈ spec.restorations answer g err entries → e.1 ∈ entries.*2.
Proof.
  unfold spec.restorations. intros ([id a] & Hin & Hentry)%list_elem_of_bind.
  apply list_elem_of_fmap. exists (id, a). split; [| done].
  destruct (fan_store g !! a); [| by apply not_elem_of_nil in Hin].
  by apply list_elem_of_fmap in Hin as (act & -> & _).
Qed.

Lemma restorations_of_fan (answer : nat → action → option error) (g : Globals)
    (err : option error) (a : nat) (fan : HwMonFan) :
  fan_store g !! a = Some fan →
  ∀ entries : list (string * nat),
    NoDup entries.*2 → a ∈ entries.*2 →
    filter (λ e, e.1 = a) (spec.restorations answer g err entries)
    = pair a <$> calls (answer a) (restore fan err).
Proof.
  intros Hfan. induction entries as [|[id b] entries IH]; intros Hnodup Hin;
    [by apply not_elem_of_nil in Hin |].
  cbn [fmap list_fmap snd] in Hnodup, Hin. apply NoDup_cons in Hnodup as [Hfresh Hnodup].
  unfold spec.restorations. rewrite bind_cons. fold (spec.restorations answer g err entries).
  rewrite filter_app.
  destruct (decide (b = a)) as [-> | Hne].
  - rewrite Hfan.
    assert (Hrest : filter (λ e, e.1 = a) (spec.restorations answer g err entries) = []).
    { apply elem_of_nil_inv. intros e [Heq He]%list_elem_of_filter.
      apply Hfresh. rewrite <- Heq. by eapply restorations_addresses. }
    rewrite Hrest, app_nil_r.
    generalize (calls (answer a) (restore fan err)). intros l.
    induction l as [|act l IHl]; [done |].
    rewrite fmap_cons, filter_cons, decide_True by done. by rewrite IHl.
  - apply elem_of_cons in Hin as [-> | Hin]; [done |].
    rewrite (IH Hnodup Hin).
    assert (Hhead : filter (λ e : nat * action, e.1 = a)
                      match fan_store g !! b with
                      | Some fan0 => pair b <$> calls (answer b) (restore fan0 err)
                      | None => []
                      end = []).
    { apply elem_of_nil_inv. intros e [Heq He]%list_elem_of_filter.
      destruct (fan_store g !! b); [| by apply not_elem_of_nil in He].
      apply list_elem_of_fmap in He as (act & -> & _). by apply Hne. }
    by rewrite Hhead.
Qed.

(** X27: the interrupt functions run in the order [Run] registered the
    tasks, and those of the sensor monitors come first.  When [Run] has
    filled its group and the group is interrupted, with an error or with
    nil: if a sensor is configured, the first interrupt function ends the
    process with "Error monitoring sensor" before any call is made on a
    fan, so no fan is restored; if no sensor is configured, every interrupt
    function returns, and every configured fan (listed once) has been
    through its restoration, and through nothing else. *)
Theorem interrupts_stop_at_first_sensor (cfg : Configuration)
    (GetValue : HwmonSensor → option float)
    (controllers : list HwMonController) (g g' : Globals) (tasks : list task)
    (answer : nat → action → option error) (err : option error) (gi : Globals) :
  Run cfg GetValue "root" controllers g = Ok (g', tasks) →
  (∀ id a, (id, a) ∈ configured_fans g' controllers → is_Some (fan_store gi !! a)) →
  (configured_sensors g' controllers ≠ [] →
   interrupt_all answer gi err tasks = ([], Fatal "Error monitoring sensor: %v")) ∧
  (configured_sensors g' controllers = [] →
   ∃ trace,
     interrupt_all answer gi err tasks = (trace, Ok tt) ∧
     ∀ a fan,
       NoDup (configured_fans g' controllers).*2 →
       a ∈ (configured_fans g' controllers).*2 →
       fan_store gi !! a = Some fan →
       filter (λ e, e.1 = a) trace = pair a <$> calls (answer a) (restore fan err)).
Proof.
  intros Hrun Hstored. unfold Run in Hrun.
  rewrite bool_decide_eq_true_2 in Hrun by done. cbn [negb] in Hrun.
  destruct (MapConfigToControllers cfg GetValue controllers g) as [g1| |];
    cbn [mbind result_bind] in Hrun; try discriminate.
  destruct (Z.of_nat (length (configured_fans g1 controllers)) =? 0); [discriminate |].
  injection Hrun as <- <-. split.
  - intros Hsensors.
    destruct (configured_sensors g1 controllers) as [|sensor sensors]; [done |].
    apply interrupt_all_sensor.
  - intros ->. cbn [fmap list_fmap app].
    rewrite (interrupt_all_fans answer gi err [SignalTask] _ Hstored).
    cbn [interrupt_all interrupt fst snd]. rewrite app_nil_r.
    eexists. split; [reflexivity |]. intros a fan Hnodup Hin Hfan.
    by apply restorations_of_fan.
Qed.

Lemma interrupts_stop_at_first_sensor_witness :
  ∃ g' tasks,
    Run samples.board_config samples.readable "root" samples.board_with_gpu
      samples.board_with_gpu_objects = Ok (g', tasks) ∧
    interrupt_all (λ _, samples.obedient) g' None tasks
    = ([], Fatal "Error monitoring sensor: %v").
Proof.
  assert (Hrun : ∃ g' tasks,
            Run samples.board_config samples.readable "root" samples.board_with_gpu
              samples.board_with_gpu_objects = Ok (g', tasks))
    by (vm_compute; eauto).
  destruct Hrun as (g' & tasks & Hrun).
  exists g', tasks. split; [exact Hrun |].
  apply (interrupts_stop_at_first_sensor _ _ _ _ _ _ _ _ _ Hrun);
    vm_compute in Hrun; injection Hrun as <- <-.
  - intros id a Hin. vm_compute in Hin.
    apply list_elem_of_singleton in Hin. injection Hin as -> ->. by eexists.
  - vm_compute. discriminate.
Defined.
